(** * libSEDML object model: SedComputeChange, SedPlot2D, SedErrorCode_t

    A shallow embedding of [src/sedml/SedComputeChange.cpp],
    [src/sedml/SedPlot2D.cpp] and of the [SedErrorCode_t] enumeration of
    [src/sedml/SedError.h].

    C++ objects live in a store indexed by addresses; a pointer is an
    [option addr] ([None] is [NULL]).  Methods are written in a small
    state-and-exception monad over that store, so that aliasing, ownership,
    exceptions and undefined behaviour are explicit. *)

From Stdlib Require Import ZArith.
From stdpp Require Import base gmap list strings.

(** ** Diagnostic codes ([SedError.h], lines 444-857) *)

Module SedError.

Inductive SedErrorCode_t : Set :=
  | UnknownError
  | NotUTF8
  | UnrecognizedElement
  | NotSchemaConformant
  | L3NotSchemaConformant
  | InvalidMathElement
  | DisallowedMathMLSymbol
  | DisallowedMathMLEncodingUse
  | DisallowedDefinitionURLUse
  | BadCsymbolDefinitionURLValue
  | DisallowedMathTypeAttributeUse
  | DisallowedMathTypeAttributeValue
  | LambdaOnlyAllowedInFunctionDef
  | BooleanOpsNeedBooleanArgs
  | NumericOpsNeedNumericArgs
  | ArgsToEqNeedSameType
  | PiecewiseNeedsConsistentTypes
  | PieceNeedsBoolean
  | ApplyCiMustBeUserFunction
  | ApplyCiMustBeModelComponent
  | KineticLawParametersAreLocalOnly
  | MathResultMustBeNumeric
  | OpsNeedCorrectNumberOfArgs
  | InvalidNoArgsPassedToFunctionDef
  | DisallowedMathUnitsUse
  | InvalidUnitsValue
  | DuplicateComponentId
  | DuplicateUnitDefinitionId
  | DuplicateLocalParameterId
  | MultipleAssignmentOrRateRules
  | MultipleEventAssignmentsForId
  | EventAndAssignmentRuleForId
  | DuplicateMetaId
  | InvalidSBOTermSyntax
  | InvalidMetaidSyntax
  | InvalidIdSyntax
  | InvalidUnitIdSyntax
  | InvalidNameSyntax
  | MissingAnnotationNamespace
  | DuplicateAnnotationNamespaces
  | SedNamespaceInAnnotation
  | MultipleAnnotations
  | InconsistentArgUnits
  | InconsistentKineticLawUnitsL3
  | AssignRuleCompartmentMismatch
  | AssignRuleSpeciesMismatch
  | AssignRuleParameterMismatch
  | AssignRuleStoichiometryMismatch
  | InitAssignCompartmenMismatch
  | InitAssignSpeciesMismatch
  | InitAssignParameterMismatch
  | InitAssignStoichiometryMismatch
  | RateRuleCompartmentMismatch
  | RateRuleSpeciesMismatch
  | RateRuleParameterMismatch
  | RateRuleStoichiometryMismatch
  | KineticLawNotSubstancePerTime
  | SpeciesInvalidExtentUnits
  | DelayUnitsNotTime
  | EventAssignCompartmentMismatch
  | EventAssignSpeciesMismatch
  | EventAssignParameterMismatch
  | EventAssignStoichiometryMismatch
  | PriorityUnitsNotDimensionless
  | UpperUnitBound
  | OverdeterminedSystem
  | InvalidModelSBOTerm
  | InvalidFunctionDefSBOTerm
  | InvalidParameterSBOTerm
  | InvalidInitAssignSBOTerm
  | InvalidRuleSBOTerm
  | InvalidConstraintSBOTerm
  | InvalidReactionSBOTerm
  | InvalidSpeciesReferenceSBOTerm
  | InvalidKineticLawSBOTerm
  | InvalidEventSBOTerm
  | InvalidEventAssignmentSBOTerm
  | InvalidCompartmentSBOTerm
  | InvalidSpeciesSBOTerm
  | InvalidCompartmentTypeSBOTerm
  | InvalidSpeciesTypeSBOTerm
  | InvalidTriggerSBOTerm
  | InvalidDelaySBOTerm
  | NotesNotInXHTMLNamespace
  | NotesContainsXMLDecl
  | NotesContainsDOCTYPE
  | InvalidNotesContent
  | OnlyOneNotesElementAllowed
  | InvalidNamespaceOnSed
  | MissingOrInconsistentLevel
  | MissingOrInconsistentVersion
  | PackageNSMustMatch
  | LevelPositiveInteger
  | VersionPositiveInteger
  | AllowedAttributesOnSed
  | L3PackageOnLowerSed
  | MissingModel
  | IncorrectOrderInModel
  | EmptyListElement
  | NeedCompartmentIfHaveSpecies
  | OneOfEachListOf
  | OnlyFuncDefsInListOfFuncDefs
  | OnlyUnitDefsInListOfUnitDefs
  | OnlyCompartmentsInListOfCompartments
  | OnlySpeciesInListOfSpecies
  | OnlyParametersInListOfParameters
  | OnlyInitAssignsInListOfInitAssigns
  | OnlyRulesInListOfRules
  | OnlyConstraintsInListOfConstraints
  | OnlyReactionsInListOfReactions
  | OnlyEventsInListOfEvents
  | L3ConversionFactorOnModel
  | L3TimeUnitsOnModel
  | L3VolumeUnitsOnModel
  | L3AreaUnitsOnModel
  | L3LengthUnitsOnModel
  | L3ExtentUnitsOnModel
  | AllowedAttributesOnModel
  | AllowedAttributesOnListOfFuncs
  | AllowedAttributesOnListOfUnitDefs
  | AllowedAttributesOnListOfComps
  | AllowedAttributesOnListOfSpecies
  | AllowedAttributesOnListOfParams
  | AllowedAttributesOnListOfInitAssign
  | AllowedAttributesOnListOfRules
  | AllowedAttributesOnListOfConstraints
  | AllowedAttributesOnListOfReactions
  | AllowedAttributesOnListOfEvents
  | FunctionDefMathNotLambda
  | InvalidApplyCiInLambda
  | RecursiveFunctionDefinition
  | InvalidCiInLambda
  | InvalidFunctionDefReturnType
  | OneMathElementPerFunc
  | AllowedAttributesOnFunc
  | InvalidUnitDefId
  | InvalidSubstanceRedefinition
  | InvalidLengthRedefinition
  | InvalidAreaRedefinition
  | InvalidTimeRedefinition
  | InvalidVolumeRedefinition
  | VolumeLitreDefExponentNotOne
  | VolumeMetreDefExponentNot3
  | EmptyListOfUnits
  | InvalidUnitKind
  | OffsetNoLongerValid
  | CelsiusNoLongerValid
  | EmptyUnitListElement
  | OneListOfUnitsPerUnitDef
  | OnlyUnitsInListOfUnits
  | AllowedAttributesOnUnitDefinition
  | AllowedAttributesOnListOfUnits
  | AllowedAttributesOnUnit
  | ZeroDimensionalCompartmentSize
  | ZeroDimensionalCompartmentUnits
  | ZeroDimensionalCompartmentConst
  | UndefinedOutsideCompartment
  | RecursiveCompartmentContainment
  | ZeroDCompartmentContainment
  | Invalid1DCompartmentUnits
  | Invalid2DCompartmentUnits
  | Invalid3DCompartmentUnits
  | InvalidCompartmentTypeRef
  | OneDimensionalCompartmentUnits
  | TwoDimensionalCompartmentUnits
  | ThreeDimensionalCompartmentUnits
  | AllowedAttributesOnCompartment
  | NoUnitsOnCompartment
  | InvalidSpeciesCompartmentRef
  | HasOnlySubsNoSpatialUnits
  | NoSpatialUnitsInZeroD
  | NoConcentrationInZeroD
  | SpatialUnitsInOneD
  | SpatialUnitsInTwoD
  | SpatialUnitsInThreeD
  | InvalidSpeciesSusbstanceUnits
  | BothAmountAndConcentrationSet
  | NonBoundarySpeciesAssignedAndUsed
  | NonConstantSpeciesUsed
  | InvalidSpeciesTypeRef
  | MultSpeciesSameTypeInCompartment
  | MissingSpeciesCompartment
  | SpatialSizeUnitsRemoved
  | SubstanceUnitsOnSpecies
  | ConversionFactorOnSpecies
  | AllowedAttributesOnSpecies
  | InvalidParameterUnits
  | ParameterUnits
  | ConversionFactorMustConstant
  | AllowedAttributesOnParameter
  | InvalidInitAssignSymbol
  | MultipleInitAssignments
  | InitAssignmentAndRuleForSameId
  | OneMathElementPerInitialAssign
  | AllowedAttributesOnInitialAssign
  | InvalidAssignRuleVariable
  | InvalidRateRuleVariable
  | AssignmentToConstantEntity
  | RateRuleForConstantEntity
  | RepeatedRule10304
  | CircularRuleDependency
  | OneMathElementPerRule
  | AllowedAttributesOnAssignRule
  | AllowedAttributesOnRateRule
  | AllowedAttributesOnAlgRule
  | ConstraintMathNotBoolean
  | IncorrectOrderInConstraint
  | ConstraintNotInXHTMLNamespace
  | ConstraintContainsXMLDecl
  | ConstraintContainsDOCTYPE
  | InvalidConstraintContent
  | OneMathElementPerConstraint
  | OneMessageElementPerConstraint
  | AllowedAttributesOnConstraint
  | NoReactantsOrProducts
  | IncorrectOrderInReaction
  | EmptyListInReaction
  | InvalidReactantsProductsList
  | InvalidModifiersList
  | OneSubElementPerReaction
  | CompartmentOnReaction
  | AllowedAttributesOnReaction
  | InvalidSpeciesReference
  | RepeatedRule20611
  | BothStoichiometryAndMath
  | AllowedAttributesOnSpeciesReference
  | AllowedAttributesOnModifier
  | UndeclaredSpeciesRef
  | IncorrectOrderInKineticLaw
  | EmptyListInKineticLaw
  | NonConstantLocalParameter
  | SubsUnitsNoLongerValid
  | TimeUnitsNoLongerValid
  | OneListOfPerKineticLaw
  | OnlyLocalParamsInListOfLocalParams
  | AllowedAttributesOnListOfLocalParam
  | OneMathPerKineticLaw
  | UndeclaredSpeciesInStoichMath
  | AllowedAttributesOnKineticLaw
  | AllowedAttributesOnListOfSpeciesRef
  | AllowedAttributesOnListOfMods
  | AllowedAttributesOnLocalParameter
  | MissingTriggerInEvent
  | TriggerMathNotBoolean
  | MissingEventAssignment
  | TimeUnitsEvent
  | IncorrectOrderInEvent
  | ValuesFromTriggerTimeNeedDelay
  | DelayNeedsValuesFromTriggerTime
  | OneMathPerTrigger
  | OneMathPerDelay
  | InvalidEventAssignmentVariable
  | EventAssignmentForConstantEntity
  | OneMathPerEventAssignment
  | AllowedAttributesOnEventAssignment
  | OnlyOneDelayPerEvent
  | OneListOfEventAssignmentsPerEvent
  | OnlyEventAssignInListOfEventAssign
  | AllowedAttributesOnListOfEventAssign
  | AllowedAttributesOnEvent
  | AllowedAttributesOnTrigger
  | AllowedAttributesOnDelay
  | PersistentNotBoolean
  | InitialValueNotBoolean
  | OnlyOnePriorityPerEvent
  | OneMathPerPriority
  | AllowedAttributesOnPriority
  | GeneralWarningNotSpecified
  | CompartmentShouldHaveSize
  | SpeciesShouldHaveValue
  | ParameterShouldHaveUnits
  | LocalParameterShadowsId
  | LibSedAdditionalCodesLowerBound
  | CannotConvertToL1V1
  | NoEventsInL1
  | NoFunctionDefinitionsInL1
  | NoConstraintsInL1
  | NoInitialAssignmentsInL1
  | NoSpeciesTypesInL1
  | NoCompartmentTypeInL1
  | NoNon3DCompartmentsInL1
  | NoFancyStoichiometryMathInL1
  | NoNonIntegerStoichiometryInL1
  | NoUnitMultipliersOrOffsetsInL1
  | SpeciesCompartmentRequiredInL1
  | NoSpeciesSpatialSizeUnitsInL1
  | NoSBOTermsInL1
  | StrictUnitsRequiredInL1
  | ConversionFactorNotInL1
  | CompartmentNotOnL1Reaction
  | ExtentUnitsNotSubstance
  | GlobalUnitsNotDeclared
  | HasOnlySubstanceUnitsNotinL1
  | AvogadroNotSupported
  | NoConstraintsInL2v1
  | NoInitialAssignmentsInL2v1
  | NoSpeciesTypeInL2v1
  | NoCompartmentTypeInL2v1
  | NoSBOTermsInL2v1
  | NoIdOnSpeciesReferenceInL2v1
  | NoDelayedEventAssignmentInL2v1
  | StrictUnitsRequiredInL2v1
  | IntegerSpatialDimensions
  | StoichiometryMathNotYetSupported
  | PriorityLostFromL3
  | NonPersistentNotSupported
  | InitialValueFalseEventNotSupported
  | SBOTermNotUniversalInL2v2
  | NoUnitOffsetInL2v2
  | NoKineticLawTimeUnitsInL2v2
  | NoKineticLawSubstanceUnitsInL2v2
  | NoDelayedEventAssignmentInL2v2
  | ModelSBOBranchChangedBeyondL2v2
  | StrictUnitsRequiredInL2v2
  | StrictSBORequiredInL2v2
  | DuplicateAnnotationInvalidInL2v2
  | NoUnitOffsetInL2v3
  | NoKineticLawTimeUnitsInL2v3
  | NoKineticLawSubstanceUnitsInL2v3
  | NoSpeciesSpatialSizeUnitsInL2v3
  | NoEventTimeUnitsInL2v3
  | NoDelayedEventAssignmentInL2v3
  | ModelSBOBranchChangedBeyondL2v3
  | StrictUnitsRequiredInL2v3
  | StrictSBORequiredInL2v3
  | DuplicateAnnotationInvalidInL2v3
  | NoUnitOffsetInL2v4
  | NoKineticLawTimeUnitsInL2v4
  | NoKineticLawSubstanceUnitsInL2v4
  | NoSpeciesSpatialSizeUnitsInL2v4
  | NoEventTimeUnitsInL2v4
  | ModelSBOBranchChangedInL2v4
  | DuplicateAnnotationInvalidInL2v4
  | NoSpeciesTypeInL3v1
  | NoCompartmentTypeInL3v1
  | NoUnitOffsetInL3v1
  | NoKineticLawTimeUnitsInL3v1
  | NoKineticLawSubstanceUnitsInL3v1
  | NoSpeciesSpatialSizeUnitsInL3v1
  | NoEventTimeUnitsInL3v1
  | ModelSBOBranchChangedInL3v1
  | DuplicateAnnotationInvalidInL3v1
  | NoCompartmentOutsideInL3v1
  | NoStoichiometryMathInL3v1
  | InvalidSedLevelVersion
  | AnnotationNotesNotAllowedLevel1
  | InvalidRuleOrdering
  | RequiredPackagePresent
  | UnrequiredPackagePresent
  | PackageRequiredShouldBeFalse
  | SubsUnitsAllowedInKL
  | TimeUnitsAllowedInKL
  | FormulaInLevel1KL
  | L3SubstanceUnitsOnModel
  | TimeUnitsRemoved
  | BadMathML
  | FailedMathMLReadOfDouble
  | FailedMathMLReadOfInteger
  | FailedMathMLReadOfExponential
  | FailedMathMLReadOfRational
  | BadMathMLNodeType
  | NoTimeSymbolInFunctionDef
  | NoBodyInFunctionDef
  | DanglingUnitSIdRef
  | RDFMissingAboutTag
  | RDFEmptyAboutTag
  | RDFAboutTagNotMetaid
  | RDFNotCompleteModelHistory
  | RDFNotModelHistory
  | AnnotationNotElement
  | InconsistentArgUnitsWarnings
  | InconsistentPowerUnitsWarnings
  | InconsistentExponUnitsWarnings
  | UndeclaredUnits
  | UndeclaredTimeUnitsL3
  | UndeclaredExtentUnitsL3
  | UndeclaredObjectUnitsL3
  | UnrecognisedSBOTerm
  | ObseleteSBOTerm
  | IncorrectCompartmentSpatialDimensions
  | CompartmentTypeNotValidAttribute
  | ConstantNotValidAttribute
  | MetaIdNotValidAttribute
  | SBOTermNotValidAttributeBeforeL2V3
  | InvalidL1CompartmentUnits
  | L1V1CompartmentVolumeReqd
  | CompartmentTypeNotValidComponent
  | ConstraintNotValidComponent
  | EventNotValidComponent
  | SBOTermNotValidAttributeBeforeL2V2
  | FuncDefNotValidComponent
  | InitialAssignNotValidComponent
  | VariableNotValidAttribute
  | UnitsNotValidAttribute
  | ConstantSpeciesNotValidAttribute
  | SpatialSizeUnitsNotValidAttribute
  | SpeciesTypeNotValidAttribute
  | HasOnlySubsUnitsNotValidAttribute
  | IdNotValidAttribute
  | NameNotValidAttribute
  | SpeciesTypeNotValidComponent
  | StoichiometryMathNotValidComponent
  | MultiplierNotValidAttribute
  | OffsetNotValidAttribute
  | L3SpatialDimensionsUnset
  | UnknownCoreAttribute
  | UnknownPackageAttribute
  | PackageConversionNotSupported
  | InvalidTargetLevelVersion
  | L3NotSupported
  | SedCodesUpperBound.

Definition SedErrorCode_value (c : SedErrorCode_t) : Z :=
  match c with
  | UnknownError => 10000
  | NotUTF8 => 10101
  | UnrecognizedElement => 10102
  | NotSchemaConformant => 10103
  | L3NotSchemaConformant => 10104
  | InvalidMathElement => 10201
  | DisallowedMathMLSymbol => 10202
  | DisallowedMathMLEncodingUse => 10203
  | DisallowedDefinitionURLUse => 10204
  | BadCsymbolDefinitionURLValue => 10205
  | DisallowedMathTypeAttributeUse => 10206
  | DisallowedMathTypeAttributeValue => 10207
  | LambdaOnlyAllowedInFunctionDef => 10208
  | BooleanOpsNeedBooleanArgs => 10209
  | NumericOpsNeedNumericArgs => 10210
  | ArgsToEqNeedSameType => 10211
  | PiecewiseNeedsConsistentTypes => 10212
  | PieceNeedsBoolean => 10213
  | ApplyCiMustBeUserFunction => 10214
  | ApplyCiMustBeModelComponent => 10215
  | KineticLawParametersAreLocalOnly => 10216
  | MathResultMustBeNumeric => 10217
  | OpsNeedCorrectNumberOfArgs => 10218
  | InvalidNoArgsPassedToFunctionDef => 10219
  | DisallowedMathUnitsUse => 10220
  | InvalidUnitsValue => 10221
  | DuplicateComponentId => 10301
  | DuplicateUnitDefinitionId => 10302
  | DuplicateLocalParameterId => 10303
  | MultipleAssignmentOrRateRules => 10304
  | MultipleEventAssignmentsForId => 10305
  | EventAndAssignmentRuleForId => 10306
  | DuplicateMetaId => 10307
  | InvalidSBOTermSyntax => 10308
  | InvalidMetaidSyntax => 10309
  | InvalidIdSyntax => 10310
  | InvalidUnitIdSyntax => 10311
  | InvalidNameSyntax => 10312
  | MissingAnnotationNamespace => 10401
  | DuplicateAnnotationNamespaces => 10402
  | SedNamespaceInAnnotation => 10403
  | MultipleAnnotations => 10404
  | InconsistentArgUnits => 10501
  | InconsistentKineticLawUnitsL3 => 10503
  | AssignRuleCompartmentMismatch => 10511
  | AssignRuleSpeciesMismatch => 10512
  | AssignRuleParameterMismatch => 10513
  | AssignRuleStoichiometryMismatch => 10514
  | InitAssignCompartmenMismatch => 10521
  | InitAssignSpeciesMismatch => 10522
  | InitAssignParameterMismatch => 10523
  | InitAssignStoichiometryMismatch => 10524
  | RateRuleCompartmentMismatch => 10531
  | RateRuleSpeciesMismatch => 10532
  | RateRuleParameterMismatch => 10533
  | RateRuleStoichiometryMismatch => 10534
  | KineticLawNotSubstancePerTime => 10541
  | SpeciesInvalidExtentUnits => 10542
  | DelayUnitsNotTime => 10551
  | EventAssignCompartmentMismatch => 10561
  | EventAssignSpeciesMismatch => 10562
  | EventAssignParameterMismatch => 10563
  | EventAssignStoichiometryMismatch => 10564
  | PriorityUnitsNotDimensionless => 10565
  | UpperUnitBound => 10599
  | OverdeterminedSystem => 10601
  | InvalidModelSBOTerm => 10701
  | InvalidFunctionDefSBOTerm => 10702
  | InvalidParameterSBOTerm => 10703
  | InvalidInitAssignSBOTerm => 10704
  | InvalidRuleSBOTerm => 10705
  | InvalidConstraintSBOTerm => 10706
  | InvalidReactionSBOTerm => 10707
  | InvalidSpeciesReferenceSBOTerm => 10708
  | InvalidKineticLawSBOTerm => 10709
  | InvalidEventSBOTerm => 10710
  | InvalidEventAssignmentSBOTerm => 10711
  | InvalidCompartmentSBOTerm => 10712
  | InvalidSpeciesSBOTerm => 10713
  | InvalidCompartmentTypeSBOTerm => 10714
  | InvalidSpeciesTypeSBOTerm => 10715
  | InvalidTriggerSBOTerm => 10716
  | InvalidDelaySBOTerm => 10717
  | NotesNotInXHTMLNamespace => 10801
  | NotesContainsXMLDecl => 10802
  | NotesContainsDOCTYPE => 10803
  | InvalidNotesContent => 10804
  | OnlyOneNotesElementAllowed => 10805
  | InvalidNamespaceOnSed => 20101
  | MissingOrInconsistentLevel => 20102
  | MissingOrInconsistentVersion => 20103
  | PackageNSMustMatch => 20104
  | LevelPositiveInteger => 20105
  | VersionPositiveInteger => 20106
  | AllowedAttributesOnSed => 20108
  | L3PackageOnLowerSed => 20109
  | MissingModel => 20201
  | IncorrectOrderInModel => 20202
  | EmptyListElement => 20203
  | NeedCompartmentIfHaveSpecies => 20204
  | OneOfEachListOf => 20205
  | OnlyFuncDefsInListOfFuncDefs => 20206
  | OnlyUnitDefsInListOfUnitDefs => 20207
  | OnlyCompartmentsInListOfCompartments => 20208
  | OnlySpeciesInListOfSpecies => 20209
  | OnlyParametersInListOfParameters => 20210
  | OnlyInitAssignsInListOfInitAssigns => 20211
  | OnlyRulesInListOfRules => 20212
  | OnlyConstraintsInListOfConstraints => 20213
  | OnlyReactionsInListOfReactions => 20214
  | OnlyEventsInListOfEvents => 20215
  | L3ConversionFactorOnModel => 20216
  | L3TimeUnitsOnModel => 20217
  | L3VolumeUnitsOnModel => 20218
  | L3AreaUnitsOnModel => 20219
  | L3LengthUnitsOnModel => 20220
  | L3ExtentUnitsOnModel => 20221
  | AllowedAttributesOnModel => 20222
  | AllowedAttributesOnListOfFuncs => 20223
  | AllowedAttributesOnListOfUnitDefs => 20224
  | AllowedAttributesOnListOfComps => 20225
  | AllowedAttributesOnListOfSpecies => 20226
  | AllowedAttributesOnListOfParams => 20227
  | AllowedAttributesOnListOfInitAssign => 20228
  | AllowedAttributesOnListOfRules => 20229
  | AllowedAttributesOnListOfConstraints => 20230
  | AllowedAttributesOnListOfReactions => 20231
  | AllowedAttributesOnListOfEvents => 20232
  | FunctionDefMathNotLambda => 20301
  | InvalidApplyCiInLambda => 20302
  | RecursiveFunctionDefinition => 20303
  | InvalidCiInLambda => 20304
  | InvalidFunctionDefReturnType => 20305
  | OneMathElementPerFunc => 20306
  | AllowedAttributesOnFunc => 20307
  | InvalidUnitDefId => 20401
  | InvalidSubstanceRedefinition => 20402
  | InvalidLengthRedefinition => 20403
  | InvalidAreaRedefinition => 20404
  | InvalidTimeRedefinition => 20405
  | InvalidVolumeRedefinition => 20406
  | VolumeLitreDefExponentNotOne => 20407
  | VolumeMetreDefExponentNot3 => 20408
  | EmptyListOfUnits => 20409
  | InvalidUnitKind => 20410
  | OffsetNoLongerValid => 20411
  | CelsiusNoLongerValid => 20412
  | EmptyUnitListElement => 20413
  | OneListOfUnitsPerUnitDef => 20414
  | OnlyUnitsInListOfUnits => 20415
  | AllowedAttributesOnUnitDefinition => 20419
  | AllowedAttributesOnListOfUnits => 20420
  | AllowedAttributesOnUnit => 20421
  | ZeroDimensionalCompartmentSize => 20501
  | ZeroDimensionalCompartmentUnits => 20502
  | ZeroDimensionalCompartmentConst => 20503
  | UndefinedOutsideCompartment => 20504
  | RecursiveCompartmentContainment => 20505
  | ZeroDCompartmentContainment => 20506
  | Invalid1DCompartmentUnits => 20507
  | Invalid2DCompartmentUnits => 20508
  | Invalid3DCompartmentUnits => 20509
  | InvalidCompartmentTypeRef => 20510
  | OneDimensionalCompartmentUnits => 20511
  | TwoDimensionalCompartmentUnits => 20512
  | ThreeDimensionalCompartmentUnits => 20513
  | AllowedAttributesOnCompartment => 20517
  | NoUnitsOnCompartment => 20518
  | InvalidSpeciesCompartmentRef => 20601
  | HasOnlySubsNoSpatialUnits => 20602
  | NoSpatialUnitsInZeroD => 20603
  | NoConcentrationInZeroD => 20604
  | SpatialUnitsInOneD => 20605
  | SpatialUnitsInTwoD => 20606
  | SpatialUnitsInThreeD => 20607
  | InvalidSpeciesSusbstanceUnits => 20608
  | BothAmountAndConcentrationSet => 20609
  | NonBoundarySpeciesAssignedAndUsed => 20610
  | NonConstantSpeciesUsed => 20611
  | InvalidSpeciesTypeRef => 20612
  | MultSpeciesSameTypeInCompartment => 20613
  | MissingSpeciesCompartment => 20614
  | SpatialSizeUnitsRemoved => 20615
  | SubstanceUnitsOnSpecies => 20616
  | ConversionFactorOnSpecies => 20617
  | AllowedAttributesOnSpecies => 20623
  | InvalidParameterUnits => 20701
  | ParameterUnits => 20702
  | ConversionFactorMustConstant => 20705
  | AllowedAttributesOnParameter => 20706
  | InvalidInitAssignSymbol => 20801
  | MultipleInitAssignments => 20802
  | InitAssignmentAndRuleForSameId => 20803
  | OneMathElementPerInitialAssign => 20804
  | AllowedAttributesOnInitialAssign => 20805
  | InvalidAssignRuleVariable => 20901
  | InvalidRateRuleVariable => 20902
  | AssignmentToConstantEntity => 20903
  | RateRuleForConstantEntity => 20904
  | RepeatedRule10304 => 20905
  | CircularRuleDependency => 20906
  | OneMathElementPerRule => 20907
  | AllowedAttributesOnAssignRule => 20908
  | AllowedAttributesOnRateRule => 20909
  | AllowedAttributesOnAlgRule => 20910
  | ConstraintMathNotBoolean => 21001
  | IncorrectOrderInConstraint => 21002
  | ConstraintNotInXHTMLNamespace => 21003
  | ConstraintContainsXMLDecl => 21004
  | ConstraintContainsDOCTYPE => 21005
  | InvalidConstraintContent => 21006
  | OneMathElementPerConstraint => 21007
  | OneMessageElementPerConstraint => 21008
  | AllowedAttributesOnConstraint => 21009
  | NoReactantsOrProducts => 21101
  | IncorrectOrderInReaction => 21102
  | EmptyListInReaction => 21103
  | InvalidReactantsProductsList => 21104
  | InvalidModifiersList => 21105
  | OneSubElementPerReaction => 21106
  | CompartmentOnReaction => 21107
  | AllowedAttributesOnReaction => 21110
  | InvalidSpeciesReference => 21111
  | RepeatedRule20611 => 21112
  | BothStoichiometryAndMath => 21113
  | AllowedAttributesOnSpeciesReference => 21116
  | AllowedAttributesOnModifier => 21117
  | UndeclaredSpeciesRef => 21121
  | IncorrectOrderInKineticLaw => 21122
  | EmptyListInKineticLaw => 21123
  | NonConstantLocalParameter => 21124
  | SubsUnitsNoLongerValid => 21125
  | TimeUnitsNoLongerValid => 21126
  | OneListOfPerKineticLaw => 21127
  | OnlyLocalParamsInListOfLocalParams => 21128
  | AllowedAttributesOnListOfLocalParam => 21129
  | OneMathPerKineticLaw => 21130
  | UndeclaredSpeciesInStoichMath => 21131
  | AllowedAttributesOnKineticLaw => 21132
  | AllowedAttributesOnListOfSpeciesRef => 21150
  | AllowedAttributesOnListOfMods => 21151
  | AllowedAttributesOnLocalParameter => 21172
  | MissingTriggerInEvent => 21201
  | TriggerMathNotBoolean => 21202
  | MissingEventAssignment => 21203
  | TimeUnitsEvent => 21204
  | IncorrectOrderInEvent => 21205
  | ValuesFromTriggerTimeNeedDelay => 21206
  | DelayNeedsValuesFromTriggerTime => 21207
  | OneMathPerTrigger => 21209
  | OneMathPerDelay => 21210
  | InvalidEventAssignmentVariable => 21211
  | EventAssignmentForConstantEntity => 21212
  | OneMathPerEventAssignment => 21213
  | AllowedAttributesOnEventAssignment => 21214
  | OnlyOneDelayPerEvent => 21221
  | OneListOfEventAssignmentsPerEvent => 21222
  | OnlyEventAssignInListOfEventAssign => 21223
  | AllowedAttributesOnListOfEventAssign => 21224
  | AllowedAttributesOnEvent => 21225
  | AllowedAttributesOnTrigger => 21226
  | AllowedAttributesOnDelay => 21227
  | PersistentNotBoolean => 21228
  | InitialValueNotBoolean => 21229
  | OnlyOnePriorityPerEvent => 21230
  | OneMathPerPriority => 21231
  | AllowedAttributesOnPriority => 21232
  | GeneralWarningNotSpecified => 29999
  | CompartmentShouldHaveSize => 80501
  | SpeciesShouldHaveValue => 80601
  | ParameterShouldHaveUnits => 80701
  | LocalParameterShadowsId => 81121
  | LibSedAdditionalCodesLowerBound => 90000
  | CannotConvertToL1V1 => 90001
  | NoEventsInL1 => 91001
  | NoFunctionDefinitionsInL1 => 91002
  | NoConstraintsInL1 => 91003
  | NoInitialAssignmentsInL1 => 91004
  | NoSpeciesTypesInL1 => 91005
  | NoCompartmentTypeInL1 => 91006
  | NoNon3DCompartmentsInL1 => 91007
  | NoFancyStoichiometryMathInL1 => 91008
  | NoNonIntegerStoichiometryInL1 => 91009
  | NoUnitMultipliersOrOffsetsInL1 => 91010
  | SpeciesCompartmentRequiredInL1 => 91011
  | NoSpeciesSpatialSizeUnitsInL1 => 91012
  | NoSBOTermsInL1 => 91013
  | StrictUnitsRequiredInL1 => 91014
  | ConversionFactorNotInL1 => 91015
  | CompartmentNotOnL1Reaction => 91016
  | ExtentUnitsNotSubstance => 91017
  | GlobalUnitsNotDeclared => 91018
  | HasOnlySubstanceUnitsNotinL1 => 91019
  | AvogadroNotSupported => 91020
  | NoConstraintsInL2v1 => 92001
  | NoInitialAssignmentsInL2v1 => 92002
  | NoSpeciesTypeInL2v1 => 92003
  | NoCompartmentTypeInL2v1 => 92004
  | NoSBOTermsInL2v1 => 92005
  | NoIdOnSpeciesReferenceInL2v1 => 92006
  | NoDelayedEventAssignmentInL2v1 => 92007
  | StrictUnitsRequiredInL2v1 => 92008
  | IntegerSpatialDimensions => 92009
  | StoichiometryMathNotYetSupported => 92010
  | PriorityLostFromL3 => 92011
  | NonPersistentNotSupported => 92012
  | InitialValueFalseEventNotSupported => 92013
  | SBOTermNotUniversalInL2v2 => 93001
  | NoUnitOffsetInL2v2 => 93002
  | NoKineticLawTimeUnitsInL2v2 => 93003
  | NoKineticLawSubstanceUnitsInL2v2 => 93004
  | NoDelayedEventAssignmentInL2v2 => 93005
  | ModelSBOBranchChangedBeyondL2v2 => 93006
  | StrictUnitsRequiredInL2v2 => 93007
  | StrictSBORequiredInL2v2 => 93008
  | DuplicateAnnotationInvalidInL2v2 => 93009
  | NoUnitOffsetInL2v3 => 94001
  | NoKineticLawTimeUnitsInL2v3 => 94002
  | NoKineticLawSubstanceUnitsInL2v3 => 94003
  | NoSpeciesSpatialSizeUnitsInL2v3 => 94004
  | NoEventTimeUnitsInL2v3 => 94005
  | NoDelayedEventAssignmentInL2v3 => 94006
  | ModelSBOBranchChangedBeyondL2v3 => 94007
  | StrictUnitsRequiredInL2v3 => 94008
  | StrictSBORequiredInL2v3 => 94009
  | DuplicateAnnotationInvalidInL2v3 => 94010
  | NoUnitOffsetInL2v4 => 95001
  | NoKineticLawTimeUnitsInL2v4 => 95002
  | NoKineticLawSubstanceUnitsInL2v4 => 95003
  | NoSpeciesSpatialSizeUnitsInL2v4 => 95004
  | NoEventTimeUnitsInL2v4 => 95005
  | ModelSBOBranchChangedInL2v4 => 95006
  | DuplicateAnnotationInvalidInL2v4 => 95007
  | NoSpeciesTypeInL3v1 => 96001
  | NoCompartmentTypeInL3v1 => 96002
  | NoUnitOffsetInL3v1 => 96003
  | NoKineticLawTimeUnitsInL3v1 => 96004
  | NoKineticLawSubstanceUnitsInL3v1 => 96005
  | NoSpeciesSpatialSizeUnitsInL3v1 => 96006
  | NoEventTimeUnitsInL3v1 => 96007
  | ModelSBOBranchChangedInL3v1 => 96008
  | DuplicateAnnotationInvalidInL3v1 => 96009
  | NoCompartmentOutsideInL3v1 => 96010
  | NoStoichiometryMathInL3v1 => 96011
  | InvalidSedLevelVersion => 99101
  | AnnotationNotesNotAllowedLevel1 => 99104
  | InvalidRuleOrdering => 99106
  | RequiredPackagePresent => 99107
  | UnrequiredPackagePresent => 99108
  | PackageRequiredShouldBeFalse => 99109
  | SubsUnitsAllowedInKL => 99127
  | TimeUnitsAllowedInKL => 99128
  | FormulaInLevel1KL => 99129
  | L3SubstanceUnitsOnModel => 99130
  | TimeUnitsRemoved => 99206
  | BadMathML => 99219
  | FailedMathMLReadOfDouble => 99220
  | FailedMathMLReadOfInteger => 99221
  | FailedMathMLReadOfExponential => 99222
  | FailedMathMLReadOfRational => 99223
  | BadMathMLNodeType => 99224
  | NoTimeSymbolInFunctionDef => 99301
  | NoBodyInFunctionDef => 99302
  | DanglingUnitSIdRef => 99303
  | RDFMissingAboutTag => 99401
  | RDFEmptyAboutTag => 99402
  | RDFAboutTagNotMetaid => 99403
  | RDFNotCompleteModelHistory => 99404
  | RDFNotModelHistory => 99405
  | AnnotationNotElement => 99406
  | InconsistentArgUnitsWarnings => 99502
  | InconsistentPowerUnitsWarnings => 99503
  | InconsistentExponUnitsWarnings => 99504
  | UndeclaredUnits => 99505
  | UndeclaredTimeUnitsL3 => 99506
  | UndeclaredExtentUnitsL3 => 99507
  | UndeclaredObjectUnitsL3 => 99508
  | UnrecognisedSBOTerm => 99701
  | ObseleteSBOTerm => 99702
  | IncorrectCompartmentSpatialDimensions => 99901
  | CompartmentTypeNotValidAttribute => 99902
  | ConstantNotValidAttribute => 99903
  | MetaIdNotValidAttribute => 99904
  | SBOTermNotValidAttributeBeforeL2V3 => 99905
  | InvalidL1CompartmentUnits => 99906
  | L1V1CompartmentVolumeReqd => 99907
  | CompartmentTypeNotValidComponent => 99908
  | ConstraintNotValidComponent => 99909
  | EventNotValidComponent => 99910
  | SBOTermNotValidAttributeBeforeL2V2 => 99911
  | FuncDefNotValidComponent => 99912
  | InitialAssignNotValidComponent => 99913
  | VariableNotValidAttribute => 99914
  | UnitsNotValidAttribute => 99915
  | ConstantSpeciesNotValidAttribute => 99916
  | SpatialSizeUnitsNotValidAttribute => 99917
  | SpeciesTypeNotValidAttribute => 99918
  | HasOnlySubsUnitsNotValidAttribute => 99919
  | IdNotValidAttribute => 99920
  | NameNotValidAttribute => 99921
  | SpeciesTypeNotValidComponent => 99922
  | StoichiometryMathNotValidComponent => 99923
  | MultiplierNotValidAttribute => 99924
  | OffsetNotValidAttribute => 99925
  | L3SpatialDimensionsUnset => 99926
  | UnknownCoreAttribute => 99994
  | UnknownPackageAttribute => 99995
  | PackageConversionNotSupported => 99996
  | InvalidTargetLevelVersion => 99997
  | L3NotSupported => 99998
  | SedCodesUpperBound => 99999
  end.

Definition SedErrorCode_all : list SedErrorCode_t :=
  [UnknownError; NotUTF8; UnrecognizedElement; NotSchemaConformant;
   L3NotSchemaConformant; InvalidMathElement; DisallowedMathMLSymbol;
   DisallowedMathMLEncodingUse; DisallowedDefinitionURLUse;
   BadCsymbolDefinitionURLValue; DisallowedMathTypeAttributeUse;
   DisallowedMathTypeAttributeValue; LambdaOnlyAllowedInFunctionDef;
   BooleanOpsNeedBooleanArgs; NumericOpsNeedNumericArgs;
   ArgsToEqNeedSameType; PiecewiseNeedsConsistentTypes; PieceNeedsBoolean;
   ApplyCiMustBeUserFunction; ApplyCiMustBeModelComponent;
   KineticLawParametersAreLocalOnly; MathResultMustBeNumeric;
   OpsNeedCorrectNumberOfArgs; InvalidNoArgsPassedToFunctionDef;
   DisallowedMathUnitsUse; InvalidUnitsValue; DuplicateComponentId;
   DuplicateUnitDefinitionId; DuplicateLocalParameterId;
   MultipleAssignmentOrRateRules; MultipleEventAssignmentsForId;
   EventAndAssignmentRuleForId; DuplicateMetaId; InvalidSBOTermSyntax;
   InvalidMetaidSyntax; InvalidIdSyntax; InvalidUnitIdSyntax;
   InvalidNameSyntax; MissingAnnotationNamespace;
   DuplicateAnnotationNamespaces; SedNamespaceInAnnotation;
   MultipleAnnotations; InconsistentArgUnits; InconsistentKineticLawUnitsL3;
   AssignRuleCompartmentMismatch; AssignRuleSpeciesMismatch;
   AssignRuleParameterMismatch; AssignRuleStoichiometryMismatch;
   InitAssignCompartmenMismatch; InitAssignSpeciesMismatch;
   InitAssignParameterMismatch; InitAssignStoichiometryMismatch;
   RateRuleCompartmentMismatch; RateRuleSpeciesMismatch;
   RateRuleParameterMismatch; RateRuleStoichiometryMismatch;
   KineticLawNotSubstancePerTime; SpeciesInvalidExtentUnits;
   DelayUnitsNotTime; EventAssignCompartmentMismatch;
   EventAssignSpeciesMismatch; EventAssignParameterMismatch;
   EventAssignStoichiometryMismatch; PriorityUnitsNotDimensionless;
   UpperUnitBound; OverdeterminedSystem; InvalidModelSBOTerm;
   InvalidFunctionDefSBOTerm; InvalidParameterSBOTerm;
   InvalidInitAssignSBOTerm; InvalidRuleSBOTerm; InvalidConstraintSBOTerm;
   InvalidReactionSBOTerm; InvalidSpeciesReferenceSBOTerm;
   InvalidKineticLawSBOTerm; InvalidEventSBOTerm;
   InvalidEventAssignmentSBOTerm; InvalidCompartmentSBOTerm;
   InvalidSpeciesSBOTerm; InvalidCompartmentTypeSBOTerm;
   InvalidSpeciesTypeSBOTerm; InvalidTriggerSBOTerm; InvalidDelaySBOTerm;
   NotesNotInXHTMLNamespace; NotesContainsXMLDecl; NotesContainsDOCTYPE;
   InvalidNotesContent; OnlyOneNotesElementAllowed; InvalidNamespaceOnSed;
   MissingOrInconsistentLevel; MissingOrInconsistentVersion;
   PackageNSMustMatch; LevelPositiveInteger; VersionPositiveInteger;
   AllowedAttributesOnSed; L3PackageOnLowerSed; MissingModel;
   IncorrectOrderInModel; EmptyListElement; NeedCompartmentIfHaveSpecies;
   OneOfEachListOf; OnlyFuncDefsInListOfFuncDefs;
   OnlyUnitDefsInListOfUnitDefs; OnlyCompartmentsInListOfCompartments;
   OnlySpeciesInListOfSpecies; OnlyParametersInListOfParameters;
   OnlyInitAssignsInListOfInitAssigns; OnlyRulesInListOfRules;
   OnlyConstraintsInListOfConstraints; OnlyReactionsInListOfReactions;
   OnlyEventsInListOfEvents; L3ConversionFactorOnModel; L3TimeUnitsOnModel;
   L3VolumeUnitsOnModel; L3AreaUnitsOnModel; L3LengthUnitsOnModel;
   L3ExtentUnitsOnModel; AllowedAttributesOnModel;
   AllowedAttributesOnListOfFuncs; AllowedAttributesOnListOfUnitDefs;
   AllowedAttributesOnListOfComps; AllowedAttributesOnListOfSpecies;
   AllowedAttributesOnListOfParams; AllowedAttributesOnListOfInitAssign;
   AllowedAttributesOnListOfRules; AllowedAttributesOnListOfConstraints;
   AllowedAttributesOnListOfReactions; AllowedAttributesOnListOfEvents;
   FunctionDefMathNotLambda; InvalidApplyCiInLambda;
   RecursiveFunctionDefinition; InvalidCiInLambda;
   InvalidFunctionDefReturnType; OneMathElementPerFunc;
   AllowedAttributesOnFunc; InvalidUnitDefId; InvalidSubstanceRedefinition;
   InvalidLengthRedefinition; InvalidAreaRedefinition;
   InvalidTimeRedefinition; InvalidVolumeRedefinition;
   VolumeLitreDefExponentNotOne; VolumeMetreDefExponentNot3;
   EmptyListOfUnits; InvalidUnitKind; OffsetNoLongerValid;
   CelsiusNoLongerValid; EmptyUnitListElement; OneListOfUnitsPerUnitDef;
   OnlyUnitsInListOfUnits; AllowedAttributesOnUnitDefinition;
   AllowedAttributesOnListOfUnits; AllowedAttributesOnUnit;
   ZeroDimensionalCompartmentSize; ZeroDimensionalCompartmentUnits;
   ZeroDimensionalCompartmentConst; UndefinedOutsideCompartment;
   RecursiveCompartmentContainment; ZeroDCompartmentContainment;
   Invalid1DCompartmentUnits; Invalid2DCompartmentUnits;
   Invalid3DCompartmentUnits; InvalidCompartmentTypeRef;
   OneDimensionalCompartmentUnits; TwoDimensionalCompartmentUnits;
   ThreeDimensionalCompartmentUnits; AllowedAttributesOnCompartment;
   NoUnitsOnCompartment; InvalidSpeciesCompartmentRef;
   HasOnlySubsNoSpatialUnits; NoSpatialUnitsInZeroD; NoConcentrationInZeroD;
   SpatialUnitsInOneD; SpatialUnitsInTwoD; SpatialUnitsInThreeD;
   InvalidSpeciesSusbstanceUnits; BothAmountAndConcentrationSet;
   NonBoundarySpeciesAssignedAndUsed; NonConstantSpeciesUsed;
   InvalidSpeciesTypeRef; MultSpeciesSameTypeInCompartment;
   MissingSpeciesCompartment; SpatialSizeUnitsRemoved;
   SubstanceUnitsOnSpecies; ConversionFactorOnSpecies;
   AllowedAttributesOnSpecies; InvalidParameterUnits; ParameterUnits;
   ConversionFactorMustConstant; AllowedAttributesOnParameter;
   InvalidInitAssignSymbol; MultipleInitAssignments;
   InitAssignmentAndRuleForSameId; OneMathElementPerInitialAssign;
   AllowedAttributesOnInitialAssign; InvalidAssignRuleVariable;
   InvalidRateRuleVariable; AssignmentToConstantEntity;
   RateRuleForConstantEntity; RepeatedRule10304; CircularRuleDependency;
   OneMathElementPerRule; AllowedAttributesOnAssignRule;
   AllowedAttributesOnRateRule; AllowedAttributesOnAlgRule;
   ConstraintMathNotBoolean; IncorrectOrderInConstraint;
   ConstraintNotInXHTMLNamespace; ConstraintContainsXMLDecl;
   ConstraintContainsDOCTYPE; InvalidConstraintContent;
   OneMathElementPerConstraint; OneMessageElementPerConstraint;
   AllowedAttributesOnConstraint; NoReactantsOrProducts;
   IncorrectOrderInReaction; EmptyListInReaction;
   InvalidReactantsProductsList; InvalidModifiersList;
   OneSubElementPerReaction; CompartmentOnReaction;
   AllowedAttributesOnReaction; InvalidSpeciesReference; RepeatedRule20611;
   BothStoichiometryAndMath; AllowedAttributesOnSpeciesReference;
   AllowedAttributesOnModifier; UndeclaredSpeciesRef;
   IncorrectOrderInKineticLaw; EmptyListInKineticLaw;
   NonConstantLocalParameter; SubsUnitsNoLongerValid; TimeUnitsNoLongerValid;
   OneListOfPerKineticLaw; OnlyLocalParamsInListOfLocalParams;
   AllowedAttributesOnListOfLocalParam; OneMathPerKineticLaw;
   UndeclaredSpeciesInStoichMath; AllowedAttributesOnKineticLaw;
   AllowedAttributesOnListOfSpeciesRef; AllowedAttributesOnListOfMods;
   AllowedAttributesOnLocalParameter; MissingTriggerInEvent;
   TriggerMathNotBoolean; MissingEventAssignment; TimeUnitsEvent;
   IncorrectOrderInEvent; ValuesFromTriggerTimeNeedDelay;
   DelayNeedsValuesFromTriggerTime; OneMathPerTrigger; OneMathPerDelay;
   InvalidEventAssignmentVariable; EventAssignmentForConstantEntity;
   OneMathPerEventAssignment; AllowedAttributesOnEventAssignment;
   OnlyOneDelayPerEvent; OneListOfEventAssignmentsPerEvent;
   OnlyEventAssignInListOfEventAssign; AllowedAttributesOnListOfEventAssign;
   AllowedAttributesOnEvent; AllowedAttributesOnTrigger;
   AllowedAttributesOnDelay; PersistentNotBoolean; InitialValueNotBoolean;
   OnlyOnePriorityPerEvent; OneMathPerPriority; AllowedAttributesOnPriority;
   GeneralWarningNotSpecified; CompartmentShouldHaveSize;
   SpeciesShouldHaveValue; ParameterShouldHaveUnits; LocalParameterShadowsId;
   LibSedAdditionalCodesLowerBound; CannotConvertToL1V1; NoEventsInL1;
   NoFunctionDefinitionsInL1; NoConstraintsInL1; NoInitialAssignmentsInL1;
   NoSpeciesTypesInL1; NoCompartmentTypeInL1; NoNon3DCompartmentsInL1;
   NoFancyStoichiometryMathInL1; NoNonIntegerStoichiometryInL1;
   NoUnitMultipliersOrOffsetsInL1; SpeciesCompartmentRequiredInL1;
   NoSpeciesSpatialSizeUnitsInL1; NoSBOTermsInL1; StrictUnitsRequiredInL1;
   ConversionFactorNotInL1; CompartmentNotOnL1Reaction;
   ExtentUnitsNotSubstance; GlobalUnitsNotDeclared;
   HasOnlySubstanceUnitsNotinL1; AvogadroNotSupported; NoConstraintsInL2v1;
   NoInitialAssignmentsInL2v1; NoSpeciesTypeInL2v1; NoCompartmentTypeInL2v1;
   NoSBOTermsInL2v1; NoIdOnSpeciesReferenceInL2v1;
   NoDelayedEventAssignmentInL2v1; StrictUnitsRequiredInL2v1;
   IntegerSpatialDimensions; StoichiometryMathNotYetSupported;
   PriorityLostFromL3; NonPersistentNotSupported;
   InitialValueFalseEventNotSupported; SBOTermNotUniversalInL2v2;
   NoUnitOffsetInL2v2; NoKineticLawTimeUnitsInL2v2;
   NoKineticLawSubstanceUnitsInL2v2; NoDelayedEventAssignmentInL2v2;
   ModelSBOBranchChangedBeyondL2v2; StrictUnitsRequiredInL2v2;
   StrictSBORequiredInL2v2; DuplicateAnnotationInvalidInL2v2;
   NoUnitOffsetInL2v3; NoKineticLawTimeUnitsInL2v3;
   NoKineticLawSubstanceUnitsInL2v3; NoSpeciesSpatialSizeUnitsInL2v3;
   NoEventTimeUnitsInL2v3; NoDelayedEventAssignmentInL2v3;
   ModelSBOBranchChangedBeyondL2v3; StrictUnitsRequiredInL2v3;
   StrictSBORequiredInL2v3; DuplicateAnnotationInvalidInL2v3;
   NoUnitOffsetInL2v4; NoKineticLawTimeUnitsInL2v4;
   NoKineticLawSubstanceUnitsInL2v4; NoSpeciesSpatialSizeUnitsInL2v4;
   NoEventTimeUnitsInL2v4; ModelSBOBranchChangedInL2v4;
   DuplicateAnnotationInvalidInL2v4; NoSpeciesTypeInL3v1;
   NoCompartmentTypeInL3v1; NoUnitOffsetInL3v1; NoKineticLawTimeUnitsInL3v1;
   NoKineticLawSubstanceUnitsInL3v1; NoSpeciesSpatialSizeUnitsInL3v1;
   NoEventTimeUnitsInL3v1; ModelSBOBranchChangedInL3v1;
   DuplicateAnnotationInvalidInL3v1; NoCompartmentOutsideInL3v1;
   NoStoichiometryMathInL3v1; InvalidSedLevelVersion;
   AnnotationNotesNotAllowedLevel1; InvalidRuleOrdering;
   RequiredPackagePresent; UnrequiredPackagePresent;
   PackageRequiredShouldBeFalse; SubsUnitsAllowedInKL; TimeUnitsAllowedInKL;
   FormulaInLevel1KL; L3SubstanceUnitsOnModel; TimeUnitsRemoved; BadMathML;
   FailedMathMLReadOfDouble; FailedMathMLReadOfInteger;
   FailedMathMLReadOfExponential; FailedMathMLReadOfRational;
   BadMathMLNodeType; NoTimeSymbolInFunctionDef; NoBodyInFunctionDef;
   DanglingUnitSIdRef; RDFMissingAboutTag; RDFEmptyAboutTag;
   RDFAboutTagNotMetaid; RDFNotCompleteModelHistory; RDFNotModelHistory;
   AnnotationNotElement; InconsistentArgUnitsWarnings;
   InconsistentPowerUnitsWarnings; InconsistentExponUnitsWarnings;
   UndeclaredUnits; UndeclaredTimeUnitsL3; UndeclaredExtentUnitsL3;
   UndeclaredObjectUnitsL3; UnrecognisedSBOTerm; ObseleteSBOTerm;
   IncorrectCompartmentSpatialDimensions; CompartmentTypeNotValidAttribute;
   ConstantNotValidAttribute; MetaIdNotValidAttribute;
   SBOTermNotValidAttributeBeforeL2V3; InvalidL1CompartmentUnits;
   L1V1CompartmentVolumeReqd; CompartmentTypeNotValidComponent;
   ConstraintNotValidComponent; EventNotValidComponent;
   SBOTermNotValidAttributeBeforeL2V2; FuncDefNotValidComponent;
   InitialAssignNotValidComponent; VariableNotValidAttribute;
   UnitsNotValidAttribute; ConstantSpeciesNotValidAttribute;
   SpatialSizeUnitsNotValidAttribute; SpeciesTypeNotValidAttribute;
   HasOnlySubsUnitsNotValidAttribute; IdNotValidAttribute;
   NameNotValidAttribute; SpeciesTypeNotValidComponent;
   StoichiometryMathNotValidComponent; MultiplierNotValidAttribute;
   OffsetNotValidAttribute; L3SpatialDimensionsUnset; UnknownCoreAttribute;
   UnknownPackageAttribute; PackageConversionNotSupported;
   InvalidTargetLevelVersion; L3NotSupported; SedCodesUpperBound].

(** Position of an enumerator in declaration order. *)
Fixpoint index_of (c : SedErrorCode_t) (l : list SedErrorCode_t) (i : nat) : nat :=
  match l with
  | [] => i
  | d :: l' =>
      if (SedErrorCode_value d =? SedErrorCode_value c)%Z then i
      else index_of c l' (S i)
  end.

Definition declared_at (c : SedErrorCode_t) : nat := index_of c SedErrorCode_all 0.

Fixpoint strictly_increasing (l : list Z) : bool :=
  match l with
  | x :: ((y :: _) as l') => (x <? y)%Z && strictly_increasing l'
  | _ => true
  end.

End SedError.

(** ** Addresses, exceptions and the store monad *)

Definition addr := positive.

(** The exceptions that occur: [SedConstructorException] is the only one
    raised in the two translation units; [std_logic_error] is raised by the
    C++ library when a [std::string] is built from a null C string. *)
Inductive exn : Type :=
  | SedConstructorException (what : string)
  | std_logic_error.

Section Monad.
Context {heap : Type}.

(** Result of running a method: normal return, a C++ exception, or
    undefined behaviour (dereferencing a pointer that does not point to a
    live object of the expected class). *)
Inductive outcome (A : Type) : Type :=
  | Done (a : A) (h : heap)
  | Thrown (e : exn) (h : heap)
  | Fault.

Definition M (A : Type) : Type := heap → outcome A.

Definition ret {A} (a : A) : M A := λ h, Done A a h.

Definition bind {A B} (m : M A) (k : A → M B) : M B :=
  λ h, match m h with
       | Done _ a h' => k a h'
       | Thrown _ e h' => Thrown B e h'
       | Fault _ => Fault B
       end.

Definition throw {A} (e : exn) : M A := λ h, Thrown A e h.

Definition fault {A} : M A := λ _, Fault A.
End Monad.

Arguments outcome : clear implicits.
Arguments M : clear implicits.
Arguments Done {heap A} a h.
Arguments Thrown {heap A} e h.
Arguments Fault {heap A}.

Global Instance M_ret {heap} : MRet (M heap) := λ A, @ret heap A.
Global Instance M_bind {heap} : MBind (M heap) := λ A B k m, @bind heap A B m k.

(** ** Collaborators that are not part of the two translation units *)

(** libSBML: the MathML tree, the XML tokens and the XML input stream.
    [readMathML] returns a newly built tree (or nothing) and the remaining
    stream; [LIBSBML_INVALID_OBJECT] is libSBML's own return code, which
    the [add] wrappers of the C API use. *)
Class LibSBML : Type := {
  ASTNode : Type;
  isWellFormedASTNode : ASTNode → bool;
  XMLToken : Type;
  getName : XMLToken → string;
  XMLInputStream : Type;
  peek : XMLInputStream → XMLToken;
  readMathML : XMLInputStream → string → option ASTNode * XMLInputStream;
  LIBSBML_INVALID_OBJECT : Z
}.

(** [sedml/common]: the operation return codes and the implementation of
    [SedNamespaces] (only its declaration, [SedNamespaces.h], is at hand). *)
Class SedCommon : Type := {
  LIBSEDML_OPERATION_SUCCESS : Z;
  LIBSEDML_INVALID_ATTRIBUTE_VALUE : Z;
  LIBSEDML_INVALID_OBJECT : Z;
  SedNamespaces : Type;
  SedNamespaces_new : Z → Z → SedNamespaces;
  getURI : SedNamespaces → string
}.

(** The direct superclass of a concrete element ([SedChange] for
    [SedComputeChange], [SedOutput] for [SedPlot2D]); [B] is the state of the
    superclass sub-object. *)
Class SuperClass `{LibSBML, SedCommon} (B : Type) : Type := {
  super_new : Z → Z → B;
  super_new_ns : SedNamespaces → B;
  setSedNamespacesAndOwn : SedNamespaces → B → B;
  setElementNamespace : string → B → B;
  super_hasRequiredAttributes : B → bool;
  super_hasRequiredElements : B → bool;
  super_connectToChild : B → B;
  checkMathMLNamespace : B → XMLToken → string * B;
  super_readOtherXML : B → XMLInputStream → bool * B * XMLInputStream
}.



(** ** Child elements and the ordered child collection *)

Inductive ItemKind : Set := KVariable | KParameter | KCurve.

Global Instance ItemKind_eq_dec : EqDecision ItemKind.
Proof. solve_decision. Defined.

(** Modelled from the spec: a child element ([SedVariable], [SedParameter],
    [SedCurve]; their sources are missing) is an element node carrying an
    identifier/name pair. *)
Record SedItem : Set := { mId : string; mName : string }.

(** A default-constructed child element. *)
Definition SedItem_default : SedItem := {| mId := EmptyString; mName := EmptyString |}.

(** Modelled from the spec: [SedListOf] (its source is missing) is an
    insertion-ordered sequence of owned elements together with a non-owning
    link back to the owning node. *)
Record SedListOf : Set := {
  mItems : list addr;
  mParentSedObject : option addr
}.

(** Address of a collection that is a member of another object, as handed
    out by [getListOf...]. *)
Inductive member_ref : Set :=
  | RefVariable (owner : addr)
  | RefParameter (owner : addr)
  | RefCurve (owner : addr).

(** [&x] for a reference [x]: the address of the object [x] is bound to,
    which is never the null pointer. *)
Definition address_of (a : addr) : option addr := Some a.

Section Embedding.
Context `{LibSBML, SedCommon}.
Context {SedChange SedOutput : Type}.
Context `{!SuperClass SedChange, !SuperClass SedOutput}.

(** *** Objects and the store *)

Record SedComputeChange : Type := {
  cc_super : SedChange;
  mVariable : SedListOf;
  mParameter : SedListOf;
  mMath : option addr
}.

Record SedPlot2D : Type := {
  pd_super : SedOutput;
  mCurve : SedListOf
}.

Inductive cell : Type :=
  | CItem (k : ItemKind) (e : SedItem)
  | CMath (m : ASTNode)
  | CComputeChange (c : SedComputeChange)
  | CPlot2D (p : SedPlot2D).

(** The store: the live objects by address. *)
Local Abbreviation heap := (gmap addr cell).

(** [new]: the object is placed at an address that is not in use. *)
Definition alloc (c : cell) : M heap addr :=
  λ h, let a := fresh (dom h) in Done a (<[a := c]> h).

(** [delete p]: nothing for a null pointer, undefined for a pointer that
    is not live. *)
Definition delete_ptr (p : option addr) : M heap unit :=
  λ h, match p with
       | None => Done tt h
       | Some a =>
           match h !! a with
           | Some _ => Done tt (delete a h)
           | None => Fault
           end
       end.

Definition load_item (k : ItemKind) (a : addr) : M heap SedItem :=
  λ h, match h !! a with
       | Some (CItem k' e) => if decide (k' = k) then Done e h else Fault
       | _ => Fault
       end.

Definition load_math (a : addr) : M heap ASTNode :=
  λ h, match h !! a with
       | Some (CMath m) => Done m h
       | _ => Fault
       end.

(** [ASTNode::deepCopy]: a new tree equal to the one pointed to. *)
Definition deepCopy (a : addr) : M heap addr :=
  m ← load_math a; alloc (CMath m).

(** *** Ordered child collection (Modelled from the spec, section 4.1) *)

(** Modelled from the spec: a collection is constructed empty, from its
    owner's (level, version) or namespace bundle, or by default. *)
Definition SedListOf_new : SedListOf :=
  {| mItems := []; mParentSedObject := None |}.

(** Modelled from the spec: [size()] is the current count. *)
Definition size (l : SedListOf) : nat := length (mItems l).

(** Modelled from the spec: [get(index)] returns the stored element, or a
    null result if the index is out of range. *)
Definition get (l : SedListOf) (n : nat) : option addr := mItems l !! n.

(** Modelled from the spec: [connectToParent(owner)] records the link back
    to the owning node. *)
Definition connectToParent (l : SedListOf) (parent : addr) : SedListOf :=
  {| mItems := mItems l; mParentSedObject := Some parent |}.

(** Modelled from the spec: [clone()] of a child element returns a new,
    independently owned copy of it. *)
Definition clone_item (k : ItemKind) (a : addr) : M heap addr :=
  e ← load_item k a; alloc (CItem k e).

(** Modelled from the spec: [appendAndOwn(item)] stores the given element
    itself at the end; same success/failure contract as [append]. *)
Definition appendAndOwn (l : SedListOf) (item : option addr) : Z * SedListOf :=
  match item with
  | None => (LIBSEDML_INVALID_ATTRIBUTE_VALUE, l)
  | Some a =>
      (LIBSEDML_OPERATION_SUCCESS,
       {| mItems := mItems l ++ [a]; mParentSedObject := mParentSedObject l |})
  end.

(** Modelled from the spec: [append(item)] copies the given element and
    stores the copy at the end; it fails with InvalidAttributeValue if the
    argument is null. *)
Definition append (k : ItemKind) (l : SedListOf) (item : option addr)
  : M heap (Z * SedListOf) :=
  match item with
  | None => ret (LIBSEDML_INVALID_ATTRIBUTE_VALUE, l)
  | Some a => p ← clone_item k a; ret (appendAndOwn l (Some p))
  end.

(** Modelled from the spec: the deep copy of the contents of a collection,
    element by element, in order. *)
Fixpoint clone_items (k : ItemKind) (items : list addr) : M heap (list addr) :=
  match items with
  | [] => ret []
  | a :: rest =>
      p ← clone_item k a;
      ps ← clone_items k rest;
      ret (p :: ps)
  end.

(** Modelled from the spec: destruction cascades to the owned elements. *)
Fixpoint delete_items (items : list addr) : M heap unit :=
  match items with
  | [] => ret tt
  | a :: rest => delete_ptr (Some a) ;; delete_items rest
  end.

(** Modelled from the spec: assignment of collections destroys the
    elements held so far and deep-copies those of the source; the parent
    link is copied as it is, so it is stale until the owner calls
    [connectToChild]. *)
Definition SedListOf_assign (k : ItemKind) (lhs rhs : SedListOf)
  : M heap SedListOf :=
  delete_items (mItems lhs) ;;
  ps ← clone_items k (mItems rhs);
  ret {| mItems := ps; mParentSedObject := mParentSedObject rhs |}.

(** Modelled from the spec: identifier lookup is a linear scan; the result
    is the first element whose identifier is [sid], with its position. *)
Fixpoint find_id (k : ItemKind) (sid : string) (items : list addr) (i : nat)
  : M heap (option (nat * addr)) :=
  match items with
  | [] => ret None
  | a :: rest =>
      e ← load_item k a;
      if decide (mId e = sid) then ret (Some (i, a))
      else find_id k sid rest (S i)
  end.

(** Modelled from the spec: [get(identifier)] is a linear scan returning
    the first match, or a null result. *)
Definition get_id (k : ItemKind) (l : SedListOf) (sid : string)
  : M heap (option addr) :=
  r ← find_id k sid (mItems l) 0; ret (snd <$> r).

(** Modelled from the spec: [remove(index)] detaches the element and hands
    it to the caller; a null result if the index is out of range. *)
Definition remove (l : SedListOf) (n : nat) : option addr * SedListOf :=
  match mItems l !! n with
  | None => (None, l)
  | Some a =>
      (Some a,
       {| mItems := take n (mItems l) ++ drop (S n) (mItems l);
          mParentSedObject := mParentSedObject l |})
  end.

(** Modelled from the spec: [remove(identifier)] detaches the first
    element carrying the identifier. *)
Definition remove_id (k : ItemKind) (l : SedListOf) (sid : string)
  : M heap (option addr * SedListOf) :=
  r ← find_id k sid (mItems l) 0;
  match r with
  | None => ret (None, l)
  | Some (n, _) => ret (remove l n)
  end.

(** *** Output stream

    The XML writer is observed through the sequence of things written:
    what the superclass writes, the wrapper and the children a collection
    writes, and the expression handed to [writeMathML]. *)

Inductive OutputEvent (B : Type) : Type :=
  | EvSuperElements (b : B)
  | EvStartElement (name : string)
  | EvItem (k : ItemKind) (e : SedItem)
  | EvEndElement (name : string)
  | EvMathML (m : ASTNode).

Definition XMLOutputStream (B : Type) : Type := list (OutputEvent B).

(** Tag of the wrapper element of a collection (the names under which
    [createObject] recognises the collections). *)
Definition listOf_name (k : ItemKind) : string :=
  match k with
  | KVariable => "listOfVariables"
  | KParameter => "listOfParameters"
  | KCurve => "listOfCurves"
  end.

(** Modelled from the spec: the contained elements are written in
    insertion order. *)
Fixpoint write_items {B} (k : ItemKind) (items : list addr)
    (stream : XMLOutputStream B) : M heap (XMLOutputStream B) :=
  match items with
  | [] => ret stream
  | a :: rest =>
      e ← load_item k a;
      write_items k rest (stream ++ [EvItem B k e])
  end.

(** Modelled from the spec: [write(stream)] serializes the wrapper element
    followed by each contained element, in insertion order. *)
Definition SedListOf_write {B} (k : ItemKind) (l : SedListOf)
    (stream : XMLOutputStream B) : M heap (XMLOutputStream B) :=
  stream ← write_items k (mItems l) (stream ++ [EvStartElement B (listOf_name k)]);
  ret (stream ++ [EvEndElement B (listOf_name k)]).

(** Modelled from the spec: the superclass writes its elements. *)
Definition super_writeElements {B} (b : B) (stream : XMLOutputStream B)
  : XMLOutputStream B := stream ++ [EvSuperElements B b].

(** [writeMathML(math, stream, NULL)]; [math] must point to a tree. *)
Definition writeMathML {B} (math : option addr) (stream : XMLOutputStream B)
  : M heap (XMLOutputStream B) :=
  match math with
  | None => fault
  | Some a => m ← load_math a; ret (stream ++ [EvMathML B m])
  end.

(** *** SedComputeChange *)

Definition load_cc (this : addr) : M heap SedComputeChange :=
  λ h, match h !! this with
       | Some (CComputeChange c) => Done c h
       | _ => Fault
       end.

Definition store_cc (this : addr) (c : SedComputeChange) : M heap unit :=
  λ h, Done tt (<[this := CComputeChange c]> h).

Definition cc_with_super (b : SedChange) (c : SedComputeChange) :=
  {| cc_super := b; mVariable := mVariable c;
     mParameter := mParameter c; mMath := mMath c |}.

Definition cc_with_mVariable (l : SedListOf) (c : SedComputeChange) :=
  {| cc_super := cc_super c; mVariable := l;
     mParameter := mParameter c; mMath := mMath c |}.

Definition cc_with_mParameter (l : SedListOf) (c : SedComputeChange) :=
  {| cc_super := cc_super c; mVariable := mVariable c;
     mParameter := l; mMath := mMath c |}.

Definition cc_with_mMath (m : option addr) (c : SedComputeChange) :=
  {| cc_super := cc_super c; mVariable := mVariable c;
     mParameter := mParameter c; mMath := m |}.

(** [SedComputeChange::connectToChild] (lines 490-497). *)
Definition SedComputeChange__connectToChild (this : addr) : M heap unit :=
  c ← load_cc this;
  store_cc this (cc_with_super (super_connectToChild (cc_super c)) c);;
  c ← load_cc this;
  store_cc this (cc_with_mVariable (connectToParent (mVariable c) this) c);;
  c ← load_cc this;
  store_cc this (cc_with_mParameter (connectToParent (mParameter c) this) c).

(** [SedComputeChange::SedComputeChange(level, version)] (lines 52-64). *)
Definition SedComputeChange__new (level version : Z) : M heap addr :=
  this ← alloc (CComputeChange
                  {| cc_super := super_new level version;
                     mVariable := SedListOf_new;
                     mParameter := SedListOf_new;
                     mMath := None |});
  c ← load_cc this;
  store_cc this
    (cc_with_super
       (setSedNamespacesAndOwn (SedNamespaces_new level version) (cc_super c)) c);;
  SedComputeChange__connectToChild this;;
  ret this.

(** [SedComputeChange::SedComputeChange(sedns)] (lines 70-82). *)
Definition SedComputeChange__new_ns (sedns : SedNamespaces) : M heap addr :=
  this ← alloc (CComputeChange
                  {| cc_super := super_new_ns sedns;
                     mVariable := SedListOf_new;
                     mParameter := SedListOf_new;
                     mMath := None |});
  c ← load_cc this;
  store_cc this (cc_with_super (setElementNamespace (getURI sedns) (cc_super c)) c);;
  SedComputeChange__connectToChild this;;
  ret this.

(** Modelled from the spec: the copy constructor of the superclass
    ([SedChange.cpp] is missing) takes its source by reference, tests its
    address against NULL as the derived class does, and copies the
    superclass state. *)
Definition SedChange__copy (orig : addr) : M heap SedChange :=
  if decide (address_of orig = None) then
    throw (SedConstructorException "Null argument to copy constructor")
  else c ← load_cc orig; ret (cc_super c).

(** Modelled from the spec: assignment of the superclass copies the
    superclass state of the source. *)
Definition SedChange__assign (this rhs : addr) : M heap unit :=
  r ← load_cc rhs;
  c ← load_cc this;
  store_cc this (cc_with_super (cc_super r) c).

(** The three member assignments shared by the copy constructor
    (lines 97-99) and the assignment operator (lines 120-122). *)
Definition SedComputeChange__copy_members (this rhs : addr) : M heap unit :=
  c ← load_cc this;
  r ← load_cc rhs;
  l ← SedListOf_assign KVariable (mVariable c) (mVariable r);
  store_cc this (cc_with_mVariable l c);;
  c ← load_cc this;
  r ← load_cc rhs;
  l ← SedListOf_assign KParameter (mParameter c) (mParameter r);
  store_cc this (cc_with_mParameter l c);;
  r ← load_cc rhs;
  m ← match mMath r with
      | Some p => q ← deepCopy p; ret (Some q)
      | None => ret None
      end;
  c ← load_cc this;
  store_cc this (cc_with_mMath m c).

(** Copy constructor (lines 88-104).  [orig] is a reference: a call that
    binds it through a null pointer has undefined behaviour before the
    constructor is entered.  For a bound reference the test of line 91
    compares the address of an object with NULL.  The superclass is
    constructed first; the collections are default-constructed and [mMath]
    is not initialised before the body runs. *)
Definition SedComputeChange__copy (orig : option addr) : M heap addr :=
  match orig with
  | None => fault
  | Some o =>
      b ← SedChange__copy o;
      if decide (address_of o = None) then
        throw (SedConstructorException "Null argument to copy constructor")
      else
        this ← alloc (CComputeChange
                        {| cc_super := b;
                           mVariable := SedListOf_new;
                           mParameter := SedListOf_new;
                           mMath := None |});
        SedComputeChange__copy_members this o;;
        SedComputeChange__connectToChild this;;
        ret this
  end.

(** [SedComputeChange::operator=] (lines 110-128).  [rhs] is a reference,
    as in the copy constructor; the test of line 113 compares the address
    of an object with NULL. *)
Definition SedComputeChange__assign (this : addr) (rhs : option addr)
  : M heap addr :=
  match rhs with
  | None => fault
  | Some r =>
      if decide (address_of r = None) then
        throw (SedConstructorException "Null argument to assignment")
      else if decide (r ≠ this) then
        SedChange__assign this r;;
        SedComputeChange__copy_members this r;;
        SedComputeChange__connectToChild this;;
        ret this
      else ret this
  end.

(** [SedComputeChange::clone] (lines 134-138). *)
Definition SedComputeChange__clone (this : addr) : M heap addr :=
  SedComputeChange__copy (Some this).

(** Destructor (lines 144-146): the body is empty; the collections, being
    members, are destroyed with their elements, [mMath] is not deleted. *)
Definition SedComputeChange__delete (this : addr) : M heap unit :=
  c ← load_cc this;
  delete_items (mItems (mParameter c));;
  delete_items (mItems (mVariable c));;
  delete_ptr (Some this).

Definition SedComputeChange__getMath (this : addr) : M heap (option addr) :=
  c ← load_cc this; ret (mMath c).

Definition SedComputeChange__isSetMath (this : addr) : M heap bool :=
  c ← load_cc this; ret (bool_decide (mMath c ≠ None)).

(** [SedComputeChange::setMath] (lines 172-199). *)
Definition SedComputeChange__setMath (this : addr) (math : option addr)
  : M heap Z :=
  c ← load_cc this;
  if decide (mMath c = math) then ret LIBSEDML_OPERATION_SUCCESS
  else
    match math with
    | None =>
        delete_ptr (mMath c);;
        store_cc this (cc_with_mMath None c);;
        ret LIBSEDML_OPERATION_SUCCESS
    | Some m =>
        ast ← load_math m;
        if negb (isWellFormedASTNode ast) then ret LIBSEDML_INVALID_OBJECT
        else
          delete_ptr (mMath c);;
          q ← deepCopy m;
          store_cc this (cc_with_mMath (Some q) c);;
          ret LIBSEDML_OPERATION_SUCCESS
    end.

(** [SedComputeChange::unsetMath] (lines 205-211). *)
Definition SedComputeChange__unsetMath (this : addr) : M heap Z :=
  c ← load_cc this;
  delete_ptr (mMath c);;
  store_cc this (cc_with_mMath None c);;
  ret LIBSEDML_OPERATION_SUCCESS.

Definition SedComputeChange__getListOfVariables (this : addr)
  : M heap member_ref := ret (RefVariable this).

Definition SedComputeChange__removeVariable (this : addr) (n : nat)
  : M heap (option addr) :=
  c ← load_cc this;
  let '(r, l) := remove (mVariable c) n in
  store_cc this (cc_with_mVariable l c);;
  ret r.

Definition SedComputeChange__removeVariableById (this : addr) (sid : string)
  : M heap (option addr) :=
  c ← load_cc this;
  '(r, l) ← remove_id KVariable (mVariable c) sid;
  store_cc this (cc_with_mVariable l c);;
  ret r.

Definition SedComputeChange__getVariable (this : addr) (n : nat)
  : M heap (option addr) :=
  c ← load_cc this; ret (get (mVariable c) n).

Definition SedComputeChange__getVariableById (this : addr) (sid : string)
  : M heap (option addr) :=
  c ← load_cc this; get_id KVariable (mVariable c) sid.

(** [SedComputeChange::addVariable] (lines 296-302). *)
Definition SedComputeChange__addVariable (this : addr) (sv : option addr)
  : M heap Z :=
  if decide (sv = None) then ret LIBSEDML_INVALID_ATTRIBUTE_VALUE
  else
    c ← load_cc this;
    '(_, l) ← append KVariable (mVariable c) sv;
    store_cc this (cc_with_mVariable l c);;
    ret LIBSEDML_OPERATION_SUCCESS.

Definition SedComputeChange__getNumVariables (this : addr) : M heap nat :=
  c ← load_cc this; ret (size (mVariable c)).

(** [SedComputeChange::createVariable] (lines 324-330). *)
Definition SedComputeChange__createVariable (this : addr)
  : M heap (option addr) :=
  t ← alloc (CItem KVariable SedItem_default);
  let temp := Some t in
  (if decide (temp ≠ None) then
     c ← load_cc this;
     store_cc this (cc_with_mVariable (snd (appendAndOwn (mVariable c) temp)) c)
   else ret tt);;
  ret temp.

Definition SedComputeChange__getListOfParameters (this : addr)
  : M heap member_ref := ret (RefParameter this).

Definition SedComputeChange__removeParameter (this : addr) (n : nat)
  : M heap (option addr) :=
  c ← load_cc this;
  let '(r, l) := remove (mParameter c) n in
  store_cc this (cc_with_mParameter l c);;
  ret r.

Definition SedComputeChange__removeParameterById (this : addr) (sid : string)
  : M heap (option addr) :=
  c ← load_cc this;
  '(r, l) ← remove_id KParameter (mParameter c) sid;
  store_cc this (cc_with_mParameter l c);;
  ret r.

Definition SedComputeChange__getParameter (this : addr) (n : nat)
  : M heap (option addr) :=
  c ← load_cc this; ret (get (mParameter c) n).

Definition SedComputeChange__getParameterById (this : addr) (sid : string)
  : M heap (option addr) :=
  c ← load_cc this; get_id KParameter (mParameter c) sid.

(** [SedComputeChange::addParameter] (lines 414-420). *)
Definition SedComputeChange__addParameter (this : addr) (sp : option addr)
  : M heap Z :=
  if decide (sp = None) then ret LIBSEDML_INVALID_ATTRIBUTE_VALUE
  else
    c ← load_cc this;
    '(_, l) ← append KParameter (mParameter c) sp;
    store_cc this (cc_with_mParameter l c);;
    ret LIBSEDML_OPERATION_SUCCESS.

Definition SedComputeChange__getNumParameters (this : addr) : M heap nat :=
  c ← load_cc this; ret (size (mParameter c)).

(** [SedComputeChange::createParameter] (lines 442-448). *)
Definition SedComputeChange__createParameter (this : addr)
  : M heap (option addr) :=
  t ← alloc (CItem KParameter SedItem_default);
  let temp := Some t in
  (if decide (temp ≠ None) then
     c ← load_cc this;
     store_cc this (cc_with_mParameter (snd (appendAndOwn (mParameter c) temp)) c)
   else ret tt);;
  ret temp.

Definition SedComputeChange__getElementName : string := "computeChange".

Definition SedComputeChange__hasRequiredAttributes (this : addr) : M heap bool :=
  c ← load_cc this;
  let allPresent := super_hasRequiredAttributes (cc_super c) in
  ret allPresent.

Definition SedComputeChange__hasRequiredElements (this : addr) : M heap bool :=
  c ← load_cc this;
  let allPresent := super_hasRequiredElements (cc_super c) in
  ret allPresent.

(** [SedComputeChange::writeElements] (lines 539-555). *)
Definition SedComputeChange__writeElements (this : addr)
    (stream : XMLOutputStream SedChange) : M heap (XMLOutputStream SedChange) :=
  c ← load_cc this;
  let stream := super_writeElements (cc_super c) stream in
  n ← SedComputeChange__getNumVariables this;
  stream ← (if decide (0 < n) then SedListOf_write KVariable (mVariable c) stream
            else ret stream);
  n ← SedComputeChange__getNumParameters this;
  stream ← (if decide (0 < n) then SedListOf_write KParameter (mParameter c) stream
            else ret stream);
  set ← SedComputeChange__isSetMath this;
  if bool_decide (set = true) then
    math ← SedComputeChange__getMath this;
    writeMathML math stream
  else ret stream.

(** [SedComputeChange::readOtherXML] (lines 629-650). *)
Definition SedComputeChange__readOtherXML (this : addr) (stream : XMLInputStream)
  : M heap (bool * XMLInputStream) :=
  let read := false in
  let name := getName (peek stream) in
  '(read, stream) ←
    (if decide (name = "math") then
       let elem := peek stream in
       c ← load_cc this;
       let '(prefix, b) := checkMathMLNamespace (cc_super c) elem in
       store_cc this (cc_with_super b c);;
       c ← load_cc this;
       delete_ptr (mMath c);;
       let '(tree, stream) := readMathML stream prefix in
       math ← match tree with
              | Some m => q ← alloc (CMath m); ret (Some q)
              | None => ret None
              end;
       store_cc this (cc_with_mMath math c);;
       ret (true, stream)
     else ret (read, stream));
  c ← load_cc this;
  let '(super_read, b, stream) := super_readOtherXML (cc_super c) stream in
  store_cc this (cc_with_super b c);;
  ret (if super_read then true else read, stream).

(** *** SedPlot2D *)

Definition load_pd (this : addr) : M heap SedPlot2D :=
  λ h, match h !! this with
       | Some (CPlot2D p) => Done p h
       | _ => Fault
       end.

Definition store_pd (this : addr) (p : SedPlot2D) : M heap unit :=
  λ h, Done tt (<[this := CPlot2D p]> h).

Definition pd_with_super (b : SedOutput) (p : SedPlot2D) :=
  {| pd_super := b; mCurve := mCurve p |}.

Definition pd_with_mCurve (l : SedListOf) (p : SedPlot2D) :=
  {| pd_super := pd_super p; mCurve := l |}.

(** [SedPlot2D::connectToChild] (lines 292-298). *)
Definition SedPlot2D__connectToChild (this : addr) : M heap unit :=
  p ← load_pd this;
  store_pd this (pd_with_super (super_connectToChild (pd_super p)) p);;
  p ← load_pd this;
  store_pd this (pd_with_mCurve (connectToParent (mCurve p) this) p).

(** [SedPlot2D::SedPlot2D(level, version)] (lines 50-60). *)
Definition SedPlot2D__new (level version : Z) : M heap addr :=
  this ← alloc (CPlot2D {| pd_super := super_new level version;
                           mCurve := SedListOf_new |});
  p ← load_pd this;
  store_pd this
    (pd_with_super
       (setSedNamespacesAndOwn (SedNamespaces_new level version) (pd_super p)) p);;
  SedPlot2D__connectToChild this;;
  ret this.

(** [SedPlot2D::SedPlot2D(sedns)] (lines 66-76). *)
Definition SedPlot2D__new_ns (sedns : SedNamespaces) : M heap addr :=
  this ← alloc (CPlot2D {| pd_super := super_new_ns sedns;
                           mCurve := SedListOf_new |});
  p ← load_pd this;
  store_pd this (pd_with_super (setElementNamespace (getURI sedns) (pd_super p)) p);;
  SedPlot2D__connectToChild this;;
  ret this.

(** Modelled from the spec: the copy constructor of the superclass
    ([SedOutput.cpp] is missing) takes its source by reference, tests its
    address against NULL as the derived class does, and copies the
    superclass state. *)
Definition SedOutput__copy (orig : addr) : M heap SedOutput :=
  if decide (address_of orig = None) then
    throw (SedConstructorException "Null argument to copy constructor")
  else p ← load_pd orig; ret (pd_super p).

(** Modelled from the spec: assignment of the superclass copies the
    superclass state of the source. *)
Definition SedOutput__assign (this rhs : addr) : M heap unit :=
  r ← load_pd rhs;
  p ← load_pd this;
  store_pd this (pd_with_super (pd_super r) p).

(** The member assignment shared by the copy constructor (line 91) and
    the assignment operator (line 112). *)
Definition SedPlot2D__copy_members (this rhs : addr) : M heap unit :=
  p ← load_pd this;
  r ← load_pd rhs;
  l ← SedListOf_assign KCurve (mCurve p) (mCurve r);
  store_pd this (pd_with_mCurve l p).

(** Copy constructor (lines 82-96).  [orig] is a reference: binding it
    through a null pointer is undefined behaviour; the test of line 85
    compares the address of an object with NULL. *)
Definition SedPlot2D__copy (orig : option addr) : M heap addr :=
  match orig with
  | None => fault
  | Some o =>
      b ← SedOutput__copy o;
      if decide (address_of o = None) then
        throw (SedConstructorException "Null argument to copy constructor")
      else
        this ← alloc (CPlot2D {| pd_super := b; mCurve := SedListOf_new |});
        SedPlot2D__copy_members this o;;
        SedPlot2D__connectToChild this;;
        ret this
  end.

(** [SedPlot2D::operator=] (lines 102-118).  [rhs] is a reference; the
    test of line 105 compares the address of an object with NULL. *)
Definition SedPlot2D__assign (this : addr) (rhs : option addr) : M heap addr :=
  match rhs with
  | None => fault
  | Some r =>
      if decide (address_of r = None) then
        throw (SedConstructorException "Null argument to assignment")
      else if decide (r ≠ this) then
        SedOutput__assign this r;;
        SedPlot2D__copy_members this r;;
        SedPlot2D__connectToChild this;;
        ret this
      else ret this
  end.

(** [SedPlot2D::clone] (lines 124-128). *)
Definition SedPlot2D__clone (this : addr) : M heap addr :=
  SedPlot2D__copy (Some this).

(** Destructor (lines 134-136). *)
Definition SedPlot2D__delete (this : addr) : M heap unit :=
  p ← load_pd this;
  delete_items (mItems (mCurve p));;
  delete_ptr (Some this).

Definition SedPlot2D__getListOfCurves (this : addr) : M heap member_ref :=
  ret (RefCurve this).

Definition SedPlot2D__removeCurve (this : addr) (n : nat) : M heap (option addr) :=
  p ← load_pd this;
  let '(r, l) := remove (mCurve p) n in
  store_pd this (pd_with_mCurve l p);;
  ret r.

Definition SedPlot2D__removeCurveById (this : addr) (sid : string)
  : M heap (option addr) :=
  p ← load_pd this;
  '(r, l) ← remove_id KCurve (mCurve p) sid;
  store_pd this (pd_with_mCurve l p);;
  ret r.

Definition SedPlot2D__getCurve (this : addr) (n : nat) : M heap (option addr) :=
  p ← load_pd this; ret (get (mCurve p) n).

Definition SedPlot2D__getCurveById (this : addr) (sid : string)
  : M heap (option addr) :=
  p ← load_pd this; get_id KCurve (mCurve p) sid.

(** [SedPlot2D::addCurve] (lines 221-227). *)
Definition SedPlot2D__addCurve (this : addr) (sc : option addr) : M heap Z :=
  if decide (sc = None) then ret LIBSEDML_INVALID_ATTRIBUTE_VALUE
  else
    p ← load_pd this;
    '(_, l) ← append KCurve (mCurve p) sc;
    store_pd this (pd_with_mCurve l p);;
    ret LIBSEDML_OPERATION_SUCCESS.

Definition SedPlot2D__getNumCurves (this : addr) : M heap nat :=
  p ← load_pd this; ret (size (mCurve p)).

(** [SedPlot2D::createCurve] (lines 249-255). *)
Definition SedPlot2D__createCurve (this : addr) : M heap (option addr) :=
  t ← alloc (CItem KCurve SedItem_default);
  let temp := Some t in
  (if decide (temp ≠ None) then
     p ← load_pd this;
     store_pd this (pd_with_mCurve (snd (appendAndOwn (mCurve p) temp)) p)
   else ret tt);;
  ret temp.

Definition SedPlot2D__getElementName : string := "plot2D".

Definition SedPlot2D__hasRequiredAttributes (this : addr) : M heap bool :=
  p ← load_pd this;
  let allPresent := super_hasRequiredAttributes (pd_super p) in
  ret allPresent.

Definition SedPlot2D__hasRequiredElements (this : addr) : M heap bool :=
  p ← load_pd this;
  let allPresent := super_hasRequiredElements (pd_super p) in
  ret allPresent.

(** [SedPlot2D::writeElements] (lines 340-348). *)
Definition SedPlot2D__writeElements (this : addr)
    (stream : XMLOutputStream SedOutput) : M heap (XMLOutputStream SedOutput) :=
  p ← load_pd this;
  let stream := super_writeElements (pd_super p) stream in
  n ← SedPlot2D__getNumCurves this;
  if decide (0 < n) then SedListOf_write KCurve (mCurve p) stream
  else ret stream.


(** *** C API of SedComputeChange (lines 672-891)

    A handle is a nullable pointer and an identifier a nullable C string.
    The wrappers test the handle and nothing else, and none of them has a
    [try] block. *)

Definition SedComputeChange_create (level version : Z) : M heap (option addr) :=
  p ← SedComputeChange__new level version; ret (Some p).

Definition SedComputeChange_free (scc : option addr) : M heap unit :=
  match scc with
  | Some this => SedComputeChange__delete this
  | None => ret tt
  end.

Definition SedComputeChange_clone (scc : option addr) : M heap (option addr) :=
  match scc with
  | Some this => p ← SedComputeChange__clone this; ret (Some p)
  | None => ret None
  end.























(** *** C API of SedPlot2D (lines 436-552) *)

Definition SedPlot2D_create (level version : Z) : M heap (option addr) :=
  p ← SedPlot2D__new level version; ret (Some p).

Definition SedPlot2D_free (spd : option addr) : M heap unit :=
  match spd with
  | Some this => SedPlot2D__delete this
  | None => ret tt
  end.

Definition SedPlot2D_clone (spd : option addr) : M heap (option addr) :=
  match spd with
  | Some this => p ← SedPlot2D__clone this; ret (Some p)
  | None => ret None
  end.











(** *** Observations

    What an object looks like through its pointers: the children of each
    collection in order, and the expression.  The observation is defined
    only when every pointer reaches a live object of the right class, which
    is what makes an object well-formed. *)

Definition item_at (h : heap) (k : ItemKind) (a : addr) : option SedItem :=
  match h !! a with
  | Some (CItem k' e) => if decide (k' = k) then Some e else None
  | _ => None
  end.

Definition items_at (h : heap) (k : ItemKind) (items : list addr)
  : option (list SedItem) := mapM (item_at h k) items.

Definition math_at (h : heap) (p : option addr) : option (option ASTNode) :=
  match p with
  | None => Some None
  | Some a =>
      match h !! a with
      | Some (CMath m) => Some (Some m)
      | _ => None
      end
  end.

Record CCView : Type := {
  v_variables : list SedItem;
  v_parameters : list SedItem;
  v_math : option ASTNode
}.

Definition cc_view (h : heap) (c : SedComputeChange) : option CCView :=
  vs ← items_at h KVariable (mItems (mVariable c));
  ps ← items_at h KParameter (mItems (mParameter c));
  m ← math_at h (mMath c);
  Some {| v_variables := vs; v_parameters := ps; v_math := m |}.

Definition view_cc (h : heap) (this : addr) : option CCView :=
  match h !! this with
  | Some (CComputeChange c) => cc_view h c
  | _ => None
  end.

Definition view_pd (h : heap) (this : addr) : option (list SedItem) :=
  match h !! this with
  | Some (CPlot2D p) => items_at h KCurve (mItems (mCurve p))
  | _ => None
  end.

(** Addresses of the objects an element owns. *)
Definition cc_owned (c : SedComputeChange) : list addr :=
  mItems (mVariable c) ++ mItems (mParameter c) ++ option_list (mMath c).

Definition owned_cc (h : heap) (this : addr) : list addr :=
  match h !! this with
  | Some (CComputeChange c) => this :: cc_owned c
  | _ => []
  end.

Definition owned_pd (h : heap) (this : addr) : list addr :=
  match h !! this with
  | Some (CPlot2D p) => this :: mItems (mCurve p)
  | _ => []
  end.

(** Two stores that differ at most at the addresses in [l]. *)
Definition agree_outside (l : list addr) (h1 h2 : heap) : Prop :=
  ∀ a, a ∉ l → h2 !! a = h1 !! a.

(** Child elements and expressions, the objects that own nothing. *)
Definition is_leaf (c : cell) : Prop :=
  match c with
  | CItem _ _ | CMath _ => True
  | _ => False
  end.

(** Every object that is live in [h] and is not among [gone] is still
    there, unchanged, in [h']. *)
Definition evolves (gone : list addr) (h h' : heap) : Prop :=
  ∀ a c, h !! a = Some c → a ∉ gone → h' !! a = Some c.

(** The parent-link invariant of one object, and of the whole store. *)
Definition linked_cc (this : addr) (c : SedComputeChange) : Prop :=
  mParentSedObject (mVariable c) = Some this ∧
  mParentSedObject (mParameter c) = Some this.

Definition linked_pd (this : addr) (p : SedPlot2D) : Prop :=
  mParentSedObject (mCurve p) = Some this.

Definition cell_linked (a : addr) (c : cell) : Prop :=
  match c with
  | CComputeChange c => linked_cc a c
  | CPlot2D p => linked_pd a p
  | _ => True
  end.

Global Instance cell_linked_dec a c : Decision (cell_linked a c).
Proof. destruct c; cbn; unfold linked_cc, linked_pd; apply _. Defined.

Definition parent_links (h : heap) : Prop := map_Forall cell_linked h.

(** Every object of [h'] other than [this] is a child element or an
    expression, or was in [h] already. *)
Definition rebuilt (this : addr) (h h' : heap) : Prop :=
  ∀ a c, h' !! a = Some c → a = this ∨ is_leaf c ∨ h !! a = Some c.

(** A method that changes the store in that way only. *)
Definition keeps {A} (this : addr) (m : M heap A) : Prop :=
  ∀ h x h', m h = Done x h' → rebuilt this h h'.

(** What a successful [add] or [create] leaves behind, for a collection
    [l] that became [l'] while the store went from [h] to [h']. *)
Definition appended (k : ItemKind) (e : SedItem) (l l' : SedListOf)
    (q : addr) (h h' : heap) (this : addr) : Prop :=
  h !! q = None ∧
  h' !! q = Some (CItem k e) ∧
  mItems l' = mItems l ++ [q] ∧
  size l' = S (size l) ∧
  get l' (size l) = Some q ∧
  mParentSedObject l' = mParentSedObject l ∧
  (∀ a, a ≠ this → a ≠ q → h' !! a = h !! a).


(** *** What [writeElements] is specified to produce

    Superclass elements first, then each non-empty collection in schema
    order, then the expression if present. *)

Definition wrapper_events {B} (k : ItemKind) (es : list SedItem)
  : XMLOutputStream B :=
  match es with
  | [] => []
  | _ => [EvStartElement B (listOf_name k)] ++ map (EvItem B k) es
           ++ [EvEndElement B (listOf_name k)]
  end.

Definition math_events {B} (m : option ASTNode) : XMLOutputStream B :=
  match m with
  | None => []
  | Some t => [EvMathML B t]
  end.

Definition cc_elements (b : SedChange) (v : CCView) : XMLOutputStream SedChange :=
  [EvSuperElements SedChange b]
    ++ wrapper_events KVariable (v_variables v)
    ++ wrapper_events KParameter (v_parameters v)
    ++ math_events (v_math v).

Definition pd_elements (b : SedOutput) (cs : list SedItem)
  : XMLOutputStream SedOutput :=
  [EvSuperElements SedOutput b] ++ wrapper_events KCurve cs.

End Embedding.

Arguments CItem {H SedChange SedOutput} & k e.
Arguments CMath {H SedChange SedOutput} & m.
Arguments CComputeChange {H SedChange SedOutput} & c.
Arguments CPlot2D {H SedChange SedOutput} & p.
Arguments EvSuperElements {H B} b.
Arguments EvStartElement {H B} name.
Arguments EvItem {H B} k e.
Arguments EvEndElement {H B} name.
Arguments EvMathML {H B} m.

(** ** Reading: the object a child token belongs to *)

(** What [createObject] hands back: the object the superclass has for the
    token, or one of the collections that are members of the element. *)
Inductive object_ref (R : Type) : Type :=
  | ObjSuper (r : R)
  | ObjMember (m : member_ref).

Arguments ObjSuper {R} r.
Arguments ObjMember {R} m.

(** [createObject] of the direct superclass ([SedChange.cpp] and
    [SedOutput.cpp] are not at hand): it may consume input, change the
    superclass state and return a pointer ([R]) or null. *)
Class SuperParser `{LibSBML} (B R : Type) : Type := {
  super_createObject : B → XMLInputStream → option R * B * XMLInputStream
}.

Section Reading.
Context `{LibSBML, SedCommon}.
Context {SedChange SedOutput R : Type}.
Context `{!SuperClass SedChange, !SuperClass SedOutput}.
Context `{!SuperParser SedChange R, !SuperParser SedOutput R}.

Local Abbreviation heap := (gmap addr (@cell _ SedChange SedOutput)).

(** [SedComputeChange::createObject] (lines 464-484).  The tag is looked
    at after the superclass has seen the stream; the two tests follow one
    another, the second is not an [else] of the first. *)
Definition SedComputeChange__createObject (this : addr) (stream : XMLInputStream)
  : M heap (option (object_ref R) * XMLInputStream) :=
  c ← load_cc this;
  let '(object, b, stream) := super_createObject (cc_super c) stream in
  store_cc this (cc_with_super b c);;
  let object := ObjSuper <$> object in
  let name := getName (peek stream) in
  c ← load_cc this;
  store_cc this (cc_with_super (super_connectToChild (cc_super c)) c);;
  let object := if decide (name = "listOfVariables")
                then Some (ObjMember (RefVariable this)) else object in
  let object := if decide (name = "listOfParameters")
                then Some (ObjMember (RefParameter this)) else object in
  ret (object, stream).

(** [SedPlot2D::createObject] (lines 271-286). *)
Definition SedPlot2D__createObject (this : addr) (stream : XMLInputStream)
  : M heap (option (object_ref R) * XMLInputStream) :=
  p ← load_pd this;
  let '(object, b, stream) := super_createObject (pd_super p) stream in
  store_pd this (pd_with_super b p);;
  let object := ObjSuper <$> object in
  let name := getName (peek stream) in
  p ← load_pd this;
  store_pd this (pd_with_super (super_connectToChild (pd_super p)) p);;
  let object := if decide (name = "listOfCurves")
                then Some (ObjMember (RefCurve this)) else object in
  ret (object, stream).

(** A method that leaves the store as it found it (a [const] method). *)
Definition readonly {A} (m : M heap A) : Prop :=
  ∀ h x h', m h = Done x h' → h' = h.

(** A method under which the parent-link invariant of the store persists. *)
Definition preserves_links {A} (m : M heap A) : Prop :=
  ∀ h x h', parent_links h → m h = Done x h' → parent_links h'.

(** The store [h] without the objects at the addresses in [l]. *)
Definition without (l : list addr) (h : heap) : heap :=
  filter (λ ac, ac.1 ∉ l) h.

(** Position of the first element that carries the identifier [sid]. *)
Definition position_of_id (sid : string) (es : list SedItem) : option nat :=
  fst <$> list_find (λ e, mId e = sid) es.

(** The view of a [SedComputeChange] with another expression. *)
Definition view_with_math (m : option ASTNode) (v : CCView) : CCView :=
  {| v_variables := v_variables v; v_parameters := v_parameters v; v_math := m |}.

Definition view_with_variables (vs : list SedItem) (v : CCView) : CCView :=
  {| v_variables := vs; v_parameters := v_parameters v; v_math := v_math v |}.

Definition view_with_parameters (ps : list SedItem) (v : CCView) : CCView :=
  {| v_variables := v_variables v; v_parameters := ps; v_math := v_math v |}.

End Reading.

(** ** Categories and severities of diagnostics (SedError.h) *)

(** [SedErrorCategory_t] (lines 870-911): no enumerator has an initialiser,
    so the values count up from zero. *)
Inductive SedErrorCategory_t : Set :=
  | LIBSEDML_CAT_INTERNAL
  | LIBSEDML_CAT_SEDML
  | LIBSEDML_CAT_SEDML_L1_COMPAT
  | LIBSEDML_CAT_GENERAL_CONSISTENCY
  | LIBSEDML_CAT_IDENTIFIER_CONSISTENCY
  | LIBSEDML_CAT_MATHML_CONSISTENCY
  | LIBSEDML_CAT_INTERNAL_CONSISTENCY.

Definition SedErrorCategory_value (c : SedErrorCategory_t) : Z :=
  match c with
  | LIBSEDML_CAT_INTERNAL => 0
  | LIBSEDML_CAT_SEDML => 0 + 1
  | LIBSEDML_CAT_SEDML_L1_COMPAT => 0 + 1 + 1
  | LIBSEDML_CAT_GENERAL_CONSISTENCY => 0 + 1 + 1 + 1
  | LIBSEDML_CAT_IDENTIFIER_CONSISTENCY => 0 + 1 + 1 + 1 + 1
  | LIBSEDML_CAT_MATHML_CONSISTENCY => 0 + 1 + 1 + 1 + 1 + 1
  | LIBSEDML_CAT_INTERNAL_CONSISTENCY => 0 + 1 + 1 + 1 + 1 + 1 + 1
  end%Z.

(** The three severities of libSBML's [XMLErrorSeverity_t] that the header
    refers to ([sbml/xml/XMLError.h] is not part of the sources at hand). *)
Class XMLErrorSeverity : Type := {
  LIBSBML_SEV_ERROR : Z;
  LIBSBML_SEV_FATAL : Z;
  LIBSBML_SEV_WARNING : Z
}.

(** [SedErrorSeverity_t] (lines 921-952): three enumerators take libSBML's
    values, the fourth is one above [LIBSBML_SEV_FATAL], and each of the last
    two, having no initialiser, is one above its predecessor. *)
Inductive SedErrorSeverity_t : Set :=
  | LIBSEDML_SEV_ERROR
  | LIBSEDML_SEV_FATAL
  | LIBSEDML_SEV_WARNING
  | LIBSEDML_SEV_SCHEMA_ERROR
  | LIBSEDML_SEV_GENERAL_WARNING
  | LIBSEDML_SEV_NOT_APPLICABLE.

Definition SedErrorSeverity_value `{XMLErrorSeverity} (s : SedErrorSeverity_t) : Z :=
  match s with
  | LIBSEDML_SEV_ERROR => LIBSBML_SEV_ERROR
  | LIBSEDML_SEV_FATAL => LIBSBML_SEV_FATAL
  | LIBSEDML_SEV_WARNING => LIBSBML_SEV_WARNING
  | LIBSEDML_SEV_SCHEMA_ERROR => LIBSBML_SEV_FATAL + 1
  | LIBSEDML_SEV_GENERAL_WARNING => LIBSBML_SEV_FATAL + 1 + 1
  | LIBSEDML_SEV_NOT_APPLICABLE => LIBSBML_SEV_FATAL + 1 + 1 + 1
  end%Z.

(** ** A small instance of the collaborators, used to run the model *)

Inductive demo_ast : Set :=
  | AConst (n : Z)
  | APlus (l r : demo_ast)
  | AIncomplete.

Fixpoint demo_wf (t : demo_ast) : bool :=
  match t with
  | AConst _ => true
  | APlus l r => demo_wf l && demo_wf r
  | AIncomplete => false
  end.

Definition demo_sbml : LibSBML := {|
  ASTNode := demo_ast;
  isWellFormedASTNode := demo_wf;
  XMLToken := string;
  getName := λ t, t;
  XMLInputStream := list string;
  peek := λ s, hd EmptyString s;
  readMathML := λ s _,
    match s with
    | "math" :: rest => (Some (AConst 1), rest)
    | _ => (None, s)
    end;
  LIBSBML_INVALID_OBJECT := (-5)
|}.

Definition demo_common : SedCommon := {|
  LIBSEDML_OPERATION_SUCCESS := 0;
  LIBSEDML_INVALID_ATTRIBUTE_VALUE := (-4);
  LIBSEDML_INVALID_OBJECT := (-5);
  SedNamespaces := Z * Z;
  SedNamespaces_new := pair;
  getURI := λ _, "http://sed-ml.org/"
|}.

(** Superclass state of the instance: level, version, namespace and the
    number of annotations read so far. *)
Record demo_base : Set := {
  db_level : Z; db_version : Z; db_uri : string; db_annotations : nat
}.

Definition demo_new (l v : Z) : demo_base :=
  {| db_level := l; db_version := v; db_uri := EmptyString; db_annotations := 0 |}.

Definition demo_set_ns (ns : Z * Z) (b : demo_base) : demo_base :=
  {| db_level := fst ns; db_version := snd ns;
     db_uri := "http://sed-ml.org/"; db_annotations := db_annotations b |}.

Definition demo_set_uri (uri : string) (b : demo_base) : demo_base :=
  {| db_level := db_level b; db_version := db_version b;
     db_uri := uri; db_annotations := db_annotations b |}.

(** The superclass of the instance recognises annotations. *)
Definition demo_readOtherXML (b : demo_base) (s : list string)
  : bool * demo_base * list string :=
  match s with
  | "annotation" :: rest =>
      (true,
       {| db_level := db_level b; db_version := db_version b;
          db_uri := db_uri b; db_annotations := S (db_annotations b) |},
       rest)
  | _ => (false, b, s)
  end.

Definition demo_new_ns (ns : Z * Z) : demo_base := demo_new (fst ns) (snd ns).

Definition demo_super : @SuperClass demo_sbml demo_common demo_base :=
  @Build_SuperClass demo_sbml demo_common demo_base
    demo_new demo_new_ns demo_set_ns demo_set_uri
    (λ _, true) (λ _, true) (λ b, b) (λ b _, (EmptyString, b))
    demo_readOtherXML.


Definition demo_b : demo_base :=
  {| db_level := 1; db_version := 1; db_uri := "http://sed-ml.org/"; db_annotations := 0 |}.

Definition demo_cc : @SedComputeChange demo_base :=
  {| cc_super := demo_b;
     mVariable := {| mItems := [2; 3]%positive; mParentSedObject := Some 1%positive |};
     mParameter := {| mItems := [4%positive]; mParentSedObject := Some 1%positive |};
     mMath := Some 5%positive |}.

Definition demo_pd : @SedPlot2D demo_base :=
  {| pd_super := demo_b;
     mCurve := {| mItems := [7%positive]; mParentSedObject := Some 6%positive |} |}.

(** A store holding one [SedComputeChange] at 1 (two variables at 2 and 3,
    one parameter at 4, its expression at 5), one [SedPlot2D] at 6 (one
    curve at 7), a free-standing variable at 8, an ill-formed expression at
    9 and a free-standing curve at 10. *)
Definition demo_cell : Type := @cell demo_sbml demo_base demo_base.

Abbreviation demo_heap_t := (gmap addr demo_cell).

Definition demo_store (a : addr) (c : demo_cell) (h : demo_heap_t) : demo_heap_t :=
  <[a := c]> h.

Definition demo_heap : demo_heap_t :=
  demo_store 1%positive (CComputeChange demo_cc)
  (demo_store 2%positive (CItem KVariable {| mId := "a"; mName := EmptyString |})
  (demo_store 3%positive (CItem KVariable {| mId := "b"; mName := EmptyString |})
  (demo_store 4%positive (CItem KParameter {| mId := "p"; mName := "rate" |})
  (demo_store 5%positive (CMath (APlus (AConst 1) (AConst 2)))
  (demo_store 6%positive (CPlot2D demo_pd)
  (demo_store 7%positive (CItem KCurve {| mId := "c1"; mName := EmptyString |})
  (demo_store 8%positive (CItem KVariable {| mId := "x"; mName := EmptyString |})
  (demo_store 9%positive (CMath (APlus (AConst 1) AIncomplete))
  (demo_store 10%positive (CItem KCurve {| mId := "c2"; mName := EmptyString |}) ∅))))))))).

(** What the [SedComputeChange] at 1 shows. *)
Definition demo_view : @CCView demo_sbml :=
  @Build_CCView demo_sbml
    [{| mId := "a"; mName := EmptyString |}; {| mId := "b"; mName := EmptyString |}]
    [{| mId := "p"; mName := "rate" |}]
    (Some (APlus (AConst 1) (AConst 2))).

(** A second [SedComputeChange] at 11, empty, next to the first one. *)
Definition demo_heap2 : demo_heap_t :=
  demo_store 11%positive (CComputeChange
      {| cc_super := demo_b;
         mVariable := {| mItems := []; mParentSedObject := Some 11%positive |};
         mParameter := {| mItems := []; mParentSedObject := Some 11%positive |};
         mMath := None |})
  (demo_store 12%positive (CPlot2D
      {| pd_super := demo_b;
         mCurve := {| mItems := []; mParentSedObject := Some 12%positive |} |})
   demo_heap).

(** The superclass of the instance has an object of its own for notes. *)
Definition demo_createObject (b : demo_base) (s : list string)
  : option nat * demo_base * list string :=
  match s with
  | "notes" :: _ => (Some 0, b, s)
  | _ => (None, b, s)
  end.

Definition demo_parser : @SuperParser demo_sbml demo_base nat :=
  @Build_SuperParser demo_sbml demo_base nat demo_createObject.

(** A numbering of libSBML's severities for the instance. *)
Definition demo_severity : XMLErrorSeverity :=
  {| LIBSBML_SEV_ERROR := 2; LIBSBML_SEV_FATAL := 3; LIBSBML_SEV_WARNING := 1 |}.
(** ** Properties *)

Section Properties.
Context `{LibSBML, SedCommon}.
Context {SedChange SedOutput : Type}.
Context `{!SuperClass SedChange, !SuperClass SedOutput}.

Local Abbreviation heap := (gmap addr (@cell _ SedChange SedOutput)).
Local Abbreviation cell := (@cell _ SedChange SedOutput).
Local Abbreviation SedComputeChange := (@SedComputeChange SedChange).
Local Abbreviation SedPlot2D := (@SedPlot2D SedOutput).

Implicit Types (h : heap) (a p q this : addr) (k : ItemKind) (e : SedItem).

(** *** Running the monad *)

Lemma bind_run {A B} (m : M heap A) (f : A → M heap B) h :
  (m ≫= f) h =
  match m h with
  | Done x h' => f x h'
  | Thrown ex h' => Thrown ex h'
  | Fault => Fault
  end.
Proof. reflexivity. Qed.

Lemma bind_Done {A B} (m : M heap A) (f : A → M heap B) h (x : A) h' :
  m h = Done x h' → (m ≫= f) h = f x h'.
Proof. intros Hm. rewrite bind_run, Hm. reflexivity. Qed.

Lemma bind_Done_inv {A B} (m : M heap A) (f : A → M heap B) h (y : B) h2 :
  (m ≫= f) h = Done y h2 → ∃ (x : A) h1, m h = Done x h1 ∧ f x h1 = Done y h2.
Proof.
  rewrite bind_run. destruct (m h) as [x h1| |]; try discriminate.
  intros Hf. exists x, h1. split; [reflexivity | exact Hf].
Qed.

Lemma ret_run {A} (x : A) h : (mret x : M heap A) h = Done x h.
Proof. reflexivity. Qed.

(** The address of an object is not the null pointer, so a test of it
    against NULL takes the other branch. *)
Lemma address_of_test {A} (o : addr) (x y : A) :
  (if decide (address_of o = None) then x else y) = y.
Proof. destruct (decide (address_of o = None)) as [E|E]; [discriminate E|done]. Qed.

Lemma fresh_None h : h !! fresh (dom h) = None.
Proof. apply not_elem_of_dom, is_fresh. Qed.

Lemma alloc_run (c : cell) h :
  alloc c h = Done (fresh (dom h)) (<[fresh (dom h) := c]> h).
Proof. reflexivity. Qed.

Lemma load_cc_run h this (c : SedComputeChange) :
  h !! this = Some (CComputeChange c) → load_cc this h = Done c h.
Proof. intros Hc. unfold load_cc. rewrite Hc. reflexivity. Qed.

Lemma load_cc_inv h this (c : SedComputeChange) h' :
  load_cc this h = Done c h' → h' = h ∧ h !! this = Some (CComputeChange c).
Proof.
  unfold load_cc. destruct (h !! this) as [[| |c'|]|]; try discriminate.
  intros [= -> ->]. split; reflexivity.
Qed.

Lemma load_pd_run h this (p : SedPlot2D) :
  h !! this = Some (CPlot2D p) → load_pd this h = Done p h.
Proof. intros Hp. unfold load_pd. rewrite Hp. reflexivity. Qed.

Lemma load_pd_inv h this (p : SedPlot2D) h' :
  load_pd this h = Done p h' → h' = h ∧ h !! this = Some (CPlot2D p).
Proof.
  unfold load_pd. destruct (h !! this) as [[| | |p']|]; try discriminate.
  intros [= -> ->]. split; reflexivity.
Qed.

Lemma load_math_run h a (m : ASTNode) :
  h !! a = Some (CMath m) → load_math a h = Done m h.
Proof. intros Hm. unfold load_math. rewrite Hm. reflexivity. Qed.

Lemma item_at_Some h k a e :
  item_at h k a = Some e ↔ h !! a = Some (CItem k e).
Proof.
  unfold item_at. destruct (h !! a) as [[k' e'| | |]|]; try (split; discriminate).
  destruct (decide (k' = k)) as [->|Hne].
  - split; intros [= ->]; reflexivity.
  - split; [discriminate | intros [= -> ->]; contradiction].
Qed.

Lemma load_item_run h k a e :
  h !! a = Some (CItem k e) → load_item k a h = Done e h.
Proof.
  intros Ha. unfold load_item. rewrite Ha.
  destruct (decide (k = k)); [reflexivity | contradiction].
Qed.

(** *** Observations are stable under changes elsewhere *)

Lemma items_at_nil h k : items_at h k [] = Some [].
Proof. reflexivity. Qed.

Lemma items_at_cons h k a l es :
  items_at h k (a :: l) = Some es ↔
  ∃ e es', h !! a = Some (CItem k e) ∧ items_at h k l = Some es' ∧ es = e :: es'.
Proof.
  unfold items_at. cbn [mapM]. split.
  - destruct (item_at h k a) as [e|] eqn:He; [|discriminate].
    apply item_at_Some in He. cbn.
    destruct (mapM (item_at h k) l) as [es'|]; [|discriminate].
    cbn. intros [= <-]. eauto.
  - intros (e & es' & Ha & Hl & ->).
    apply item_at_Some in Ha. rewrite Ha. cbn. rewrite Hl. reflexivity.
Qed.

Lemma items_at_length h k l es : items_at h k l = Some es → length es = length l.
Proof.
  revert es. induction l as [|a l IH]; intros es.
  - intros [= <-]. reflexivity.
  - intros (e & es' & _ & Hl & ->)%items_at_cons. cbn. f_equal. eauto.
Qed.

Lemma items_at_agree h1 h2 k l es :
  (∀ a, a ∈ l → h2 !! a = h1 !! a) →
  items_at h1 k l = Some es → items_at h2 k l = Some es.
Proof.
  revert es. induction l as [|a l IH]; intros es Hag; [trivial|].
  intros (e & es' & Ha & Hl & ->)%items_at_cons.
  apply items_at_cons. exists e, es'. split_and!; [|apply IH|]; try done.
  - rewrite Hag; [done | left].
  - intros b Hb. apply Hag. by right.
Qed.

Lemma items_at_weaken h1 h2 k l es :
  h1 ⊆ h2 → items_at h1 k l = Some es → items_at h2 k l = Some es.
Proof.
  intros Hsub. revert es. induction l as [|a l IH]; intros es; [trivial|].
  intros (e & es' & Ha & Hl & ->)%items_at_cons.
  apply items_at_cons. exists e, es'. split_and!; [|apply IH|]; try done.
  eapply lookup_weaken; eauto.
Qed.

Lemma items_at_live h k l es a :
  items_at h k l = Some es → a ∈ l → ∃ e, h !! a = Some (CItem k e).
Proof.
  revert es. induction l as [|b l IH]; intros es Hl Ha.
  - by apply elem_of_nil in Ha.
  - apply items_at_cons in Hl as (e & es' & Hb & Hl & ->).
    apply elem_of_cons in Ha as [->|Ha]; eauto.
Qed.

Lemma math_at_agree h1 h2 (p : option addr) m :
  (∀ a, p = Some a → h2 !! a = h1 !! a) →
  math_at h1 p = Some m → math_at h2 p = Some m.
Proof.
  destruct p as [a|]; [|done]. intros Hag. cbn. by rewrite Hag.
Qed.

(** *** Deep copy of the elements of a collection *)

Lemma clone_items_spec k items es h :
  items_at h k items = Some es →
  ∃ ps h', clone_items k items h = Done ps h' ∧
    h ⊆ h' ∧
    items_at h' k ps = Some es ∧
    Forall (λ p, h !! p = None) ps ∧
    NoDup ps ∧
    (∀ a, a ∉ ps → h' !! a = h !! a).
Proof.
  revert es h. induction items as [|a items IH]; intros es h Hat.
  - injection Hat as <-. exists [], h. cbn.
    split_and!; try done. constructor.
  - apply items_at_cons in Hat as (e & es' & Ha & Hl & ->).
    set (p := fresh (dom h)). set (h1 := <[p := CItem k e]> h).
    assert (Hp : h !! p = None) by apply fresh_None.
    assert (Hsub : h ⊆ h1) by by apply insert_subseteq.
    destruct (IH es' h1) as (ps & h' & Hrun & Hsub' & Hat' & Hfresh & Hnd & Hframe).
    { eapply items_at_weaken; eauto. }
    exists (p :: ps), h'.
    assert (Hpps : p ∉ ps).
    { intros Hin. rewrite Forall_forall in Hfresh. specialize (Hfresh _ Hin).
      unfold h1 in Hfresh. by rewrite lookup_insert_eq in Hfresh. }
    split_and!.
    + cbn [clone_items]. unfold clone_item.
      rewrite !bind_run. rewrite (load_item_run _ _ _ _ Ha).
      rewrite alloc_run. fold p h1. rewrite bind_run, Hrun. reflexivity.
    + by etrans.
    + apply items_at_cons. exists e, es'. split_and!; try done.
      eapply lookup_weaken; [|exact Hsub']. unfold h1. apply lookup_insert_eq.
    + constructor; [done|].
      eapply Forall_impl; [exact Hfresh|]. cbn. intros q Hq.
      destruct (h !! q) eqn:E; [|done].
      eapply lookup_weaken in E; [|exact Hsub]. congruence.
    + by constructor.
    + intros b Hb. apply not_elem_of_cons in Hb as [Hbp Hb].
      rewrite Hframe by done. unfold h1. by rewrite lookup_insert_ne.
Qed.

(** *** Destruction of the elements of a collection *)

Lemma delete_items_spec items h :
  NoDup items → Forall (λ a, is_Some (h !! a)) items →
  ∃ h', delete_items items h = Done tt h' ∧
    (∀ a, a ∈ items → h' !! a = None) ∧
    (∀ a, a ∉ items → h' !! a = h !! a).
Proof.
  revert h. induction items as [|a items IH]; intros h Hnd Hlive.
  - exists h. split_and!; try done. intros a Ha. by apply elem_of_nil in Ha.
  - apply NoDup_cons in Hnd as [Hna Hnd].
    apply Forall_cons in Hlive as [[c Hc] Hlive].
    destruct (IH (delete a h) Hnd) as (h' & Hrun & Hgone & Hframe).
    { rewrite Forall_forall in Hlive |- *. intros b Hb.
      rewrite lookup_delete_ne; [eauto|]. intros ->. contradiction. }
    exists h'. split_and!.
    + cbn [delete_items]. rewrite bind_run. unfold delete_ptr at 1.
      rewrite Hc. exact Hrun.
    + intros b [->|Hb]%elem_of_cons; [|eauto].
      rewrite Hframe by done. apply lookup_delete_eq.
    + intros b [Hba Hb]%not_elem_of_cons.
      rewrite Hframe by done. by rewrite lookup_delete_ne.
Qed.


(** *** Symbolic execution of straight-line method bodies *)

Lemma store_cc_run h this (c : SedComputeChange) :
  store_cc this c h = Done tt (<[this := CComputeChange c]> h).
Proof. reflexivity. Qed.

Lemma store_pd_run h this (p : SedPlot2D) :
  store_pd this p h = Done tt (<[this := CPlot2D p]> h).
Proof. reflexivity. Qed.

Ltac step_load :=
  match goal with
  | Hc : ?h !! ?a = Some (CComputeChange ?c) |- context [load_cc ?a ?h] =>
      rewrite (load_cc_run h a c Hc)
  | Hc : ?h !! ?a = Some (CPlot2D ?c) |- context [load_pd ?a ?h] =>
      rewrite (load_pd_run h a c Hc)
  | Hc : ?h !! ?a = Some (CItem ?k ?e) |- context [load_item ?k ?a ?h] =>
      rewrite (load_item_run h k a e Hc)
  | Hc : ?h !! ?a = Some (CMath ?m) |- context [load_math ?a ?h] =>
      rewrite (load_math_run h a m Hc)
  | |- context [load_cc ?a (<[?a := CComputeChange ?c]> ?h)] =>
      rewrite (load_cc_run (<[a := CComputeChange c]> h) a c (lookup_insert_eq h a _))
  | |- context [load_pd ?a (<[?a := CPlot2D ?c]> ?h)] =>
      rewrite (load_pd_run (<[a := CPlot2D c]> h) a c (lookup_insert_eq h a _))
  end.

Ltac mrun :=
  repeat first
    [ rewrite bind_run
    | step_load
    | rewrite alloc_run
    | rewrite store_cc_run
    | rewrite store_pd_run
    | rewrite ret_run
    | rewrite address_of_test
    | progress cbn [ret] ].

(** *** The collection operations used by [add] and [create] *)

Lemma append_run k (l : SedListOf) a e h :
  h !! a = Some (CItem k e) →
  append k l (Some a) h =
  Done (LIBSEDML_OPERATION_SUCCESS,
        {| mItems := mItems l ++ [fresh (dom h)];
           mParentSedObject := mParentSedObject l |})
       (<[fresh (dom h) := CItem k e]> h).
Proof.
  intros Ha. unfold append, clone_item. mrun. reflexivity.
Qed.

Lemma addVariable_null this h :
  SedComputeChange__addVariable this None h =
  Done LIBSEDML_INVALID_ATTRIBUTE_VALUE h.
Proof. reflexivity. Qed.

Lemma addParameter_null this h :
  SedComputeChange__addParameter this None h =
  Done LIBSEDML_INVALID_ATTRIBUTE_VALUE h.
Proof. reflexivity. Qed.

Lemma addCurve_null this h :
  SedPlot2D__addCurve this None h = Done LIBSEDML_INVALID_ATTRIBUTE_VALUE h.
Proof. reflexivity. Qed.

Lemma addVariable_run h this (c : SedComputeChange) sv e :
  h !! this = Some (CComputeChange c) →
  h !! sv = Some (CItem KVariable e) →
  let q := fresh (dom h) in
  SedComputeChange__addVariable this (Some sv) h =
  Done LIBSEDML_OPERATION_SUCCESS
    (<[this := CComputeChange
         (cc_with_mVariable
            {| mItems := mItems (mVariable c) ++ [q];
               mParentSedObject := mParentSedObject (mVariable c) |} c)]>
       (<[q := CItem KVariable e]> h)).
Proof.
  intros Hc Hsv q. unfold SedComputeChange__addVariable.
  destruct (decide (Some sv = None)) as [|_]; [discriminate|].
  mrun. rewrite (append_run _ _ _ _ _ Hsv). mrun. reflexivity.
Qed.

Lemma addParameter_run h this (c : SedComputeChange) sp e :
  h !! this = Some (CComputeChange c) →
  h !! sp = Some (CItem KParameter e) →
  let q := fresh (dom h) in
  SedComputeChange__addParameter this (Some sp) h =
  Done LIBSEDML_OPERATION_SUCCESS
    (<[this := CComputeChange
         (cc_with_mParameter
            {| mItems := mItems (mParameter c) ++ [q];
               mParentSedObject := mParentSedObject (mParameter c) |} c)]>
       (<[q := CItem KParameter e]> h)).
Proof.
  intros Hc Hsp q. unfold SedComputeChange__addParameter.
  destruct (decide (Some sp = None)) as [|_]; [discriminate|].
  mrun. rewrite (append_run _ _ _ _ _ Hsp). mrun. reflexivity.
Qed.

Lemma addCurve_run h this (p : SedPlot2D) sc e :
  h !! this = Some (CPlot2D p) →
  h !! sc = Some (CItem KCurve e) →
  let q := fresh (dom h) in
  SedPlot2D__addCurve this (Some sc) h =
  Done LIBSEDML_OPERATION_SUCCESS
    (<[this := CPlot2D
         (pd_with_mCurve
            {| mItems := mItems (mCurve p) ++ [q];
               mParentSedObject := mParentSedObject (mCurve p) |} p)]>
       (<[q := CItem KCurve e]> h)).
Proof.
  intros Hp Hsc q. unfold SedPlot2D__addCurve.
  destruct (decide (Some sc = None)) as [|_]; [discriminate|].
  mrun. rewrite (append_run _ _ _ _ _ Hsc). mrun. reflexivity.
Qed.

Lemma appended_intro k e (l : SedListOf) h this (c : cell) :
  is_Some (h !! this) →
  let q := fresh (dom h) in
  appended k e l
    {| mItems := mItems l ++ [q]; mParentSedObject := mParentSedObject l |}
    q h (<[this := c]> (<[q := CItem k e]> h)) this.
Proof.
  intros [c0 Hthis] q.
  assert (Hq : h !! q = None) by apply fresh_None.
  assert (Hne : this ≠ q) by (intros ->; congruence).
  unfold appended, size, get. cbn [mItems mParentSedObject].
  split_and!; try done.
  - rewrite lookup_insert_ne by done. apply lookup_insert_eq.
  - rewrite length_app. cbn. lia.
  - rewrite lookup_app_r by lia. by rewrite Nat.sub_diag.
  - intros a Ha1 Ha2. by rewrite !lookup_insert_ne.
Qed.

(** C2: [addVariable], [addParameter] and [addCurve] return
    LIBSEDML_INVALID_ATTRIBUTE_VALUE on a null argument and leave the store,
    hence the size of the collection, unchanged; on a non-null element they
    return LIBSEDML_OPERATION_SUCCESS and have stored a copy of it, a new
    object with the same contents, at the end of the collection, whose size
    has grown by exactly one. *)
Theorem add_null_rejected_else_appends_copy :
  (∀ this h,
     SedComputeChange__addVariable this None h
       = Done LIBSEDML_INVALID_ATTRIBUTE_VALUE h ∧
     SedComputeChange__addParameter this None h
       = Done LIBSEDML_INVALID_ATTRIBUTE_VALUE h ∧
     SedPlot2D__addCurve this None h
       = Done LIBSEDML_INVALID_ATTRIBUTE_VALUE h) ∧
  (∀ h this (c : SedComputeChange) sv e,
     h !! this = Some (CComputeChange c) →
     h !! sv = Some (CItem KVariable e) →
     ∃ q h' (c' : SedComputeChange),
       SedComputeChange__addVariable this (Some sv) h
         = Done LIBSEDML_OPERATION_SUCCESS h' ∧
       h' !! this = Some (CComputeChange c') ∧
       appended KVariable e (mVariable c) (mVariable c') q h h' this ∧
       SedComputeChange__getNumVariables this h'
         = Done (S (size (mVariable c))) h' ∧
       mParameter c' = mParameter c ∧ mMath c' = mMath c) ∧
  (∀ h this (c : SedComputeChange) sp e,
     h !! this = Some (CComputeChange c) →
     h !! sp = Some (CItem KParameter e) →
     ∃ q h' (c' : SedComputeChange),
       SedComputeChange__addParameter this (Some sp) h
         = Done LIBSEDML_OPERATION_SUCCESS h' ∧
       h' !! this = Some (CComputeChange c') ∧
       appended KParameter e (mParameter c) (mParameter c') q h h' this ∧
       SedComputeChange__getNumParameters this h'
         = Done (S (size (mParameter c))) h' ∧
       mVariable c' = mVariable c ∧ mMath c' = mMath c) ∧
  (∀ h this (p : SedPlot2D) sc e,
     h !! this = Some (CPlot2D p) →
     h !! sc = Some (CItem KCurve e) →
     ∃ q h' (p' : SedPlot2D),
       SedPlot2D__addCurve this (Some sc) h
         = Done LIBSEDML_OPERATION_SUCCESS h' ∧
       h' !! this = Some (CPlot2D p') ∧
       appended KCurve e (mCurve p) (mCurve p') q h h' this ∧
       SedPlot2D__getNumCurves this h' = Done (S (size (mCurve p))) h').
Proof.
  split_and!.
  - intros this h. split_and!; reflexivity.
  - intros h this c sv e Hc Hsv. eexists _, _, _. split_and!.
    + apply (addVariable_run _ _ _ _ _ Hc Hsv).
    + apply lookup_insert_eq.
    + apply appended_intro. eauto.
    + unfold SedComputeChange__getNumVariables. mrun.
      unfold size. cbn. rewrite length_app. cbn. f_equal. lia.
    + reflexivity.
    + reflexivity.
  - intros h this c sp e Hc Hsp. eexists _, _, _. split_and!.
    + apply (addParameter_run _ _ _ _ _ Hc Hsp).
    + apply lookup_insert_eq.
    + apply appended_intro. eauto.
    + unfold SedComputeChange__getNumParameters. mrun.
      unfold size. cbn. rewrite length_app. cbn. f_equal. lia.
    + reflexivity.
    + reflexivity.
  - intros h this p sc e Hp Hsc. eexists _, _, _. split_and!.
    + apply (addCurve_run _ _ _ _ _ Hp Hsc).
    + apply lookup_insert_eq.
    + apply appended_intro. eauto.
    + unfold SedPlot2D__getNumCurves. mrun.
      unfold size. cbn. rewrite length_app. cbn. f_equal. lia.
Qed.


Lemma createVariable_run h this (c : SedComputeChange) :
  h !! this = Some (CComputeChange c) →
  let q := fresh (dom h) in
  SedComputeChange__createVariable this h =
  Done (Some q)
    (<[this := CComputeChange
         (cc_with_mVariable
            {| mItems := mItems (mVariable c) ++ [q];
               mParentSedObject := mParentSedObject (mVariable c) |} c)]>
       (<[q := CItem KVariable SedItem_default]> h)).
Proof.
  intros Hc q. unfold SedComputeChange__createVariable. mrun. fold q.
  assert (Hne : q ≠ this) by (intros E; pose proof (fresh_None h) as F; fold q in F; congruence).
  destruct (decide (Some q ≠ None)) as [_|Hn]; [|by destruct Hn].
  mrun. unfold load_cc. rewrite lookup_insert_ne, Hc by done. mrun. reflexivity.
Qed.

Lemma createParameter_run h this (c : SedComputeChange) :
  h !! this = Some (CComputeChange c) →
  let q := fresh (dom h) in
  SedComputeChange__createParameter this h =
  Done (Some q)
    (<[this := CComputeChange
         (cc_with_mParameter
            {| mItems := mItems (mParameter c) ++ [q];
               mParentSedObject := mParentSedObject (mParameter c) |} c)]>
       (<[q := CItem KParameter SedItem_default]> h)).
Proof.
  intros Hc q. unfold SedComputeChange__createParameter. mrun. fold q.
  assert (Hne : q ≠ this) by (intros E; pose proof (fresh_None h) as F; fold q in F; congruence).
  destruct (decide (Some q ≠ None)) as [_|Hn]; [|by destruct Hn].
  mrun. unfold load_cc. rewrite lookup_insert_ne, Hc by done. mrun. reflexivity.
Qed.

Lemma createCurve_run h this (p : SedPlot2D) :
  h !! this = Some (CPlot2D p) →
  let q := fresh (dom h) in
  SedPlot2D__createCurve this h =
  Done (Some q)
    (<[this := CPlot2D
         (pd_with_mCurve
            {| mItems := mItems (mCurve p) ++ [q];
               mParentSedObject := mParentSedObject (mCurve p) |} p)]>
       (<[q := CItem KCurve SedItem_default]> h)).
Proof.
  intros Hp q. unfold SedPlot2D__createCurve. mrun. fold q.
  assert (Hne : q ≠ this) by (intros E; pose proof (fresh_None h) as F; fold q in F; congruence).
  destruct (decide (Some q ≠ None)) as [_|Hn]; [|by destruct Hn].
  mrun. unfold load_pd. rewrite lookup_insert_ne, Hp by done. mrun. reflexivity.
Qed.

(** C10: [createVariable], [createParameter] and [createCurve] allocate a
    new default-constructed element, hand that very object to the
    collection, whose size grows by exactly one, and return a pointer to the
    stored element itself: the pointer returned is the last pointer of the
    collection.  An [add] instead stores a pointer different from its
    argument. *)
Theorem create_returns_stored_element :
  (∀ h this (c : SedComputeChange),
     h !! this = Some (CComputeChange c) →
     ∃ q h' (c' : SedComputeChange),
       SedComputeChange__createVariable this h = Done (Some q) h' ∧
       h' !! this = Some (CComputeChange c') ∧
       appended KVariable SedItem_default (mVariable c) (mVariable c') q h h' this ∧
       last (mItems (mVariable c')) = Some q ∧
       SedComputeChange__getNumVariables this h'
         = Done (S (size (mVariable c))) h') ∧
  (∀ h this (c : SedComputeChange),
     h !! this = Some (CComputeChange c) →
     ∃ q h' (c' : SedComputeChange),
       SedComputeChange__createParameter this h = Done (Some q) h' ∧
       h' !! this = Some (CComputeChange c') ∧
       appended KParameter SedItem_default (mParameter c) (mParameter c') q h h' this ∧
       last (mItems (mParameter c')) = Some q ∧
       SedComputeChange__getNumParameters this h'
         = Done (S (size (mParameter c))) h') ∧
  (∀ h this (p : SedPlot2D),
     h !! this = Some (CPlot2D p) →
     ∃ q h' (p' : SedPlot2D),
       SedPlot2D__createCurve this h = Done (Some q) h' ∧
       h' !! this = Some (CPlot2D p') ∧
       appended KCurve SedItem_default (mCurve p) (mCurve p') q h h' this ∧
       last (mItems (mCurve p')) = Some q ∧
       SedPlot2D__getNumCurves this h' = Done (S (size (mCurve p))) h') ∧
  (∀ h this (c : SedComputeChange) sv e h',
     h !! this = Some (CComputeChange c) →
     h !! sv = Some (CItem KVariable e) →
     SedComputeChange__addVariable this (Some sv) h
       = Done LIBSEDML_OPERATION_SUCCESS h' →
     ∃ (c' : SedComputeChange) q,
       h' !! this = Some (CComputeChange c') ∧
       last (mItems (mVariable c')) = Some q ∧ q ≠ sv).
Proof.
  split_and!.
  - intros h this c Hc. eexists _, _, _. split_and!.
    + apply (createVariable_run _ _ _ Hc).
    + apply lookup_insert_eq.
    + apply appended_intro. eauto.
    + cbn. apply last_snoc.
    + unfold SedComputeChange__getNumVariables. mrun.
      unfold size. cbn. rewrite length_app. cbn. f_equal. lia.
  - intros h this c Hc. eexists _, _, _. split_and!.
    + apply (createParameter_run _ _ _ Hc).
    + apply lookup_insert_eq.
    + apply appended_intro. eauto.
    + cbn. apply last_snoc.
    + unfold SedComputeChange__getNumParameters. mrun.
      unfold size. cbn. rewrite length_app. cbn. f_equal. lia.
  - intros h this p Hp. eexists _, _, _. split_and!.
    + apply (createCurve_run _ _ _ Hp).
    + apply lookup_insert_eq.
    + apply appended_intro. eauto.
    + cbn. apply last_snoc.
    + unfold SedPlot2D__getNumCurves. mrun.
      unfold size. cbn. rewrite length_app. cbn. f_equal. lia.
  - intros h this c sv e h' Hc Hsv Hrun.
    rewrite (addVariable_run _ _ _ _ _ Hc Hsv) in Hrun.
    injection Hrun as <-. eexists _, _. split_and!.
    + apply lookup_insert_eq.
    + cbn. apply last_snoc.
    + intros E. pose proof (fresh_None h) as F. rewrite E in F. congruence.
Qed.

(** *** setMath *)

Lemma setMath_ill_formed_run h this (c : SedComputeChange) m (ast : ASTNode) :
  h !! this = Some (CComputeChange c) →
  mMath c ≠ Some m →
  h !! m = Some (CMath ast) →
  isWellFormedASTNode ast = false →
  SedComputeChange__setMath this (Some m) h = Done LIBSEDML_INVALID_OBJECT h.
Proof.
  intros Hc Hne Hm Hwf. unfold SedComputeChange__setMath. mrun.
  destruct (decide (mMath c = Some m)) as [|_]; [contradiction|].
  mrun. rewrite Hwf. reflexivity.
Qed.

(** C3: [setMath] with a non-null expression that is not well-formed, and
    is not the tree already stored, returns LIBSEDML_INVALID_OBJECT and
    leaves the whole store as it was; [isSetMath] and [getMath] therefore
    answer after the failed call what they answer before it. *)
Theorem setMath_ill_formed_rejected h this (c : SedComputeChange) m (ast : ASTNode) :
  h !! this = Some (CComputeChange c) →
  mMath c ≠ Some m →
  h !! m = Some (CMath ast) →
  isWellFormedASTNode ast = false →
  SedComputeChange__setMath this (Some m) h = Done LIBSEDML_INVALID_OBJECT h ∧
  (SedComputeChange__setMath this (Some m) ≫= λ _, SedComputeChange__isSetMath this) h
    = SedComputeChange__isSetMath this h ∧
  (SedComputeChange__setMath this (Some m) ≫= λ _, SedComputeChange__getMath this) h
    = SedComputeChange__getMath this h ∧
  SedComputeChange__getMath this h = Done (mMath c) h.
Proof.
  intros Hc Hne Hm Hwf.
  pose proof (setMath_ill_formed_run _ _ _ _ _ Hc Hne Hm Hwf) as Hrun.
  split_and!.
  - exact Hrun.
  - rewrite bind_run, Hrun. reflexivity.
  - rewrite bind_run, Hrun. reflexivity.
  - unfold SedComputeChange__getMath. mrun. reflexivity.
Qed.



(** *** writeElements *)

Lemma write_items_run {B} k items es (stream : XMLOutputStream B) h :
  items_at h k items = Some es →
  write_items k items stream h = Done (stream ++ map (EvItem k) es) h.
Proof.
  revert es stream. induction items as [|a items IH]; intros es stream.
  - intros [= <-]. cbn. by rewrite app_nil_r.
  - intros (e & es' & Ha & Hl & ->)%items_at_cons.
    cbn [write_items]. mrun. rewrite (IH _ _ Hl).
    cbn. by rewrite <- app_assoc.
Qed.

Lemma SedListOf_write_run {B} k (l : SedListOf) es (stream : XMLOutputStream B) h :
  items_at h k (mItems l) = Some es →
  SedListOf_write k l stream h =
  Done (stream ++ [EvStartElement (listOf_name k)] ++ map (EvItem k) es
          ++ [EvEndElement (listOf_name k)]) h.
Proof.
  intros Hl. unfold SedListOf_write. mrun.
  rewrite (write_items_run _ _ _ _ _ Hl). cbn [ret].
  by rewrite <- !app_assoc.
Qed.

(** The guarded call of [write] in [writeElements]. *)
Lemma guarded_write_run {B} k (l : SedListOf) es (stream : XMLOutputStream B) h :
  items_at h k (mItems l) = Some es →
  (if decide (0 < size l) then SedListOf_write k l stream else ret stream) h
  = Done (stream ++ wrapper_events k es) h.
Proof.
  intros Hl. pose proof (items_at_length _ _ _ _ Hl) as Hlen. unfold size.
  destruct (decide (0 < length (mItems l))) as [Hpos|Hzero].
  - rewrite (SedListOf_write_run _ _ _ _ _ Hl).
    destruct es as [|e es]; [cbn in Hlen; lia | reflexivity].
  - destruct es as [|e es]; [|cbn in Hlen; lia].
    cbn. by rewrite app_nil_r.
Qed.

Lemma cc_view_inv h (c : SedComputeChange) v :
  cc_view h c = Some v →
  items_at h KVariable (mItems (mVariable c)) = Some (v_variables v) ∧
  items_at h KParameter (mItems (mParameter c)) = Some (v_parameters v) ∧
  math_at h (mMath c) = Some (v_math v).
Proof.
  unfold cc_view.
  destruct (items_at h KVariable _) as [vs|]; [|discriminate].
  destruct (items_at h KParameter _) as [ps|]; [|discriminate].
  destruct (math_at h _) as [m|]; [|discriminate].
  cbn. intros [= <-]. done.
Qed.

Lemma cc_view_intro h (c : SedComputeChange) vs ps m :
  items_at h KVariable (mItems (mVariable c)) = Some vs →
  items_at h KParameter (mItems (mParameter c)) = Some ps →
  math_at h (mMath c) = Some m →
  cc_view h c = Some {| v_variables := vs; v_parameters := ps; v_math := m |}.
Proof. unfold cc_view. by intros -> -> ->. Qed.

Lemma math_at_Some_inv h (p : option addr) (t : ASTNode) :
  math_at h p = Some (Some t) → ∃ a, p = Some a ∧ h !! a = Some (CMath t).
Proof.
  destruct p as [a|]; [|discriminate]. cbn.
  destruct (h !! a) as [[| m | |]|] eqn:E; try discriminate.
  intros [= ->]. eauto.
Qed.

Lemma math_at_None_inv h (p : option addr) :
  math_at h p = Some None → p = None.
Proof.
  destruct p as [a|]; [|done]. cbn.
  destruct (h !! a) as [[| m | |]|]; discriminate.
Qed.

Lemma SedComputeChange__writeElements_run h this (c : SedComputeChange) v stream :
  h !! this = Some (CComputeChange c) →
  cc_view h c = Some v →
  SedComputeChange__writeElements this stream h =
  Done (stream ++ cc_elements (cc_super c) v) h.
Proof.
  intros Hc (Hvs & Hps & Hm)%cc_view_inv.
  unfold SedComputeChange__writeElements, SedComputeChange__getNumVariables,
    SedComputeChange__getNumParameters, SedComputeChange__isSetMath,
    SedComputeChange__getMath, super_writeElements.
  mrun. rewrite (guarded_write_run _ _ _ _ _ Hvs).
  mrun. rewrite (guarded_write_run _ _ _ _ _ Hps).
  mrun. unfold cc_elements.
  destruct (v_math v) as [t|] eqn:Ev.
  - apply math_at_Some_inv in Hm as (a & Ea & Ha). rewrite Ea.
    rewrite (bool_decide_eq_true_2 (Some a ≠ None)) by done.
    rewrite (bool_decide_eq_true_2 (true = true)) by done.
    mrun. unfold writeMathML. rewrite Ea. mrun. cbn [math_events].
    by rewrite <- !app_assoc.
  - apply math_at_None_inv in Hm. rewrite Hm.
    rewrite (bool_decide_eq_false_2 (None ≠ None)) by (intros E; by apply E).
    rewrite (bool_decide_eq_false_2 (false = true)) by done.
    cbn [ret math_events]. by rewrite <- !app_assoc, app_nil_r.
Qed.

Lemma SedPlot2D__writeElements_run h this (p : SedPlot2D) cs stream :
  h !! this = Some (CPlot2D p) →
  items_at h KCurve (mItems (mCurve p)) = Some cs →
  SedPlot2D__writeElements this stream h =
  Done (stream ++ pd_elements (pd_super p) cs) h.
Proof.
  intros Hp Hcs.
  unfold SedPlot2D__writeElements, SedPlot2D__getNumCurves, super_writeElements.
  mrun. rewrite (guarded_write_run _ _ _ _ _ Hcs).
  unfold pd_elements. by rewrite <- !app_assoc.
Qed.

Lemma wrapper_events_empty {B} k (es : list SedItem) :
  length es = 0 → wrapper_events (B := B) k es = [].
Proof. by destruct es. Qed.

Lemma wrapper_events_start {B} k k' (es : list SedItem) :
  EvStartElement (listOf_name k') ∈ wrapper_events (B := B) k es →
  k' = k ∧ es ≠ [].
Proof.
  destruct es as [|e es]; [by intros ?%elem_of_nil|].
  unfold wrapper_events.
  intros [E|[(x & E & _)%list_elem_of_fmap|E%list_elem_of_singleton]%elem_of_app]%elem_of_cons;
    try discriminate.
  split; [|done]. injection E as E. by destruct k, k'.
Qed.

Lemma start_in_cc_elements (b : SedChange) v k :
  EvStartElement (listOf_name k) ∈ cc_elements b v →
  (k = KVariable ∧ v_variables v ≠ []) ∨ (k = KParameter ∧ v_parameters v ≠ []).
Proof.
  unfold cc_elements.
  intros [E%list_elem_of_singleton|[Hin|[Hin|Hin]%elem_of_app]%elem_of_app]%elem_of_app.
  - discriminate.
  - left. by apply wrapper_events_start in Hin.
  - right. by apply wrapper_events_start in Hin.
  - destruct (v_math v); cbn in Hin.
    + apply list_elem_of_singleton in Hin. discriminate.
    + by apply elem_of_nil in Hin.
Qed.

(** C4: [writeElements] appends to the stream, in this order, what the
    superclass writes, the wrapper of each collection that holds at least
    one element (variables before parameters; curves for a plot), and the
    expression, last, when it is set.  A collection without children puts
    no wrapper element on the stream. *)
Theorem writeElements_order_and_omission :
  (∀ h this (c : SedComputeChange) v stream,
     h !! this = Some (CComputeChange c) →
     cc_view h c = Some v →
     SedComputeChange__writeElements this stream h
       = Done (stream ++ [EvSuperElements (cc_super c)]
                 ++ wrapper_events KVariable (v_variables v)
                 ++ wrapper_events KParameter (v_parameters v)
                 ++ math_events (v_math v)) h ∧
     (size (mVariable c) = 0 →
        wrapper_events (B := SedChange) KVariable (v_variables v) = [] ∧
        EvStartElement (listOf_name KVariable) ∉ cc_elements (cc_super c) v) ∧
     (size (mParameter c) = 0 →
        wrapper_events (B := SedChange) KParameter (v_parameters v) = [] ∧
        EvStartElement (listOf_name KParameter) ∉ cc_elements (cc_super c) v) ∧
     (mMath c = None → math_events (B := SedChange) (v_math v) = []) ∧
     (∀ t, v_math v = Some t →
        last (cc_elements (cc_super c) v) = Some (EvMathML t))) ∧
  (∀ h this (p : SedPlot2D) cs stream,
     h !! this = Some (CPlot2D p) →
     items_at h KCurve (mItems (mCurve p)) = Some cs →
     SedPlot2D__writeElements this stream h
       = Done (stream ++ [EvSuperElements (pd_super p)]
                 ++ wrapper_events KCurve cs) h ∧
     (size (mCurve p) = 0 →
        SedPlot2D__writeElements this stream h
          = Done (stream ++ [EvSuperElements (pd_super p)]) h)).
Proof.
  split.
  - intros h this c v stream Hc Hv.
    pose proof (cc_view_inv _ _ _ Hv) as (Hvs & Hps & Hm).
    split_and!.
    + apply (SedComputeChange__writeElements_run _ _ _ _ _ Hc Hv).
    + intros Hz. apply items_at_length in Hvs. unfold size in Hz.
      assert (Hnil : v_variables v = []) by (apply length_zero_iff_nil; lia).
      split; [by rewrite Hnil|].
      intros [[_ Hne]|[E _]]%start_in_cc_elements; [contradiction|discriminate].
    + intros Hz. apply items_at_length in Hps. unfold size in Hz.
      assert (Hnil : v_parameters v = []) by (apply length_zero_iff_nil; lia).
      split; [by rewrite Hnil|].
      intros [[E _]|[_ Hne]]%start_in_cc_elements; [discriminate|contradiction].
    + intros Hn. rewrite Hn in Hm. injection Hm as <-. reflexivity.
    + intros t Ht. unfold cc_elements. rewrite Ht. cbn [math_events].
      rewrite !app_assoc. apply last_snoc.
  - intros h this p cs stream Hp Hcs. split.
    + apply (SedPlot2D__writeElements_run _ _ _ _ _ Hp Hcs).
    + intros Hz. rewrite (SedPlot2D__writeElements_run _ _ _ _ _ Hp Hcs).
      apply items_at_length in Hcs. unfold size in Hz.
      assert (Hnil : cs = []) by (apply length_zero_iff_nil; lia).
      by rewrite Hnil.
Qed.



(** *** readOtherXML *)

Lemma readOtherXML_other_run h this (c : SedComputeChange) stream r b s' :
  h !! this = Some (CComputeChange c) →
  getName (peek stream) ≠ "math" →
  super_readOtherXML (cc_super c) stream = (r, b, s') →
  SedComputeChange__readOtherXML this stream h =
  Done (r, s') (<[this := CComputeChange (cc_with_super b c)]> h).
Proof.
  intros Hc Hname Hsuper. unfold SedComputeChange__readOtherXML.
  destruct (decide (getName (peek stream) = "math")) as [|_]; [contradiction|].
  mrun. rewrite Hsuper. mrun. by destruct r.
Qed.

Lemma delete_math_run h (p : option addr) (m0 : option ASTNode) :
  math_at h p = Some m0 →
  ∃ h', delete_ptr p h = Done tt h' ∧
    (∀ a, p ≠ Some a → h' !! a = h !! a) ∧
    (∀ a c, h' !! a = Some c → h !! a = Some c).
Proof.
  destruct p as [a|]; cbn.
  - destruct (h !! a) as [c|] eqn:E; [|discriminate]. intros _.
    exists (delete a h). split_and!; [done| |].
    + intros b Hb. rewrite lookup_delete_ne; [done|congruence].
    + intros b c' Hb. by apply lookup_delete_Some in Hb as [_ ?].
  - intros _. exists h. done.
Qed.

Lemma readOtherXML_math_run h this (c : SedComputeChange) stream m0
    prefix b1 tree s1 r b2 s2 :
  h !! this = Some (CComputeChange c) →
  math_at h (mMath c) = Some m0 →
  getName (peek stream) = "math" →
  checkMathMLNamespace (cc_super c) (peek stream) = (prefix, b1) →
  readMathML stream prefix = (tree, s1) →
  super_readOtherXML b1 s1 = (r, b2, s2) →
  ∃ h' (c' : SedComputeChange),
    SedComputeChange__readOtherXML this stream h = Done (true, s2) h' ∧
    h' !! this = Some (CComputeChange c') ∧
    cc_super c' = b2 ∧
    math_at h' (mMath c') = Some tree ∧
    mVariable c' = mVariable c ∧ mParameter c' = mParameter c.
Proof.
  intros Hc Hm Hname Hcheck Hread Hsuper. unfold SedComputeChange__readOtherXML.
  destruct (decide (getName (peek stream) = "math")) as [_|]; [|contradiction].
  mrun. rewrite Hcheck. mrun.
  set (h1 := <[this := CComputeChange (cc_with_super b1 c)]> h).
  assert (Hm1 : math_at h1 (mMath c) = Some m0).
  { eapply math_at_agree; [|exact Hm]. intros a Ea. unfold h1.
    rewrite lookup_insert_ne; [done|]. intros <-.
    rewrite Ea in Hm. cbn in Hm. by rewrite Hc in Hm. }
  destruct (delete_math_run _ _ _ Hm1) as (h2 & Hdel & Hframe & _).
  cbn [cc_with_super mMath]. rewrite Hdel.
  assert (Hthis2 : h2 !! this = Some (CComputeChange (cc_with_super b1 c))).
  { rewrite Hframe; [apply lookup_insert_eq|]. intros Ea.
    rewrite Ea in Hm. cbn in Hm. by rewrite Hc in Hm. }
  rewrite Hread. destruct tree as [m|].
  - mrun. cbn [cc_with_mMath cc_with_super cc_super]. rewrite Hsuper. mrun.
    eexists _, _. split_and!; [by destruct r|apply lookup_insert_eq|done| |done|done].
    cbn. assert (Hq : fresh (dom h2) ≠ this).
    { intros E. pose proof (fresh_None h2) as F. rewrite E in F. congruence. }
    rewrite !lookup_insert_ne by done. by rewrite lookup_insert_eq.
  - mrun. cbn [cc_with_mMath cc_with_super cc_super]. rewrite Hsuper. mrun.
    eexists _, _. split_and!; [by destruct r|apply lookup_insert_eq|done..].
Qed.

(** C7: [readOtherXML] returns the OR of the local recognition (the next
    tag is "math") and of what the superclass handler returns.  The
    superclass handler is run in both cases, on the stream and superclass
    state the local step left behind, and its effects (the remaining stream
    and the superclass state) are those of the whole call; when the tag is
    "math" the expression read is the one stored. *)
Theorem readOtherXML_or_combined h this (c : SedComputeChange) stream m0 :
  h !! this = Some (CComputeChange c) →
  math_at h (mMath c) = Some m0 →
  let local := bool_decide (getName (peek stream) = "math") in
  let checked := checkMathMLNamespace (cc_super c) (peek stream) in
  let parsed := readMathML stream (fst checked) in
  let b_mid := if local then snd checked else cc_super c in
  let s_mid := if local then snd parsed else stream in
  let super_result := super_readOtherXML b_mid s_mid in
  ∃ h' (c' : SedComputeChange),
    SedComputeChange__readOtherXML this stream h
      = Done (local || super_result.1.1, super_result.2) h' ∧
    h' !! this = Some (CComputeChange c') ∧
    cc_super c' = super_result.1.2 ∧
    (local = true → math_at h' (mMath c') = Some (fst parsed)) ∧
    (local = false → mMath c' = mMath c ∧ ∀ a, a ≠ this → h' !! a = h !! a).
Proof.
  intros Hc Hm local checked parsed b_mid s_mid super_result.
  destruct (decide (getName (peek stream) = "math")) as [Hname|Hname].
  - assert (Hl : local = true) by (by apply bool_decide_eq_true_2).
    subst b_mid s_mid super_result. rewrite Hl.
    destruct checked as [prefix b1] eqn:Hcheck.
    destruct parsed as [tree s1] eqn:Hread. cbn [fst snd] in *.
    destruct (super_readOtherXML b1 s1) as [[r b2] s2] eqn:Hsuper.
    destruct (readOtherXML_math_run _ _ _ _ _ _ _ _ _ _ _ _
                Hc Hm Hname Hcheck Hread Hsuper)
      as (h' & c' & Hrun & Hthis & Hb & Hmath & _).
    exists h', c'. cbn. split_and!; try done.
  - assert (Hl : local = false) by (by apply bool_decide_eq_false_2).
    subst b_mid s_mid super_result. rewrite Hl.
    destruct (super_readOtherXML (cc_super c) stream) as [[r b] s'] eqn:Hsuper.
    eexists _, _. split_and!.
    + apply (readOtherXML_other_run _ _ _ _ _ _ _ Hc Hname Hsuper).
    + apply lookup_insert_eq.
    + reflexivity.
    + discriminate.
    + intros _. split; [reflexivity|]. intros a Ha. by rewrite lookup_insert_ne.
Qed.


(** *** The C API on a null handle *)

Create HintDb accessors discriminated.

#[local] Hint Unfold
  SedComputeChange__getMath SedComputeChange__isSetMath
  SedComputeChange__createVariable SedComputeChange__createParameter
  SedComputeChange__getListOfVariables SedComputeChange__getListOfParameters
  SedComputeChange__getVariable SedComputeChange__getVariableById
  SedComputeChange__getParameter SedComputeChange__getParameterById
  SedComputeChange__getNumVariables SedComputeChange__getNumParameters
  SedComputeChange__removeVariable SedComputeChange__removeVariableById
  SedComputeChange__removeParameter SedComputeChange__removeParameterById
  SedComputeChange__hasRequiredAttributes SedComputeChange__hasRequiredElements
  SedPlot2D__createCurve SedPlot2D__getListOfCurves SedPlot2D__getCurve
  SedPlot2D__getCurveById SedPlot2D__getNumCurves SedPlot2D__removeCurve
  SedPlot2D__removeCurveById SedPlot2D__hasRequiredAttributes
  SedPlot2D__hasRequiredElements
  : accessors.


(** *** Assignment of collections *)

Lemma evolves_refl h : evolves [] h h.
Proof. intros a c Ha _. exact Ha. Qed.

Lemma evolves_trans (D1 D2 : list addr) h1 h2 h3 :
  evolves D1 h1 h2 → evolves D2 h2 h3 → evolves (D1 ++ D2) h1 h3.
Proof.
  intros H12 H23 a c Ha Hn. apply not_elem_of_app in Hn as [Hn1 Hn2]. eauto.
Qed.

Lemma evolves_weaken (D D' : list addr) h h' :
  evolves D h h' → (∀ a, a ∈ D → a ∈ D') → evolves D' h h'.
Proof. intros Hev Hsub a c Ha Hn. apply Hev; [done|]. intros Hin. eauto. Qed.

Lemma evolves_insert h a (c : cell) : evolves [a] h (<[a := c]> h).
Proof.
  intros b cb Hb Hn. rewrite lookup_insert_ne; [done|].
  intros ->. apply Hn. left.
Qed.

Lemma evolves_items_at (D : list addr) h h' k l es :
  evolves D h h' → Forall (λ a, a ∉ D) l →
  items_at h k l = Some es → items_at h' k l = Some es.
Proof.
  intros Hev. revert es. induction l as [|a l IH]; intros es Hd; [done|].
  apply Forall_cons in Hd as [Ha Hd].
  intros (e & es' & Hc & Hl & ->)%items_at_cons.
  apply items_at_cons. exists e, es'. split_and!; eauto.
Qed.

Lemma evolves_math_at (D : list addr) h h' (p : option addr) m :
  evolves D h h' → (∀ a, p = Some a → a ∉ D) →
  math_at h p = Some m → math_at h' p = Some m.
Proof.
  intros Hev Hd. destruct p as [a|]; [|done]. cbn.
  destruct (h !! a) as [[| t | |]|] eqn:E; try discriminate.
  rewrite (Hev _ _ E); [done|]. by apply Hd.
Qed.

Lemma items_at_Forall_live h k l es :
  items_at h k l = Some es → Forall (λ a, is_Some (h !! a)) l.
Proof.
  intros Hl. apply Forall_forall. intros a Ha.
  destruct (items_at_live _ _ _ _ _ Hl Ha) as [e He]. eauto.
Qed.

Lemma SedListOf_assign_spec k (lhs rhs : SedListOf) es h :
  NoDup (mItems lhs) →
  Forall (λ a, is_Some (h !! a)) (mItems lhs) →
  Forall (λ a, a ∉ mItems lhs) (mItems rhs) →
  items_at h k (mItems rhs) = Some es →
  ∃ ps h',
    SedListOf_assign k lhs rhs h =
      Done {| mItems := ps; mParentSedObject := mParentSedObject rhs |} h' ∧
    items_at h' k ps = Some es ∧
    NoDup ps ∧
    Forall (λ p, h !! p = None ∨ p ∈ mItems lhs) ps ∧
    evolves (mItems lhs) h h'.
Proof.
  intros Hnd Hlive Hdisj Hrhs.
  destruct (delete_items_spec _ _ Hnd Hlive) as (h1 & Hdel & Hgone & Hframe).
  assert (Hrhs1 : items_at h1 k (mItems rhs) = Some es).
  { eapply items_at_agree; [|exact Hrhs]. intros a Ha. apply Hframe.
    rewrite Forall_forall in Hdisj. by apply Hdisj. }
  destruct (clone_items_spec _ _ _ _ Hrhs1)
    as (ps & h' & Hrun & Hsub & Hps & Hfresh & Hndps & Hframe').
  exists ps, h'. split_and!; try done.
  - unfold SedListOf_assign. rewrite bind_run, Hdel, bind_run, Hrun. reflexivity.
  - eapply Forall_impl; [exact Hfresh|]. cbn. intros p Hp.
    destruct (decide (p ∈ mItems lhs)) as [|Hn]; [by right|left].
    by rewrite <- Hframe.
  - intros a c Ha Hn. eapply lookup_weaken; [|exact Hsub].
    by rewrite Hframe.
Qed.

(** *** connectToChild *)

Lemma SedComputeChange__connectToChild_run h this (c : SedComputeChange) :
  h !! this = Some (CComputeChange c) →
  SedComputeChange__connectToChild this h =
  Done tt
    (<[this := CComputeChange
         {| cc_super := super_connectToChild (cc_super c);
            mVariable := connectToParent (mVariable c) this;
            mParameter := connectToParent (mParameter c) this;
            mMath := mMath c |}]> h).
Proof.
  intros Hc. unfold SedComputeChange__connectToChild. mrun.
  rewrite !insert_insert_eq. reflexivity.
Qed.

Lemma SedPlot2D__connectToChild_run h this (p : SedPlot2D) :
  h !! this = Some (CPlot2D p) →
  SedPlot2D__connectToChild this h =
  Done tt
    (<[this := CPlot2D
         {| pd_super := super_connectToChild (pd_super p);
            mCurve := connectToParent (mCurve p) this |}]> h).
Proof.
  intros Hp. unfold SedPlot2D__connectToChild. mrun.
  rewrite !insert_insert_eq. reflexivity.
Qed.



(** *** The member assignments of the copy operations *)

Lemma evolves_dead (D : list addr) h h' a :
  evolves D h h' → h' !! a = None → h !! a = None ∨ a ∈ D.
Proof.
  intros Hev Ha. destruct (decide (a ∈ D)) as [|Hn]; [by right|left].
  destruct (h !! a) as [c|] eqn:E; [|done].
  rewrite (Hev _ _ E Hn) in Ha. discriminate.
Qed.

Lemma items_at_not_elem h k l es a (c : cell) :
  items_at h k l = Some es → h !! a = Some c →
  (∀ e, c ≠ CItem k e) → a ∉ l.
Proof.
  intros Hl Ha Hc Hin.
  destruct (items_at_live _ _ _ _ _ Hl Hin) as [e He].
  rewrite He in Ha. injection Ha as <-. by eapply Hc.
Qed.

Ltac elems :=
  repeat first
    [ rewrite elem_of_app | rewrite elem_of_cons | rewrite elem_of_nil
    | match goal with HD : ∀ a, a ∈ ?D ↔ _ |- _ => rewrite HD end ];
  try tauto.

Lemma cc_owned_elem (c : SedComputeChange) a :
  a ∈ cc_owned c ↔
  a ∈ mItems (mVariable c) ∨ a ∈ mItems (mParameter c) ∨ mMath c = Some a.
Proof.
  unfold cc_owned. rewrite !elem_of_app.
  destruct (mMath c) as [p|]; cbn.
  - rewrite list_elem_of_singleton. intuition congruence.
  - rewrite elem_of_nil. intuition congruence.
Qed.

Lemma SedComputeChange__copy_members_spec h this r (c0 c : SedComputeChange)
    v vs0 ps0 :
  h !! this = Some (CComputeChange c0) →
  h !! r = Some (CComputeChange c) →
  r ≠ this →
  cc_view h c = Some v →
  items_at h KVariable (mItems (mVariable c0)) = Some vs0 →
  items_at h KParameter (mItems (mParameter c0)) = Some ps0 →
  NoDup (mItems (mVariable c0)) →
  NoDup (mItems (mParameter c0)) →
  Forall (λ a, a ∉ mItems (mVariable c0) ++ mItems (mParameter c0)) (cc_owned c) →
  ∃ h' (c' : SedComputeChange),
    SedComputeChange__copy_members this r h = Done tt h' ∧
    h' !! this = Some (CComputeChange c') ∧
    cc_super c' = cc_super c0 ∧
    mParentSedObject (mVariable c') = mParentSedObject (mVariable c) ∧
    mParentSedObject (mParameter c') = mParentSedObject (mParameter c) ∧
    cc_view h' c' = Some v ∧
    evolves (this :: mItems (mVariable c0) ++ mItems (mParameter c0)) h h' ∧
    Forall (λ p, h !! p = None ∨
                 p ∈ mItems (mVariable c0) ++ mItems (mParameter c0))
           (cc_owned c').
Proof.
  intros Hthis Hr Hne Hv Hvs0 Hps0 Hndv Hndp Hdisj.
  pose proof (cc_view_inv _ _ _ Hv) as (Hvs & Hps & Hm).
  destruct v as [vvs vps vm]. cbn [v_variables v_parameters v_math] in *.
  set (D := mItems (mVariable c0) ++ mItems (mParameter c0)) in *.
  rewrite Forall_forall in Hdisj.
  (* what the collections of [this] may and may not contain *)
  assert (Hthis_v : this ∉ mItems (mVariable c0))
    by (eapply items_at_not_elem; [exact Hvs0|exact Hthis|discriminate]).
  assert (Hthis_p : this ∉ mItems (mParameter c0))
    by (eapply items_at_not_elem; [exact Hps0|exact Hthis|discriminate]).
  assert (Hr_v : r ∉ mItems (mVariable c0))
    by (eapply items_at_not_elem; [exact Hvs0|exact Hr|discriminate]).
  assert (Hr_p : r ∉ mItems (mParameter c0))
    by (eapply items_at_not_elem; [exact Hps0|exact Hr|discriminate]).
  assert (Hvp : ∀ a, a ∈ mItems (mParameter c0) → a ∉ mItems (mVariable c0)).
  { intros a Ha. destruct (items_at_live _ _ _ _ _ Hps0 Ha) as [e He].
    eapply items_at_not_elem; [exact Hvs0|exact He|]. intros e' [=]. }
  assert (HD : ∀ a, a ∈ D ↔ a ∈ mItems (mVariable c0) ∨ a ∈ mItems (mParameter c0))
    by (intros a; apply elem_of_app).
  (* mVariable = rhs.mVariable *)
  destruct (SedListOf_assign_spec KVariable (mVariable c0) (mVariable c)
              vvs h)
    as (ps & h1 & Hrun1 & Hat1 & Hnd1 & Hfresh1 & Hev1); try done.
  { eapply items_at_Forall_live; eauto. }
  { apply Forall_forall. intros a Ha Hin.
    apply (Hdisj a); [apply cc_owned_elem; auto | apply HD; auto]. }
  set (c1 := cc_with_mVariable
               {| mItems := ps; mParentSedObject := mParentSedObject (mVariable c) |} c0).
  set (h2 := <[this := CComputeChange c1]> h1).
  assert (Hev2 : evolves (this :: mItems (mVariable c0)) h h2).
  { eapply evolves_weaken; [exact (evolves_trans _ _ _ _ _ Hev1 (evolves_insert h1 this _))|].
    intros a [Ha|Ha%list_elem_of_singleton]%elem_of_app;
      [by right | subst; left]. }
  assert (Hr2 : h2 !! r = Some (CComputeChange c)).
  { apply Hev2; [done|]. apply not_elem_of_cons. done. }
  (* mParameter = rhs.mParameter *)
  destruct (SedListOf_assign_spec KParameter (mParameter c0) (mParameter c)
              vps h2)
    as (qs & h3 & Hrun3 & Hat3 & Hnd3 & Hfresh3 & Hev3); try done.
  { apply Forall_forall. intros a Ha.
    destruct (items_at_live _ _ _ _ _ Hps0 Ha) as [e He].
    exists (CItem KParameter e). apply Hev2; [done|].
    apply not_elem_of_cons. split; [congruence | by apply Hvp]. }
  { apply Forall_forall. intros a Ha Hin.
    apply (Hdisj a); [apply cc_owned_elem; auto | apply HD; auto]. }
  { eapply evolves_items_at; [exact Hev2| |exact Hps].
    apply Forall_forall. intros a Ha. apply not_elem_of_cons. split.
    - destruct (items_at_live _ _ _ _ _ Hps Ha) as [e He]. congruence.
    - intros Hin. apply (Hdisj a); [apply cc_owned_elem; auto | apply HD; auto]. }
  assert (Hthis3 : h3 !! this = Some (CComputeChange c1)).
  { apply Hev3; [apply lookup_insert_eq | done]. }
  set (c2 := cc_with_mParameter
               {| mItems := qs; mParentSedObject := mParentSedObject (mParameter c) |} c1).
  set (h4 := <[this := CComputeChange c2]> h3).
  assert (Hev4 : evolves (this :: D) h h4).
  { eapply evolves_weaken;
      [exact (evolves_trans _ _ _ _ _ Hev2
                (evolves_trans _ _ _ _ _ Hev3 (evolves_insert h3 this _)))|].
    intros a. elems. }
  assert (Hr4 : h4 !! r = Some (CComputeChange c)).
  { apply Hev4; [done|]. apply not_elem_of_cons. split; [done|].
    rewrite HD. tauto. }
  (* the new children are neither [this] nor each other *)
  assert (Hps_this : this ∉ ps).
  { intros Hin. rewrite Forall_forall in Hfresh1.
    destruct (Hfresh1 _ Hin) as [E|E]; [congruence|contradiction]. }
  assert (Hqs_this : this ∉ qs).
  { intros Hin. rewrite Forall_forall in Hfresh3.
    destruct (Hfresh3 _ Hin) as [E|E]; [|contradiction].
    unfold h2 in E. by rewrite lookup_insert_eq in E. }
  assert (Hps2 : items_at h2 KVariable ps = Some vvs).
  { eapply evolves_items_at; [apply (evolves_insert h1 this)| |exact Hat1].
    apply Forall_forall. intros a Ha ->%list_elem_of_singleton. contradiction. }
  assert (Hps4 : items_at h4 KVariable ps = Some vvs).
  { eapply evolves_items_at;
      [exact (evolves_trans _ _ _ _ _ Hev3 (evolves_insert h3 this _))| |exact Hps2].
    apply Forall_forall. intros a Ha.
    rewrite not_elem_of_app, list_elem_of_singleton. split; [|congruence].
    intros Hin. rewrite Forall_forall in Hfresh1.
    destruct (items_at_live _ _ _ _ _ Hps0 Hin) as [e He].
    destruct (Hfresh1 _ Ha) as [E|E]; [congruence|]. by eapply Hvp. }
  assert (Hqs4 : items_at h4 KParameter qs = Some vps).
  { eapply evolves_items_at; [apply (evolves_insert h3 this)| |exact Hat3].
    apply Forall_forall. intros a Ha ->%list_elem_of_singleton. contradiction. }
  assert (Hfresh_ps : Forall (λ p, h !! p = None ∨ p ∈ D) ps).
  { eapply Forall_impl; [exact Hfresh1|]. cbn. intros p [E|E]; [by left|right].
    apply HD. auto. }
  assert (Hfresh_qs : Forall (λ p, h !! p = None ∨ p ∈ D) qs).
  { apply Forall_forall. intros q Hq. rewrite Forall_forall in Hfresh3.
    destruct (Hfresh3 _ Hq) as [E|E]; [|right; apply HD; auto].
    destruct (evolves_dead _ _ _ _ Hev2 E) as [E'|[->|E']%elem_of_cons];
      [by left | contradiction | right; apply HD; auto]. }
  (* mMath = rhs.mMath != NULL ? rhs.mMath->deepCopy() : NULL *)
  unfold SedComputeChange__copy_members.
  rewrite bind_run, (load_cc_run _ _ _ Hthis).
  rewrite bind_run, (load_cc_run _ _ _ Hr).
  rewrite bind_run, Hrun1. rewrite bind_run, store_cc_run. fold c1 h2.
  rewrite bind_run, (load_cc_run h2 this c1) by apply lookup_insert_eq.
  rewrite bind_run, (load_cc_run _ _ _ Hr2).
  change (mParameter c1) with (mParameter c0).
  rewrite bind_run, Hrun3. rewrite bind_run, store_cc_run. fold c2 h4.
  rewrite bind_run, (load_cc_run _ _ _ Hr4).
  destruct vm as [t|].
  - apply math_at_Some_inv in Hm as (p & Ep & Hp). rewrite Ep.
    assert (Hp4 : h4 !! p = Some (CMath t)).
    { apply Hev4; [done|]. apply not_elem_of_cons. split; [congruence|].
      apply Hdisj, cc_owned_elem. auto. }
    unfold deepCopy. mrun.
    set (q := fresh (dom h4)). set (h5 := <[q := CMath t]> h4).
    assert (Hq4 : h4 !! q = None) by apply fresh_None.
    assert (Hq_this : q ≠ this).
    { intros E. unfold h4 in Hq4. rewrite E, lookup_insert_eq in Hq4. discriminate. }
    rewrite (load_cc_run h5 this c2)
      by (unfold h5, h4; rewrite lookup_insert_ne by done; apply lookup_insert_eq).
    mrun. eexists _, _. split_and!; [reflexivity|apply lookup_insert_eq|done..| | |].
    + apply cc_view_intro; cbn [cc_with_mMath mVariable mParameter mMath c2 c1
        cc_with_mParameter cc_with_mVariable mItems].
      * eapply evolves_items_at;
          [exact (evolves_trans _ _ _ _ _ (evolves_insert h4 q _) (evolves_insert h5 this _))| |
           exact Hps4].
        apply Forall_forall. intros a Ha.
        rewrite not_elem_of_app, !list_elem_of_singleton. split; [|congruence].
        intros ->. destruct (items_at_live _ _ _ _ _ Hps4 Ha) as [e He]. congruence.
      * eapply evolves_items_at;
          [exact (evolves_trans _ _ _ _ _ (evolves_insert h4 q _) (evolves_insert h5 this _))| |
           exact Hqs4].
        apply Forall_forall. intros a Ha.
        rewrite not_elem_of_app, !list_elem_of_singleton. split; [|congruence].
        intros ->. destruct (items_at_live _ _ _ _ _ Hqs4 Ha) as [e He]. congruence.
      * cbn. rewrite lookup_insert_ne by done. unfold h5.
        by rewrite lookup_insert_eq.
    + intros a c' Ha Hn. rewrite lookup_insert_ne.
      * unfold h5. rewrite lookup_insert_ne.
        -- by apply Hev4.
        -- intros <-. pose proof (Hev4 _ _ Ha Hn). congruence.
      * intros <-. apply Hn. left.
    + unfold cc_owned. cbn [cc_with_mMath mVariable mParameter mMath c2 c1
        cc_with_mParameter cc_with_mVariable mItems option_list].
      rewrite !Forall_app. split_and!; [done|done|].
      apply Forall_singleton.
      destruct (evolves_dead _ _ _ _ Hev4 Hq4) as [E|[E|E]%elem_of_cons]; auto.
      contradiction.
  - apply math_at_None_inv in Hm. rewrite Hm. mrun.
    rewrite (load_cc_run h4 this c2) by apply lookup_insert_eq. mrun.
    eexists _, _. split_and!; [reflexivity|apply lookup_insert_eq|done..| | |].
    + apply cc_view_intro; cbn [cc_with_mMath mVariable mParameter mMath c2 c1
        cc_with_mParameter cc_with_mVariable mItems].
      * eapply evolves_items_at; [apply (evolves_insert h4 this)| |exact Hps4].
        apply Forall_forall. intros a Ha ->%list_elem_of_singleton. contradiction.
      * eapply evolves_items_at; [apply (evolves_insert h4 this)| |exact Hqs4].
        apply Forall_forall. intros a Ha ->%list_elem_of_singleton. contradiction.
      * reflexivity.
    + eapply evolves_weaken;
        [exact (evolves_trans _ _ _ _ _ Hev4 (evolves_insert _ this _))|].
      intros a. elems.
    + unfold cc_owned. cbn [cc_with_mMath mVariable mParameter mMath c2 c1
        cc_with_mParameter cc_with_mVariable mItems option_list].
      rewrite app_nil_r, Forall_app. done.
Qed.



Lemma SedPlot2D__copy_members_spec h this r (p0 p : SedPlot2D) cs cs0 :
  h !! this = Some (CPlot2D p0) →
  h !! r = Some (CPlot2D p) →
  r ≠ this →
  items_at h KCurve (mItems (mCurve p)) = Some cs →
  items_at h KCurve (mItems (mCurve p0)) = Some cs0 →
  NoDup (mItems (mCurve p0)) →
  Forall (λ a, a ∉ mItems (mCurve p0)) (mItems (mCurve p)) →
  ∃ h' (p' : SedPlot2D),
    SedPlot2D__copy_members this r h = Done tt h' ∧
    h' !! this = Some (CPlot2D p') ∧
    pd_super p' = pd_super p0 ∧
    mParentSedObject (mCurve p') = mParentSedObject (mCurve p) ∧
    items_at h' KCurve (mItems (mCurve p')) = Some cs ∧
    evolves (this :: mItems (mCurve p0)) h h' ∧
    Forall (λ q, h !! q = None ∨ q ∈ mItems (mCurve p0)) (mItems (mCurve p')).
Proof.
  intros Hthis Hr Hne Hcs Hcs0 Hnd Hdisj.
  assert (Hthis_c : this ∉ mItems (mCurve p0))
    by (eapply items_at_not_elem; [exact Hcs0|exact Hthis|discriminate]).
  destruct (SedListOf_assign_spec KCurve (mCurve p0) (mCurve p) cs h)
    as (qs & h1 & Hrun1 & Hat1 & Hnd1 & Hfresh1 & Hev1); try done.
  { eapply items_at_Forall_live; eauto. }
  assert (Hqs_this : this ∉ qs).
  { intros Hin. rewrite Forall_forall in Hfresh1.
    destruct (Hfresh1 _ Hin) as [E|E]; [congruence|contradiction]. }
  unfold SedPlot2D__copy_members.
  rewrite bind_run, (load_pd_run _ _ _ Hthis).
  rewrite bind_run, (load_pd_run _ _ _ Hr).
  rewrite bind_run, Hrun1. rewrite store_pd_run.
  eexists _, _. split_and!; [reflexivity|apply lookup_insert_eq|done..| | |done].
  - cbn. eapply evolves_items_at; [apply (evolves_insert h1 this)| |exact Hat1].
    apply Forall_forall. intros a Ha ->%list_elem_of_singleton. contradiction.
  - eapply evolves_weaken;
      [exact (evolves_trans _ _ _ _ _ Hev1 (evolves_insert h1 this _))|].
    intros a. elems.
Qed.

(** *** Copy construction and assignment *)

Lemma cc_view_evolves (D : list addr) h h' (c : SedComputeChange) v :
  evolves D h h' → Forall (λ a, a ∉ D) (cc_owned c) →
  cc_view h c = Some v → cc_view h' c = Some v.
Proof.
  intros Hev Hd Hv. pose proof (cc_view_inv _ _ _ Hv) as (Hvs & Hps & Hm).
  destruct v as [vs ps m]. cbn in *.
  unfold cc_owned in Hd. rewrite !Forall_app in Hd. destruct Hd as (Hd1 & Hd2 & Hd3).
  apply cc_view_intro.
  - eapply evolves_items_at; eauto.
  - eapply evolves_items_at; eauto.
  - eapply evolves_math_at; [exact Hev| |exact Hm].
    intros a Ea. rewrite Ea in Hd3. by inversion Hd3.
Qed.

Lemma cc_view_leaf h (c : SedComputeChange) v a :
  cc_view h c = Some v → a ∈ cc_owned c →
  ∃ cell, h !! a = Some cell ∧ is_leaf cell.
Proof.
  intros (Hvs & Hps & Hm)%cc_view_inv [Ha|[Ha|Ha]]%cc_owned_elem.
  - destruct (items_at_live _ _ _ _ _ Hvs Ha) as [e He]. eexists. by split.
  - destruct (items_at_live _ _ _ _ _ Hps Ha) as [e He]. eexists. by split.
  - rewrite Ha in Hm. cbn in Hm.
    destruct (h !! a) as [[| t | |]|]; try discriminate. eexists. by split.
Qed.

Lemma cc_view_not_owned h (c : SedComputeChange) v a (cell : cell) :
  cc_view h c = Some v → h !! a = Some cell → ¬ is_leaf cell → a ∉ cc_owned c.
Proof.
  intros Hv Ha Hleaf Hin.
  destruct (cc_view_leaf _ _ _ _ Hv Hin) as (cell' & E & Hl). congruence.
Qed.

Lemma SedComputeChange__copy_spec h o (c : SedComputeChange) v :
  h !! o = Some (CComputeChange c) →
  cc_view h c = Some v →
  ∃ this h' (c' : SedComputeChange),
    SedComputeChange__copy (Some o) h = Done this h' ∧
    h !! this = None ∧
    h' !! this = Some (CComputeChange c') ∧
    cc_super c' = super_connectToChild (cc_super c) ∧
    linked_cc this c' ∧
    cc_view h' c' = Some v ∧
    h ⊆ h' ∧
    Forall (λ p, h !! p = None) (cc_owned c').
Proof.
  intros Ho Hv.
  set (this := fresh (dom h)).
  assert (Hthis : h !! this = None) by apply fresh_None.
  assert (Hne : o ≠ this) by congruence.
  set (c0 := {| cc_super := cc_super c; mVariable := SedListOf_new;
                mParameter := SedListOf_new; mMath := None |}).
  set (h1 := <[this := CComputeChange c0]> h).
  assert (Hsub1 : h ⊆ h1) by by apply insert_subseteq.
  destruct (SedComputeChange__copy_members_spec h1 this o c0 c v [] [])
    as (h2 & c' & Hrun & Hthis2 & Hsuper & Hpv & Hpp & Hv2 & Hev & Hfresh);
    try done.
  { apply lookup_insert_eq. }
  { eapply lookup_weaken; eauto. }
  { eapply cc_view_evolves; [apply (evolves_insert h this)| |exact Hv].
    apply Forall_forall. intros a Ha ->%list_elem_of_singleton.
    destruct (cc_view_leaf _ _ _ _ Hv Ha) as (cell & E & _). congruence. }
  { constructor. }
  { constructor. }
  { apply Forall_forall. intros a _. cbn. apply not_elem_of_nil. }
  cbn [c0 mVariable mParameter SedListOf_new mItems app] in Hev, Hfresh.
  eexists this, (<[this := CComputeChange
                   {| cc_super := super_connectToChild (cc_super c');
                      mVariable := connectToParent (mVariable c') this;
                      mParameter := connectToParent (mParameter c') this;
                      mMath := mMath c' |}]> h2), _.
  split_and!.
  - unfold SedComputeChange__copy, SedChange__copy. mrun. fold this c0 h1.
    rewrite Hrun. mrun.
    rewrite (SedComputeChange__connectToChild_run _ _ _ Hthis2). reflexivity.
  - done.
  - apply lookup_insert_eq.
  - cbn. by rewrite Hsuper.
  - split; reflexivity.
  - eapply (cc_view_evolves [this] h2); [apply evolves_insert| |exact Hv2].
    apply Forall_forall. intros a Ha ->%list_elem_of_singleton.
    destruct (cc_view_leaf _ _ _ _ Hv2 Ha) as (cell & E & Hl).
    rewrite Hthis2 in E. injection E as <-. exact Hl.
  - apply map_subseteq_spec. intros a cell Ha.
    assert (a ≠ this) by congruence.
    rewrite lookup_insert_ne by done. apply Hev.
    + eapply lookup_weaken; eauto.
    + by rewrite list_elem_of_singleton.
  - unfold cc_owned in *. cbn [mVariable mParameter mMath connectToParent mItems].
    eapply Forall_impl; [exact Hfresh|]. cbn. intros p [E|E].
    + destruct (h !! p) eqn:E'; [|done].
      eapply lookup_weaken in E'; [|exact Hsub1]. congruence.
    + by apply elem_of_nil in E.
Qed.

Lemma SedPlot2D__copy_spec h o (p : SedPlot2D) cs :
  h !! o = Some (CPlot2D p) →
  items_at h KCurve (mItems (mCurve p)) = Some cs →
  ∃ this h' (p' : SedPlot2D),
    SedPlot2D__copy (Some o) h = Done this h' ∧
    h !! this = None ∧
    h' !! this = Some (CPlot2D p') ∧
    pd_super p' = super_connectToChild (pd_super p) ∧
    linked_pd this p' ∧
    items_at h' KCurve (mItems (mCurve p')) = Some cs ∧
    h ⊆ h' ∧
    Forall (λ q, h !! q = None) (mItems (mCurve p')).
Proof.
  intros Ho Hcs.
  set (this := fresh (dom h)).
  assert (Hthis : h !! this = None) by apply fresh_None.
  assert (Hne : o ≠ this) by congruence.
  set (p0 := {| pd_super := pd_super p; mCurve := SedListOf_new |}).
  set (h1 := <[this := CPlot2D p0]> h).
  assert (Hsub1 : h ⊆ h1) by by apply insert_subseteq.
  destruct (SedPlot2D__copy_members_spec h1 this o p0 p cs [])
    as (h2 & p' & Hrun & Hthis2 & Hsuper & Hpc & Hcs2 & Hev & Hfresh);
    try done.
  { apply lookup_insert_eq. }
  { eapply lookup_weaken; eauto. }
  { eapply items_at_weaken; eauto. }
  { constructor. }
  { apply Forall_forall. intros a _. cbn. apply not_elem_of_nil. }
  cbn [p0 mCurve SedListOf_new mItems] in Hev, Hfresh.
  eexists this, (<[this := CPlot2D
                   {| pd_super := super_connectToChild (pd_super p');
                      mCurve := connectToParent (mCurve p') this |}]> h2), _.
  split_and!.
  - unfold SedPlot2D__copy, SedOutput__copy. mrun. fold this p0 h1.
    rewrite Hrun. mrun.
    rewrite (SedPlot2D__connectToChild_run _ _ _ Hthis2). reflexivity.
  - done.
  - apply lookup_insert_eq.
  - cbn. by rewrite Hsuper.
  - reflexivity.
  - cbn. eapply evolves_items_at; [apply (evolves_insert h2 this)| |exact Hcs2].
    apply Forall_forall. intros a Ha ->%list_elem_of_singleton.
    destruct (items_at_live _ _ _ _ _ Hcs2 Ha) as [e He]. congruence.
  - apply map_subseteq_spec. intros a cell Ha.
    assert (a ≠ this) by congruence.
    rewrite lookup_insert_ne by done. apply Hev.
    + eapply lookup_weaken; eauto.
    + by rewrite list_elem_of_singleton.
  - cbn. eapply Forall_impl; [exact Hfresh|]. cbn. intros q [E|E].
    + destruct (h !! q) eqn:E'; [|done].
      eapply lookup_weaken in E'; [|exact Hsub1]. congruence.
    + by apply elem_of_nil in E.
Qed.







(** *** Independence of a copy from its source *)

Lemma view_cc_inv h this v :
  view_cc h this = Some v →
  ∃ c : SedComputeChange, h !! this = Some (CComputeChange c) ∧ cc_view h c = Some v.
Proof.
  unfold view_cc. destruct (h !! this) as [[| |c|]|]; try discriminate. eauto.
Qed.

Lemma view_pd_inv h this cs :
  view_pd h this = Some cs →
  ∃ p : SedPlot2D, h !! this = Some (CPlot2D p) ∧
    items_at h KCurve (mItems (mCurve p)) = Some cs.
Proof.
  unfold view_pd. destruct (h !! this) as [[| | |p]|]; try discriminate. eauto.
Qed.

Lemma view_cc_intro h this (c : SedComputeChange) v :
  h !! this = Some (CComputeChange c) → cc_view h c = Some v →
  view_cc h this = Some v.
Proof. intros Hc Hv. unfold view_cc. by rewrite Hc. Qed.

Lemma view_pd_intro h this (p : SedPlot2D) cs :
  h !! this = Some (CPlot2D p) → items_at h KCurve (mItems (mCurve p)) = Some cs →
  view_pd h this = Some cs.
Proof. intros Hp Hcs. unfold view_pd. by rewrite Hp. Qed.

Lemma owned_cc_eq h this (c : SedComputeChange) :
  h !! this = Some (CComputeChange c) → owned_cc h this = this :: cc_owned c.
Proof. intros Hc. unfold owned_cc. by rewrite Hc. Qed.

Lemma owned_pd_eq h this (p : SedPlot2D) :
  h !! this = Some (CPlot2D p) → owned_pd h this = this :: mItems (mCurve p).
Proof. intros Hp. unfold owned_pd. by rewrite Hp. Qed.

Lemma view_cc_agree h h2 this v :
  view_cc h this = Some v →
  (∀ a, a ∈ owned_cc h this → h2 !! a = h !! a) →
  view_cc h2 this = Some v.
Proof.
  intros (c & Hc & Hv)%view_cc_inv Hag.
  rewrite (owned_cc_eq _ _ _ Hc) in Hag.
  apply (view_cc_intro _ _ c).
  - rewrite Hag; [done|left].
  - pose proof (cc_view_inv _ _ _ Hv) as (Hvs & Hps & Hm).
    destruct v as [vs ps m]. cbn in *. apply cc_view_intro.
    + eapply items_at_agree; [|exact Hvs]. intros a Ha. apply Hag. right.
      apply cc_owned_elem. auto.
    + eapply items_at_agree; [|exact Hps]. intros a Ha. apply Hag. right.
      apply cc_owned_elem. auto.
    + eapply math_at_agree; [|exact Hm]. intros a Ha. apply Hag. right.
      apply cc_owned_elem. auto.
Qed.

Lemma view_pd_agree h h2 this cs :
  view_pd h this = Some cs →
  (∀ a, a ∈ owned_pd h this → h2 !! a = h !! a) →
  view_pd h2 this = Some cs.
Proof.
  intros (p & Hp & Hcs)%view_pd_inv Hag.
  rewrite (owned_pd_eq _ _ _ Hp) in Hag.
  apply (view_pd_intro _ _ p).
  - rewrite Hag; [done|left].
  - eapply items_at_agree; [|exact Hcs]. intros a Ha. apply Hag. by right.
Qed.

Lemma owned_cc_live h this v a :
  view_cc h this = Some v → a ∈ owned_cc h this → is_Some (h !! a).
Proof.
  intros (c & Hc & Hv)%view_cc_inv. rewrite (owned_cc_eq _ _ _ Hc).
  intros [->|Ha]%elem_of_cons; [eauto|].
  destruct (cc_view_leaf _ _ _ _ Hv Ha) as (cell & E & _). eauto.
Qed.

Lemma owned_pd_live h this cs a :
  view_pd h this = Some cs → a ∈ owned_pd h this → is_Some (h !! a).
Proof.
  intros (p & Hp & Hcs)%view_pd_inv. rewrite (owned_pd_eq _ _ _ Hp).
  intros [->|Ha]%elem_of_cons; [eauto|].
  destruct (items_at_live _ _ _ _ _ Hcs Ha) as (e & E). eauto.
Qed.

Lemma SedComputeChange__copy_deep h o v :
  view_cc h o = Some v →
  ∃ p h',
    SedComputeChange__copy (Some o) h = Done p h' ∧
    h !! p = None ∧
    view_cc h' p = Some v ∧
    Forall (λ a, h !! a = None) (owned_cc h' p) ∧
    ∀ h'', agree_outside (owned_cc h' p) h' h'' → view_cc h'' o = Some v.
Proof.
  intros Hview. pose proof (view_cc_inv _ _ _ Hview) as (c & Hc & Hv).
  destruct (SedComputeChange__copy_spec _ _ _ _ Hc Hv)
    as (p & h' & c' & Hrun & Hp & Hp' & _ & _ & Hv' & Hsub & Hfresh).
  exists p, h'.
  assert (Hown : Forall (λ a, h !! a = None) (owned_cc h' p)).
  { rewrite (owned_cc_eq _ _ _ Hp'). by constructor. }
  split_and!; try done.
  - by apply (view_cc_intro _ _ c').
  - intros h'' Hag. apply (view_cc_agree h); [done|].
    intros a Ha. destruct (owned_cc_live _ _ _ _ Hview Ha) as [cell Hcell].
    rewrite Hag.
    + rewrite Hcell. eapply lookup_weaken; eauto.
    + intros Hin. rewrite Forall_forall in Hown. rewrite (Hown _ Hin) in Hcell.
      discriminate.
Qed.

Lemma SedPlot2D__copy_deep h o cs :
  view_pd h o = Some cs →
  ∃ p h',
    SedPlot2D__copy (Some o) h = Done p h' ∧
    h !! p = None ∧
    view_pd h' p = Some cs ∧
    Forall (λ a, h !! a = None) (owned_pd h' p) ∧
    ∀ h'', agree_outside (owned_pd h' p) h' h'' → view_pd h'' o = Some cs.
Proof.
  intros Hview. pose proof (view_pd_inv _ _ _ Hview) as (p0 & Hp0 & Hcs).
  destruct (SedPlot2D__copy_spec _ _ _ _ Hp0 Hcs)
    as (p & h' & p' & Hrun & Hp & Hp' & _ & _ & Hcs' & Hsub & Hfresh).
  exists p, h'.
  assert (Hown : Forall (λ a, h !! a = None) (owned_pd h' p)).
  { rewrite (owned_pd_eq _ _ _ Hp'). by constructor. }
  split_and!; try done.
  - by apply (view_pd_intro _ _ p').
  - intros h'' Hag. apply (view_pd_agree h); [done|].
    intros a Ha. destruct (owned_pd_live _ _ _ _ Hview Ha) as [cell Hcell].
    rewrite Hag.
    + rewrite Hcell. eapply lookup_weaken; eauto.
    + intros Hin. rewrite Forall_forall in Hown. rewrite (Hown _ Hin) in Hcell.
      discriminate.
Qed.

(** C1: for a well-formed [SedComputeChange] or [SedPlot2D] (every pointer
    of it reaches a live object of the right class), [clone] returns a new
    object that shows the same children in the same order and the same
    expression (or none), while every object the clone owns, children and
    expression alike, is new as well: nothing is shared with the original.
    Hence however the store is changed at the addresses the clone owns, the
    original still shows what it showed before. *)
Theorem clone_is_independent_deep_copy :
  (∀ h this v,
     view_cc h this = Some v →
     ∃ p h',
       SedComputeChange__clone this h = Done p h' ∧
       h !! p = None ∧
       view_cc h' p = Some v ∧
       Forall (λ a, h !! a = None) (owned_cc h' p) ∧
       ∀ h'', agree_outside (owned_cc h' p) h' h'' → view_cc h'' this = Some v) ∧
  (∀ h this cs,
     view_pd h this = Some cs →
     ∃ p h',
       SedPlot2D__clone this h = Done p h' ∧
       h !! p = None ∧
       view_pd h' p = Some cs ∧
       Forall (λ a, h !! a = None) (owned_pd h' p) ∧
       ∀ h'', agree_outside (owned_pd h' p) h' h'' → view_pd h'' this = Some cs).
Proof.
  split.
  - intros h this v Hview. apply (SedComputeChange__copy_deep _ _ _ Hview).
  - intros h this cs Hview. apply (SedPlot2D__copy_deep _ _ _ Hview).
Qed.




(** *** The parent-link invariant *)

Lemma rebuilt_refl this h : rebuilt this h h.
Proof. intros a c Ha. auto. Qed.

Lemma rebuilt_trans this h1 h2 h3 :
  rebuilt this h1 h2 → rebuilt this h2 h3 → rebuilt this h1 h3.
Proof.
  intros H12 H23 a c Ha.
  destruct (H23 _ _ Ha) as [?|[?|Ha2]]; auto.
Qed.

Lemma rebuilt_insert_this this h (c : cell) : rebuilt this h (<[this := c]> h).
Proof.
  intros a c' Ha. destruct (decide (a = this)) as [|Hne]; [by left|].
  rewrite lookup_insert_ne in Ha by done. auto.
Qed.

Lemma rebuilt_insert_leaf this h a (c : cell) :
  is_leaf c → rebuilt this h (<[a := c]> h).
Proof.
  intros Hl b c' Hb. destruct (decide (b = a)) as [->|Hne].
  - rewrite lookup_insert_eq in Hb. injection Hb as <-. auto.
  - rewrite lookup_insert_ne in Hb by done. auto.
Qed.

Lemma rebuilt_delete this h a : rebuilt this h (delete a h).
Proof.
  intros b c Hb. apply lookup_delete_Some in Hb as [_ Hb]. auto.
Qed.

Lemma keeps_ret {A} this (x : A) : keeps this (ret x : M heap A).
Proof. intros h y h' [= _ <-]. apply rebuilt_refl. Qed.

Lemma keeps_fault {A} this : keeps this (fault : M heap A).
Proof. intros h y h'. discriminate. Qed.

Lemma keeps_throw {A} this ex : keeps this (throw ex : M heap A).
Proof. intros h y h'. discriminate. Qed.

Lemma keeps_bind {A B} this (m : M heap A) (f : A → M heap B) :
  keeps this m → (∀ x, keeps this (f x)) → keeps this (m ≫= f).
Proof.
  intros Hm Hf h y h' (x & h1 & H1 & H2)%bind_Done_inv.
  eapply rebuilt_trans; [eapply Hm|eapply Hf]; eauto.
Qed.

Lemma keeps_alloc_leaf this (c : cell) : is_leaf c → keeps this (alloc c).
Proof. intros Hl h a h' [= _ <-]. by apply rebuilt_insert_leaf. Qed.

Lemma keeps_delete_ptr this (p : option addr) : keeps this (delete_ptr p : M heap _).
Proof.
  intros h x h'. unfold delete_ptr.
  destruct p as [a|]; [destruct (h !! a)|]; intros E; simplify_eq;
    [apply rebuilt_delete|apply rebuilt_refl].
Qed.

Lemma keeps_load_item this k a : keeps this (load_item k a : M heap _).
Proof.
  intros h x h'. unfold load_item.
  destruct (h !! a) as [[k' e| | |]|]; try discriminate.
  destruct (decide (k' = k)); [|discriminate].
  intros [= _ <-]. apply rebuilt_refl.
Qed.

Lemma keeps_load_math this a : keeps this (load_math a : M heap _).
Proof.
  intros h x h'. unfold load_math.
  destruct (h !! a) as [[| | |]|]; try discriminate.
  intros [= _ <-]. apply rebuilt_refl.
Qed.

Lemma keeps_load_cc this a : keeps this (load_cc a : M heap _).
Proof. intros h x h' [-> _]%load_cc_inv. apply rebuilt_refl. Qed.

Lemma keeps_load_pd this a : keeps this (load_pd a : M heap _).
Proof. intros h x h' [-> _]%load_pd_inv. apply rebuilt_refl. Qed.

Lemma keeps_store_cc this (c : SedComputeChange) :
  keeps this (store_cc this c : M heap _).
Proof.
  intros h x h' E. rewrite store_cc_run in E. simplify_eq.
  apply rebuilt_insert_this.
Qed.

Lemma keeps_store_pd this (p : SedPlot2D) :
  keeps this (store_pd this p : M heap _).
Proof.
  intros h x h' E. rewrite store_pd_run in E. simplify_eq.
  apply rebuilt_insert_this.
Qed.

Create HintDb keeps discriminated.

#[local] Hint Resolve keeps_ret keeps_fault keeps_throw keeps_delete_ptr
  keeps_load_item keeps_load_math keeps_load_cc keeps_load_pd
  keeps_store_cc keeps_store_pd : keeps.

#[local] Hint Extern 1 (keeps _ (alloc (CItem _ _))) =>
  apply keeps_alloc_leaf; exact I : keeps.
#[local] Hint Extern 1 (keeps _ (alloc (CMath _))) =>
  apply keeps_alloc_leaf; exact I : keeps.

Ltac keeps_step :=
  match goal with
  | |- keeps _ (_ ≫= _) => apply keeps_bind; [|intros ?]
  | |- keeps _ (if ?b then _ else _) => destruct b
  | |- keeps _ (match ?x with _ => _ end) => destruct x
  | |- keeps _ (let '(_, _) := ?x in _) => destruct x
  | |- keeps _ _ => solve [auto with keeps]
  end.

Ltac solve_keeps := repeat keeps_step.

Lemma keeps_clone_items this k items :
  keeps this (clone_items k items : M heap _).
Proof.
  induction items as [|a items IH]; cbn [clone_items]; unfold clone_item;
    solve_keeps.
Qed.

Lemma keeps_delete_items this items : keeps this (delete_items items : M heap _).
Proof. induction items as [|a items IH]; cbn [delete_items]; solve_keeps. Qed.

#[local] Hint Resolve keeps_clone_items keeps_delete_items : keeps.

Lemma keeps_cc_copy_members this r :
  keeps this (SedComputeChange__copy_members this r : M heap _).
Proof.
  unfold SedComputeChange__copy_members, SedListOf_assign, deepCopy. solve_keeps.
Qed.

Lemma keeps_pd_copy_members this r :
  keeps this (SedPlot2D__copy_members this r : M heap _).
Proof. unfold SedPlot2D__copy_members, SedListOf_assign. solve_keeps. Qed.

Lemma keeps_cc_connectToChild this :
  keeps this (SedComputeChange__connectToChild this : M heap _).
Proof. unfold SedComputeChange__connectToChild. solve_keeps. Qed.

Lemma keeps_pd_connectToChild this :
  keeps this (SedPlot2D__connectToChild this : M heap _).
Proof. unfold SedPlot2D__connectToChild. solve_keeps. Qed.

#[local] Hint Resolve keeps_cc_copy_members keeps_pd_copy_members
  keeps_cc_connectToChild keeps_pd_connectToChild : keeps.

(** [connectToChild] ends with the collections linked to [this]. *)
Lemma SedComputeChange__connectToChild_links this h h' :
  SedComputeChange__connectToChild this h = Done tt h' →
  ∃ c : SedComputeChange, h' !! this = Some (CComputeChange c) ∧ linked_cc this c.
Proof.
  intros Hrun. pose proof Hrun as Hrun'.
  unfold SedComputeChange__connectToChild in Hrun'.
  apply bind_Done_inv in Hrun' as (c & h1 & [-> Hc]%load_cc_inv & _).
  rewrite (SedComputeChange__connectToChild_run _ _ _ Hc) in Hrun.
  injection Hrun as <-. eexists. split; [apply lookup_insert_eq|]. by split.
Qed.

Lemma SedPlot2D__connectToChild_links this h h' :
  SedPlot2D__connectToChild this h = Done tt h' →
  ∃ p : SedPlot2D, h' !! this = Some (CPlot2D p) ∧ linked_pd this p.
Proof.
  intros Hrun. pose proof Hrun as Hrun'.
  unfold SedPlot2D__connectToChild in Hrun'.
  apply bind_Done_inv in Hrun' as (p & h1 & [-> Hp]%load_pd_inv & _).
  rewrite (SedPlot2D__connectToChild_run _ _ _ Hp) in Hrun.
  injection Hrun as <-. eexists. split; [apply lookup_insert_eq|]. done.
Qed.

Lemma parent_links_rebuilt this h h' :
  rebuilt this h h' →
  (∀ c, h' !! this = Some c → cell_linked this c) →
  parent_links h → parent_links h'.
Proof.
  intros Hre Hthis Hinv a c Ha.
  destruct (Hre _ _ Ha) as [->|[Hl|Hold]].
  - by apply Hthis.
  - by destruct c.
  - by apply (Hinv a).
Qed.

Lemma SedComputeChange__new_run level version h :
  let this := fresh (dom h) in
  SedComputeChange__new level version h =
  Done this
    (<[this := CComputeChange
         {| cc_super :=
              super_connectToChild
                (setSedNamespacesAndOwn (SedNamespaces_new level version)
                   (super_new level version));
            mVariable := connectToParent SedListOf_new this;
            mParameter := connectToParent SedListOf_new this;
            mMath := None |}]> h).
Proof.
  intros this. unfold SedComputeChange__new. mrun. fold this.
  rewrite (SedComputeChange__connectToChild_run _ _ _ (lookup_insert_eq _ _ _)).
  cbn [ret]. rewrite !insert_insert_eq. reflexivity.
Qed.

Lemma SedComputeChange__new_ns_run sedns h :
  let this := fresh (dom h) in
  SedComputeChange__new_ns sedns h =
  Done this
    (<[this := CComputeChange
         {| cc_super :=
              super_connectToChild
                (setElementNamespace (getURI sedns) (super_new_ns sedns));
            mVariable := connectToParent SedListOf_new this;
            mParameter := connectToParent SedListOf_new this;
            mMath := None |}]> h).
Proof.
  intros this. unfold SedComputeChange__new_ns. mrun. fold this.
  rewrite (SedComputeChange__connectToChild_run _ _ _ (lookup_insert_eq _ _ _)).
  cbn [ret]. rewrite !insert_insert_eq. reflexivity.
Qed.

Lemma SedPlot2D__new_run level version h :
  let this := fresh (dom h) in
  SedPlot2D__new level version h =
  Done this
    (<[this := CPlot2D
         {| pd_super :=
              super_connectToChild
                (setSedNamespacesAndOwn (SedNamespaces_new level version)
                   (super_new level version));
            mCurve := connectToParent SedListOf_new this |}]> h).
Proof.
  intros this. unfold SedPlot2D__new. mrun. fold this.
  rewrite (SedPlot2D__connectToChild_run _ _ _ (lookup_insert_eq _ _ _)).
  cbn [ret]. rewrite !insert_insert_eq. reflexivity.
Qed.

Lemma SedPlot2D__new_ns_run sedns h :
  let this := fresh (dom h) in
  SedPlot2D__new_ns sedns h =
  Done this
    (<[this := CPlot2D
         {| pd_super :=
              super_connectToChild
                (setElementNamespace (getURI sedns) (super_new_ns sedns));
            mCurve := connectToParent SedListOf_new this |}]> h).
Proof.
  intros this. unfold SedPlot2D__new_ns. mrun. fold this.
  rewrite (SedPlot2D__connectToChild_run _ _ _ (lookup_insert_eq _ _ _)).
  cbn [ret]. rewrite !insert_insert_eq. reflexivity.
Qed.



Lemma SedComputeChange__copy_links orig h p h' :
  SedComputeChange__copy orig h = Done p h' →
  (∃ c : SedComputeChange, h' !! p = Some (CComputeChange c) ∧ linked_cc p c) ∧
  rebuilt p h h'.
Proof.
  intros Hrun. destruct orig as [o|]; [|discriminate].
  unfold SedComputeChange__copy, SedChange__copy in Hrun.
  apply bind_Done_inv in Hrun as (b & h0 & Hb & Hrun).
  apply bind_Done_inv in Hb as (c0 & h00 & [-> _]%load_cc_inv & Hb).
  injection Hb as _ <-.
  apply bind_Done_inv in Hrun as (this & h1 & Halloc & Hrun).
  rewrite alloc_run in Halloc. injection Halloc as <- <-.
  apply bind_Done_inv in Hrun as ([] & h2 & Hmem & Hrun).
  apply bind_Done_inv in Hrun as ([] & h3 & Hconn & Hrun).
  injection Hrun as <- <-.
  split.
  - apply (SedComputeChange__connectToChild_links _ _ _ Hconn).
  - eapply rebuilt_trans; [apply rebuilt_insert_this|].
    eapply rebuilt_trans; [eapply keeps_cc_copy_members; exact Hmem|].
    eapply keeps_cc_connectToChild; exact Hconn.
Qed.

Lemma SedPlot2D__copy_links orig h p h' :
  SedPlot2D__copy orig h = Done p h' →
  (∃ c : SedPlot2D, h' !! p = Some (CPlot2D c) ∧ linked_pd p c) ∧
  rebuilt p h h'.
Proof.
  intros Hrun. destruct orig as [o|]; [|discriminate].
  unfold SedPlot2D__copy, SedOutput__copy in Hrun.
  apply bind_Done_inv in Hrun as (b & h0 & Hb & Hrun).
  apply bind_Done_inv in Hb as (c0 & h00 & [-> _]%load_pd_inv & Hb).
  injection Hb as _ <-.
  apply bind_Done_inv in Hrun as (this & h1 & Halloc & Hrun).
  rewrite alloc_run in Halloc. injection Halloc as <- <-.
  apply bind_Done_inv in Hrun as ([] & h2 & Hmem & Hrun).
  apply bind_Done_inv in Hrun as ([] & h3 & Hconn & Hrun).
  injection Hrun as <- <-.
  split.
  - apply (SedPlot2D__connectToChild_links _ _ _ Hconn).
  - eapply rebuilt_trans; [apply rebuilt_insert_this|].
    eapply rebuilt_trans; [eapply keeps_pd_copy_members; exact Hmem|].
    eapply keeps_pd_connectToChild; exact Hconn.
Qed.

Lemma keeps_SedChange__assign this r :
  keeps this (SedChange__assign this r : M heap _).
Proof. unfold SedChange__assign. solve_keeps. Qed.

Lemma keeps_SedOutput__assign this r :
  keeps this (SedOutput__assign this r : M heap _).
Proof. unfold SedOutput__assign. solve_keeps. Qed.

Lemma SedComputeChange__assign_links this rhs h p h' :
  SedComputeChange__assign this rhs h = Done p h' →
  p = this ∧
  (rhs = Some this → h' = h) ∧
  (rhs ≠ Some this →
     (∃ c : SedComputeChange, h' !! this = Some (CComputeChange c) ∧ linked_cc this c) ∧
     rebuilt this h h').
Proof.
  intros Hrun. destruct rhs as [r|]; [|discriminate].
  unfold SedComputeChange__assign in Hrun.
  destruct (decide (r ≠ this)) as [Hne|Heq].
  - apply bind_Done_inv in Hrun as ([] & h1 & Hsuper & Hrun).
    apply bind_Done_inv in Hrun as ([] & h2 & Hmem & Hrun).
    apply bind_Done_inv in Hrun as ([] & h3 & Hconn & Hrun).
    injection Hrun as <- <-.
    split_and!; [done|intros [= ->]; contradiction|]. intros _. split.
    + apply (SedComputeChange__connectToChild_links _ _ _ Hconn).
    + eapply rebuilt_trans; [eapply keeps_SedChange__assign; exact Hsuper|].
      eapply rebuilt_trans; [eapply keeps_cc_copy_members; exact Hmem|].
      eapply keeps_cc_connectToChild; exact Hconn.
  - injection Hrun as <- <-.
    split_and!; [done|done|]. intros Hn. exfalso. apply Hn. f_equal.
    destruct (decide (r = this)); [done|contradiction].
Qed.

Lemma SedPlot2D__assign_links this rhs h p h' :
  SedPlot2D__assign this rhs h = Done p h' →
  p = this ∧
  (rhs = Some this → h' = h) ∧
  (rhs ≠ Some this →
     (∃ c : SedPlot2D, h' !! this = Some (CPlot2D c) ∧ linked_pd this c) ∧
     rebuilt this h h').
Proof.
  intros Hrun. destruct rhs as [r|]; [|discriminate].
  unfold SedPlot2D__assign in Hrun.
  destruct (decide (r ≠ this)) as [Hne|Heq].
  - apply bind_Done_inv in Hrun as ([] & h1 & Hsuper & Hrun).
    apply bind_Done_inv in Hrun as ([] & h2 & Hmem & Hrun).
    apply bind_Done_inv in Hrun as ([] & h3 & Hconn & Hrun).
    injection Hrun as <- <-.
    split_and!; [done|intros [= ->]; contradiction|]. intros _. split.
    + apply (SedPlot2D__connectToChild_links _ _ _ Hconn).
    + eapply rebuilt_trans; [eapply keeps_SedOutput__assign; exact Hsuper|].
      eapply rebuilt_trans; [eapply keeps_pd_copy_members; exact Hmem|].
      eapply keeps_pd_connectToChild; exact Hconn.
  - injection Hrun as <- <-.
    split_and!; [done|done|]. intros Hn. exfalso. apply Hn. f_equal.
    destruct (decide (r = this)); [done|contradiction].
Qed.

Lemma parent_links_insert_new h this (c : cell) :
  cell_linked this c → parent_links h → parent_links (<[this := c]> h).
Proof.
  intros Hc. apply parent_links_rebuilt with this; [apply rebuilt_insert_this|].
  intros c'. rewrite lookup_insert_eq. by intros [= <-].
Qed.

(** C8: when a constructor, the copy constructor or the assignment operator
    of [SedComputeChange] or [SedPlot2D] has completed, each collection of
    the object it built or assigned to has that very object as its parent.
    The two constructors always complete.  In a store in which every
    object satisfies the invariant, each of these operations, including the
    assignment of an object to itself (the one case in which
    [connectToChild] is not run), leaves a store in which every object
    satisfies it. *)
Theorem parent_links_after_construction_copy_assignment :
  (∀ level version h,
     ∃ h' (c : SedComputeChange),
       SedComputeChange__new level version h = Done (fresh (dom h)) h' ∧
       h' !! fresh (dom h) = Some (CComputeChange c) ∧
       linked_cc (fresh (dom h)) c ∧
       (parent_links h → parent_links h')) ∧
  (∀ sedns h,
     ∃ h' (c : SedComputeChange),
       SedComputeChange__new_ns sedns h = Done (fresh (dom h)) h' ∧
       h' !! fresh (dom h) = Some (CComputeChange c) ∧
       linked_cc (fresh (dom h)) c ∧
       (parent_links h → parent_links h')) ∧
  (∀ orig h p h',
     SedComputeChange__copy orig h = Done p h' →
     (∃ c : SedComputeChange, h' !! p = Some (CComputeChange c) ∧ linked_cc p c) ∧
     (parent_links h → parent_links h')) ∧
  (∀ this rhs h p h',
     SedComputeChange__assign this rhs h = Done p h' →
     p = this ∧
     (rhs ≠ Some this →
        ∃ c : SedComputeChange,
          h' !! this = Some (CComputeChange c) ∧ linked_cc this c) ∧
     (parent_links h → parent_links h')) ∧
  (∀ level version h,
     ∃ h' (p : SedPlot2D),
       SedPlot2D__new level version h = Done (fresh (dom h)) h' ∧
       h' !! fresh (dom h) = Some (CPlot2D p) ∧
       linked_pd (fresh (dom h)) p ∧
       (parent_links h → parent_links h')) ∧
  (∀ sedns h,
     ∃ h' (p : SedPlot2D),
       SedPlot2D__new_ns sedns h = Done (fresh (dom h)) h' ∧
       h' !! fresh (dom h) = Some (CPlot2D p) ∧
       linked_pd (fresh (dom h)) p ∧
       (parent_links h → parent_links h')) ∧
  (∀ orig h p h',
     SedPlot2D__copy orig h = Done p h' →
     (∃ c : SedPlot2D, h' !! p = Some (CPlot2D c) ∧ linked_pd p c) ∧
     (parent_links h → parent_links h')) ∧
  (∀ this rhs h p h',
     SedPlot2D__assign this rhs h = Done p h' →
     p = this ∧
     (rhs ≠ Some this →
        ∃ c : SedPlot2D, h' !! this = Some (CPlot2D c) ∧ linked_pd this c) ∧
     (parent_links h → parent_links h')).
Proof.
  split_and!.
  - intros level version h. eexists _, _. split_and!.
    + apply SedComputeChange__new_run.
    + apply lookup_insert_eq.
    + by split.
    + apply parent_links_insert_new. by split.
  - intros sedns h. eexists _, _. split_and!.
    + apply SedComputeChange__new_ns_run.
    + apply lookup_insert_eq.
    + by split.
    + apply parent_links_insert_new. by split.
  - intros orig h p h' Hrun.
    destruct (SedComputeChange__copy_links _ _ _ _ Hrun) as [(c & Hc & Hl) Hre].
    split; [eauto|]. apply (parent_links_rebuilt p); [done|].
    intros c'. rewrite Hc. by intros [= <-].
  - intros this rhs h p h' Hrun.
    destruct (SedComputeChange__assign_links _ _ _ _ _ Hrun) as (-> & Hself & Hother).
    split_and!; [done|by intros Hn; apply Hother|].
    destruct (decide (rhs = Some this)) as [E|Hn].
    + by rewrite (Hself E).
    + destruct (Hother Hn) as [(c & Hc & Hl) Hre].
      apply (parent_links_rebuilt this); [done|].
      intros c'. rewrite Hc. by intros [= <-].
  - intros level version h. eexists _, _. split_and!.
    + apply SedPlot2D__new_run.
    + apply lookup_insert_eq.
    + done.
    + by apply parent_links_insert_new.
  - intros sedns h. eexists _, _. split_and!.
    + apply SedPlot2D__new_ns_run.
    + apply lookup_insert_eq.
    + done.
    + by apply parent_links_insert_new.
  - intros orig h p h' Hrun.
    destruct (SedPlot2D__copy_links _ _ _ _ Hrun) as [(c & Hc & Hl) Hre].
    split; [eauto|]. apply (parent_links_rebuilt p); [done|].
    intros c'. rewrite Hc. by intros [= <-].
  - intros this rhs h p h' Hrun.
    destruct (SedPlot2D__assign_links _ _ _ _ _ Hrun) as (-> & Hself & Hother).
    split_and!; [done|by intros Hn; apply Hother|].
    destruct (decide (rhs = Some this)) as [E|Hn].
    + by rewrite (Hself E).
    + destruct (Hother Hn) as [(c & Hc & Hl) Hre].
      apply (parent_links_rebuilt this); [done|].
      intros c'. rewrite Hc. by intros [= <-].
Qed.


(** ** Beyond the specification: the expression *)

Context {R : Type} `{!SuperParser SedChange R, !SuperParser SedOutput R}.

Lemma cc_with_mMath_id (c : SedComputeChange) :
  cc_with_mMath (mMath c) c = c.
Proof. by destruct c. Qed.

Lemma cc_view_agree h h2 (c : SedComputeChange) v :
  cc_view h c = Some v →
  (∀ a, a ∈ cc_owned c → h2 !! a = h !! a) →
  cc_view h2 c = Some v.
Proof.
  intros Hv Hag. destruct v as [vs ps m].
  apply cc_view_inv in Hv as (Hvs & Hps & Hm). cbn in Hvs, Hps, Hm.
  apply cc_view_intro.
  - eapply items_at_agree; [|exact Hvs].
    intros a Ha. apply Hag, cc_owned_elem. tauto.
  - eapply items_at_agree; [|exact Hps].
    intros a Ha. apply Hag, cc_owned_elem. tauto.
  - eapply math_at_agree; [|exact Hm].
    intros a Ha. apply Hag, cc_owned_elem. tauto.
Qed.

Lemma delete_ptr_run h (p : option addr) :
  (∀ a, p = Some a → is_Some (h !! a)) →
  delete_ptr p h = Done tt (from_option (λ a, delete a h) h p).
Proof.
  intros Hlive. destruct p as [a|]; [|reflexivity].
  cbn. destruct (Hlive a eq_refl) as [c ->]. reflexivity.
Qed.

Lemma math_at_live h (p : option addr) (m : option ASTNode) :
  math_at h p = Some m → ∀ a, p = Some a → is_Some (h !! a).
Proof.
  intros Hm a ->. cbn in Hm. destruct (h !! a) as [[]|]; naive_solver.
Qed.

(** X1: for a live object and a stored pointer and argument that are null or
    point to a tree, [setMath] returns [LIBSEDML_INVALID_OBJECT] exactly when
    the argument is not null, differs from the stored pointer and its tree
    is not well-formed; in every other case it returns
    [LIBSEDML_OPERATION_SUCCESS].  A rejected call and a call with the
    pointer that is already stored (well-formed or not) change nothing. *)
Theorem setMath_return_code h this (c : SedComputeChange) (math : option addr)
    (m0 am : option ASTNode) :
  h !! this = Some (CComputeChange c) →
  math_at h (mMath c) = Some m0 →
  math_at h math = Some am →
  let rejected :=
    bool_decide (mMath c ≠ math) &&
    from_option (λ ast, negb (isWellFormedASTNode ast)) false am in
  ∃ h',
    SedComputeChange__setMath this math h
      = Done (if rejected then LIBSEDML_INVALID_OBJECT
              else LIBSEDML_OPERATION_SUCCESS) h' ∧
    (rejected = true ∨ mMath c = math → h' = h).
Proof.
  intros Hthis Hm0 Ham rejected. subst rejected.
  unfold SedComputeChange__setMath. mrun.
  destruct (decide (mMath c = math)) as [Heq|Hne].
  - rewrite bool_decide_eq_false_2 by (intros Hn; by apply Hn).
    cbn. exists h. split; [reflexivity|done].
  - rewrite (bool_decide_eq_true_2 (mMath c ≠ math)) by done. cbn [andb].
    destruct math as [m|].
    + cbn in Ham. destruct (h !! m) as [[| ast | |]|] eqn:Em; try discriminate.
      injection Ham as <-. mrun. cbn [from_option].
      destruct (isWellFormedASTNode ast) eqn:Ewf; cbn [negb].
      * mrun.
        rewrite (delete_ptr_run h (mMath c)) by (eapply math_at_live; exact Hm0).
        unfold deepCopy. mrun.
        assert (Em' : from_option (λ a, delete a h) h (mMath c) !! m
                      = Some (CMath ast)).
        { destruct (mMath c) as [p|] eqn:Ep; cbn; [|exact Em].
          rewrite lookup_delete_ne by congruence. exact Em. }
        rewrite (load_math_run _ _ _ Em'). mrun.
        eexists. split; [reflexivity|]. intros [?|?]; [discriminate|contradiction].
      * exists h. split; [reflexivity|done].
    + injection Ham as <-. cbn [from_option]. mrun.
      rewrite (delete_ptr_run h (mMath c)) by (eapply math_at_live; exact Hm0).
      mrun. eexists. split; [reflexivity|].
      intros [?|?]; [discriminate|contradiction].
Qed.

Lemma setMath_ok_run h this (c : SedComputeChange) m (ast : ASTNode) m0 :
  h !! this = Some (CComputeChange c) →
  math_at h (mMath c) = Some m0 →
  mMath c ≠ Some m →
  h !! m = Some (CMath ast) →
  isWellFormedASTNode ast = true →
  let h1 := from_option (λ a, delete a h) h (mMath c) in
  let q := fresh (dom h1) in
  SedComputeChange__setMath this (Some m) h =
  Done LIBSEDML_OPERATION_SUCCESS
    (<[this := CComputeChange (cc_with_mMath (Some q) c)]>
       (<[q := CMath ast]> h1)).
Proof.
  intros Hthis Hm0 Hne Em Ewf h1 q.
  unfold SedComputeChange__setMath. mrun.
  destruct (decide (mMath c = Some m)) as [|_]; [contradiction|].
  mrun. rewrite Ewf. cbn [negb]. mrun.
  rewrite (delete_ptr_run h (mMath c)) by (eapply math_at_live; exact Hm0).
  fold h1. unfold deepCopy. mrun.
  assert (Em' : h1 !! m = Some (CMath ast)).
  { unfold h1. destruct (mMath c) as [p|] eqn:Ep; cbn; [|exact Em].
    rewrite lookup_delete_ne by congruence. exact Em. }
  rewrite (load_math_run _ _ _ Em'). mrun. reflexivity.
Qed.

Lemma unsetMath_run h this (c : SedComputeChange) m0 :
  h !! this = Some (CComputeChange c) →
  math_at h (mMath c) = Some m0 →
  SedComputeChange__unsetMath this h =
  Done LIBSEDML_OPERATION_SUCCESS
    (<[this := CComputeChange (cc_with_mMath None c)]>
       (from_option (λ a, delete a h) h (mMath c))).
Proof.
  intros Hthis Hm0. unfold SedComputeChange__unsetMath. mrun.
  rewrite (delete_ptr_run h (mMath c)) by (eapply math_at_live; exact Hm0).
  mrun. reflexivity.
Qed.

(** The children of a well-formed object are neither the object itself
    nor an expression. *)
Lemma cc_view_item_cell h (c : SedComputeChange) v a :
  cc_view h c = Some v →
  a ∈ mItems (mVariable c) ++ mItems (mParameter c) →
  ∃ k e, h !! a = Some (CItem k e).
Proof.
  intros Hv Ha. apply cc_view_inv in Hv as (Hvs & Hps & _).
  apply elem_of_app in Ha as [Ha|Ha].
  - destruct (items_at_live _ _ _ _ _ Hvs Ha) as [e He]. eauto.
  - destruct (items_at_live _ _ _ _ _ Hps Ha) as [e He]. eauto.
Qed.

(** The view after the expression pointer has been replaced: the children
    are untouched as long as the store is the same at their addresses. *)
Lemma cc_view_with_math h h2 (c : SedComputeChange) v (p : option addr)
    (m : option ASTNode) :
  cc_view h c = Some v →
  (∀ a, a ∈ mItems (mVariable c) ++ mItems (mParameter c) → h2 !! a = h !! a) →
  math_at h2 p = Some m →
  cc_view h2 (cc_with_mMath p c) = Some (view_with_math m v).
Proof.
  intros Hv Hag Hm. apply cc_view_inv in Hv as (Hvs & Hps & _).
  apply cc_view_intro; cbn.
  - eapply items_at_agree; [|exact Hvs].
    intros a Ha. apply Hag, elem_of_app. tauto.
  - eapply items_at_agree; [|exact Hps].
    intros a Ha. apply Hag, elem_of_app. tauto.
  - exact Hm.
Qed.

(** X2: on a well-formed object, [setMath] with a pointer to a well-formed
    tree that is not the stored pointer succeeds and stores a new copy of the
    tree: [getMath] returns a pointer other than the argument, to an equal
    tree; [isSetMath] is true; the children are as before; the argument is
    still live and still the caller's, and whatever happens at its address
    afterwards does not change what the object shows.  Apart from the object,
    the copy and the tree stored before, the store is unchanged. *)
Theorem setMath_stores_independent_copy h this (c : SedComputeChange) v m
    (ast : ASTNode) :
  h !! this = Some (CComputeChange c) →
  cc_view h c = Some v →
  h !! m = Some (CMath ast) →
  mMath c ≠ Some m →
  isWellFormedASTNode ast = true →
  ∃ q h',
    SedComputeChange__setMath this (Some m) h
      = Done LIBSEDML_OPERATION_SUCCESS h' ∧
    SedComputeChange__getMath this h' = Done (Some q) h' ∧
    SedComputeChange__isSetMath this h' = Done true h' ∧
    q ≠ m ∧
    h' !! q = Some (CMath ast) ∧
    h' !! m = Some (CMath ast) ∧
    view_cc h' this = Some (view_with_math (Some ast) v) ∧
    (∀ a, a ≠ this → a ≠ q → mMath c ≠ Some a → h' !! a = h !! a) ∧
    (∀ h'', agree_outside [m] h' h'' →
       view_cc h'' this = Some (view_with_math (Some ast) v)).
Proof.
  intros Hthis Hv Em Hne Ewf.
  pose proof (cc_view_inv _ _ _ Hv) as (_ & _ & Hm0).
  pose proof (setMath_ok_run h this c m ast _ Hthis Hm0 Hne Em Ewf) as Hrun.
  cbv zeta in Hrun.
  set (h1 := from_option (λ a, delete a h) h (mMath c)) in *.
  set (q := fresh (dom h1)) in *.
  set (h' := <[this := CComputeChange (cc_with_mMath (Some q) c)]>
               (<[q := CMath ast]> h1)) in *.
  assert (Hh1 : ∀ a, mMath c ≠ Some a → h1 !! a = h !! a).
  { intros a Ha. unfold h1. destruct (mMath c) as [p|]; cbn; [|done].
    rewrite lookup_delete_ne by congruence. done. }
  assert (Hq : h1 !! q = None) by apply fresh_None.
  assert (Hmt : m ≠ this) by congruence.
  assert (Hqm : q ≠ m).
  { intros E. rewrite E, Hh1 in Hq by done. congruence. }
  assert (Hthis' : h' !! this = Some (CComputeChange (cc_with_mMath (Some q) c)))
    by apply lookup_insert_eq.
  assert (Hq' : h' !! q = Some (CMath ast)).
  { unfold h'. destruct (decide (q = this)) as [E|E].
    - exfalso. rewrite E in Hq. unfold h1 in Hq.
      destruct (mMath c) as [p|] eqn:Ep; cbn in Hq.
      + destruct (decide (p = this)) as [->|Hp].
        * cbn in Hm0. rewrite Hthis in Hm0. discriminate.
        * rewrite lookup_delete_ne in Hq by done. congruence.
      + congruence.
    - rewrite lookup_insert_ne by done. apply lookup_insert_eq. }
  assert (Hqt : q ≠ this) by (intros E; rewrite E in Hq'; congruence).
  assert (Hframe : ∀ a, a ≠ this → a ≠ q → mMath c ≠ Some a → h' !! a = h !! a).
  { intros a H1 H2 H3. unfold h'. rewrite !lookup_insert_ne by done. by apply Hh1. }
  assert (Hitems : ∀ a, a ∈ mItems (mVariable c) ++ mItems (mParameter c) →
                        h' !! a = h !! a).
  { intros a Ha. destruct (cc_view_item_cell _ _ _ _ Hv Ha) as (k & e & Ea).
    apply Hframe.
    - congruence.
    - intros ->. assert (mMath c ≠ Some q).
      { intros Ep. cbn in Hm0. rewrite Ep in Hm0. cbn in Hm0.
        rewrite Ea in Hm0. discriminate. }
      rewrite Hh1 in Hq by done. congruence.
    - intros Ep. rewrite Ep in Hm0. cbn in Hm0. rewrite Ea in Hm0. discriminate. }
  assert (Hm' : h' !! m = Some (CMath ast)) by (rewrite Hframe; done).
  assert (Hview : cc_view h' (cc_with_mMath (Some q) c)
                  = Some (view_with_math (Some ast) v)).
  { eapply cc_view_with_math; [exact Hv|exact Hitems|]. cbn. by rewrite Hq'. }
  exists q, h'. split_and!; try done.
  - unfold SedComputeChange__getMath. mrun. reflexivity.
  - unfold SedComputeChange__isSetMath. mrun. reflexivity.
  - by apply view_cc_intro with (cc_with_mMath (Some q) c).
  - intros h'' Hag.
    apply view_cc_intro with (cc_with_mMath (Some q) c).
    + rewrite Hag; [done|]. by intros ->%list_elem_of_singleton.
    + eapply cc_view_agree; [exact Hview|].
      intros a Ha. apply Hag. intros ->%list_elem_of_singleton.
      apply cc_owned_elem in Ha. cbn in Ha.
      destruct Ha as [Ha|[Ha|Ha]].
      * destruct (cc_view_item_cell _ _ _ _ Hv
                    (proj2 (elem_of_app _ _ _) (or_introl Ha))) as (k & e & Ea).
        congruence.
      * destruct (cc_view_item_cell _ _ _ _ Hv
                    (proj2 (elem_of_app _ _ _) (or_intror Ha))) as (k & e & Ea).
        congruence.
      * congruence.
Qed.

(** X3: on a well-formed object [unsetMath] and [setMath(NULL)] are the
    same operation.  It succeeds, releases the tree stored before and leaves
    [isSetMath] false and [getMath] null with the children as they were;
    doing it again changes nothing. *)
Theorem unsetMath_clears_expression h this (c : SedComputeChange) v :
  h !! this = Some (CComputeChange c) →
  cc_view h c = Some v →
  SedComputeChange__setMath this None h = SedComputeChange__unsetMath this h ∧
  ∃ h',
    SedComputeChange__unsetMath this h = Done LIBSEDML_OPERATION_SUCCESS h' ∧
    SedComputeChange__isSetMath this h' = Done false h' ∧
    SedComputeChange__getMath this h' = Done None h' ∧
    view_cc h' this = Some (view_with_math None v) ∧
    (∀ p, mMath c = Some p → h' !! p = None) ∧
    (∀ a, a ≠ this → mMath c ≠ Some a → h' !! a = h !! a) ∧
    SedComputeChange__unsetMath this h' = Done LIBSEDML_OPERATION_SUCCESS h'.
Proof.
  intros Hthis Hv.
  pose proof (cc_view_inv _ _ _ Hv) as (_ & _ & Hm0).
  pose proof (unsetMath_run h this c _ Hthis Hm0) as Hrun.
  set (h1 := from_option (λ a, delete a h) h (mMath c)) in *.
  set (h' := <[this := CComputeChange (cc_with_mMath None c)]> h1) in *.
  assert (Hh1 : ∀ a, mMath c ≠ Some a → h1 !! a = h !! a).
  { intros a Ha. unfold h1. destruct (mMath c) as [p|]; cbn; [|done].
    rewrite lookup_delete_ne by congruence. done. }
  assert (Hpt : mMath c ≠ Some this).
  { intros Ep. rewrite Ep in Hm0. cbn in Hm0. rewrite Hthis in Hm0. discriminate. }
  assert (Hthis' : h' !! this = Some (CComputeChange (cc_with_mMath None c)))
    by apply lookup_insert_eq.
  split.
  - rewrite Hrun. unfold SedComputeChange__setMath. mrun.
    destruct (decide (mMath c = None)) as [E|E].
    + mrun. f_equal. unfold h', h1. rewrite E. cbn.
      rewrite <- E, cc_with_mMath_id. symmetry. by apply insert_id.
    + mrun.
      rewrite (delete_ptr_run h (mMath c)) by (eapply math_at_live; exact Hm0).
      mrun. reflexivity.
  - exists h'. split_and!.
    + exact Hrun.
    + unfold SedComputeChange__isSetMath. mrun. reflexivity.
    + unfold SedComputeChange__getMath. mrun. reflexivity.
    + apply view_cc_intro with (cc_with_mMath None c); [done|].
      eapply cc_view_with_math; [exact Hv| |reflexivity].
      intros a Ha. destruct (cc_view_item_cell _ _ _ _ Hv Ha) as (k & e & Ea).
      unfold h'. rewrite lookup_insert_ne by congruence.
      apply Hh1. intros Ep. rewrite Ep in Hm0. cbn in Hm0.
      rewrite Ea in Hm0. discriminate.
    + intros p Ep. unfold h'. rewrite lookup_insert_ne by congruence.
      unfold h1. rewrite Ep. cbn. apply lookup_delete_eq.
    + intros a Ha Hp. unfold h'. rewrite lookup_insert_ne by done. by apply Hh1.
    + rewrite (unsetMath_run h' this (cc_with_mMath None c) None Hthis')
        by reflexivity.
      cbn. f_equal. unfold h'. by rewrite insert_insert_eq.
Qed.

(** ** Beyond the specification: the collections *)

Lemma items_at_Forall2 h k l es :
  items_at h k l = Some es ↔ Forall2 (λ a e, h !! a = Some (CItem k e)) l es.
Proof.
  unfold items_at. rewrite mapM_Some. split; intros HF.
  - eapply Forall2_impl; [exact HF|]. intros a e. by rewrite item_at_Some.
  - eapply Forall2_impl; [exact HF|]. intros a e. by rewrite item_at_Some.
Qed.

Lemma items_at_snoc h k l es a e :
  items_at h k l = Some es → h !! a = Some (CItem k e) →
  items_at h k (l ++ [a]) = Some (es ++ [e]).
Proof.
  rewrite !items_at_Forall2. intros Hl Ha.
  apply Forall2_app; [exact Hl|]. by repeat constructor.
Qed.

Lemma items_at_delete h k l es n :
  items_at h k l = Some es → items_at h k (delete n l) = Some (delete n es).
Proof. rewrite !items_at_Forall2. apply Forall2_delete. Qed.

Lemma items_at_lookup h k l es n a :
  items_at h k l = Some es → l !! n = Some a →
  ∃ e, es !! n = Some e ∧ h !! a = Some (CItem k e).
Proof.
  rewrite items_at_Forall2. intros HF Hn.
  destruct (Forall2_lookup_l _ _ _ _ _ HF Hn) as (e & He & Ha). eauto.
Qed.

Lemma cc_view_with_variables h h2 (c : SedComputeChange) v (l : SedListOf) vs :
  cc_view h c = Some v →
  items_at h2 KVariable (mItems l) = Some vs →
  (∀ a, a ∈ cc_owned c → h2 !! a = h !! a) →
  cc_view h2 (cc_with_mVariable l c) = Some (view_with_variables vs v).
Proof.
  intros Hv Hl Hag. apply cc_view_inv in Hv as (_ & Hps & Hm).
  apply cc_view_intro; cbn.
  - exact Hl.
  - eapply items_at_agree; [|exact Hps].
    intros a Ha. apply Hag, cc_owned_elem. tauto.
  - eapply math_at_agree; [|exact Hm].
    intros a Ha. apply Hag, cc_owned_elem. tauto.
Qed.

Lemma cc_view_with_parameters h h2 (c : SedComputeChange) v (l : SedListOf) ps :
  cc_view h c = Some v →
  items_at h2 KParameter (mItems l) = Some ps →
  (∀ a, a ∈ cc_owned c → h2 !! a = h !! a) →
  cc_view h2 (cc_with_mParameter l c) = Some (view_with_parameters ps v).
Proof.
  intros Hv Hl Hag. apply cc_view_inv in Hv as (Hvs & _ & Hm).
  apply cc_view_intro; cbn.
  - eapply items_at_agree; [|exact Hvs].
    intros a Ha. apply Hag, cc_owned_elem. tauto.
  - exact Hl.
  - eapply math_at_agree; [|exact Hm].
    intros a Ha. apply Hag, cc_owned_elem. tauto.
Qed.

(** Storing the object again and allocating at an unused address leaves
    everything the object owns as it was. *)
Lemma cc_owned_frame h this (c : SedComputeChange) v (c' new : cell) a :
  h !! this = Some (CComputeChange c) →
  cc_view h c = Some v →
  a ∈ cc_owned c →
  (<[this := c']> (<[fresh (dom h) := new]> h)) !! a = h !! a.
Proof.
  intros Hthis Hv Ha.
  destruct (cc_view_leaf _ _ _ _ Hv Ha) as (x & Ex & Hleaf).
  rewrite !lookup_insert_ne; [done| |].
  - intros E. rewrite <- E, fresh_None in Ex. discriminate.
  - intros <-. rewrite Hthis in Ex. injection Ex as <-. exact Hleaf.
Qed.

Lemma pd_items_frame h this (p : SedPlot2D) cs (c' new : cell) a :
  h !! this = Some (CPlot2D p) →
  items_at h KCurve (mItems (mCurve p)) = Some cs →
  a ∈ mItems (mCurve p) →
  (<[this := c']> (<[fresh (dom h) := new]> h)) !! a = h !! a.
Proof.
  intros Hthis Hcs Ha.
  destruct (items_at_live _ _ _ _ _ Hcs Ha) as (x & Ex).
  rewrite !lookup_insert_ne; [done| |].
  - intros E. rewrite <- E, fresh_None in Ex. discriminate.
  - intros <-. rewrite Hthis in Ex. discriminate.
Qed.

Lemma fresh_lookup_ne h a (c : cell) : h !! a = Some c → fresh (dom h) ≠ a.
Proof. intros Ha E. rewrite <- E, fresh_None in Ha. discriminate. Qed.

(** What the three [add] and the three [create] functions do to the view:
    one element more at the end. *)
Lemma appended_view_cc_variables h this (c : SedComputeChange) v e (l : SedListOf) :
  h !! this = Some (CComputeChange c) →
  cc_view h c = Some v →
  mItems l = mItems (mVariable c) ++ [fresh (dom h)] →
  view_cc (<[this := CComputeChange (cc_with_mVariable l c)]>
             (<[fresh (dom h) := CItem KVariable e]> h)) this
  = Some (view_with_variables (v_variables v ++ [e]) v).
Proof.
  intros Hthis Hv Hl.
  pose proof (fresh_lookup_ne _ _ _ Hthis) as Hq.
  eapply view_cc_intro; [apply lookup_insert_eq|].
  eapply cc_view_with_variables; [exact Hv| |].
  - rewrite Hl. apply items_at_snoc.
    + apply cc_view_inv in Hv as Hv'. destruct Hv' as (Hvs & _ & _).
      eapply items_at_agree; [|exact Hvs]. intros a Ha.
      eapply cc_owned_frame; [exact Hthis|exact Hv|].
      apply cc_owned_elem. tauto.
    + rewrite lookup_insert_ne by done. apply lookup_insert_eq.
  - intros a Ha. by eapply cc_owned_frame.
Qed.

Lemma appended_view_cc_parameters h this (c : SedComputeChange) v e (l : SedListOf) :
  h !! this = Some (CComputeChange c) →
  cc_view h c = Some v →
  mItems l = mItems (mParameter c) ++ [fresh (dom h)] →
  view_cc (<[this := CComputeChange (cc_with_mParameter l c)]>
             (<[fresh (dom h) := CItem KParameter e]> h)) this
  = Some (view_with_parameters (v_parameters v ++ [e]) v).
Proof.
  intros Hthis Hv Hl.
  pose proof (fresh_lookup_ne _ _ _ Hthis) as Hq.
  eapply view_cc_intro; [apply lookup_insert_eq|].
  eapply cc_view_with_parameters; [exact Hv| |].
  - rewrite Hl. apply items_at_snoc.
    + apply cc_view_inv in Hv as Hv'. destruct Hv' as (_ & Hps & _).
      eapply items_at_agree; [|exact Hps]. intros a Ha.
      eapply cc_owned_frame; [exact Hthis|exact Hv|].
      apply cc_owned_elem. tauto.
    + rewrite lookup_insert_ne by done. apply lookup_insert_eq.
  - intros a Ha. by eapply cc_owned_frame.
Qed.

Lemma appended_view_pd h this (p : SedPlot2D) cs e (l : SedListOf) :
  h !! this = Some (CPlot2D p) →
  items_at h KCurve (mItems (mCurve p)) = Some cs →
  mItems l = mItems (mCurve p) ++ [fresh (dom h)] →
  view_pd (<[this := CPlot2D (pd_with_mCurve l p)]>
             (<[fresh (dom h) := CItem KCurve e]> h)) this
  = Some (cs ++ [e]).
Proof.
  intros Hthis Hcs Hl.
  pose proof (fresh_lookup_ne _ _ _ Hthis) as Hq.
  eapply view_pd_intro; [apply lookup_insert_eq|].
  cbn. rewrite Hl. apply items_at_snoc.
  - eapply items_at_agree; [|exact Hcs]. intros a Ha.
    by eapply pd_items_frame.
  - rewrite lookup_insert_ne by done. apply lookup_insert_eq.
Qed.

(** X4: on a well-formed object, adding a live element succeeds and what the
    object shows afterwards is what it showed before with a copy of the
    element at the end of that collection; the other collection and the
    expression are as before, and the argument itself is untouched. *)
Theorem add_extends_view :
  (∀ h this v sv e,
     view_cc h this = Some v →
     h !! sv = Some (CItem KVariable e) →
     ∃ h',
       SedComputeChange__addVariable this (Some sv) h
         = Done LIBSEDML_OPERATION_SUCCESS h' ∧
       view_cc h' this = Some (view_with_variables (v_variables v ++ [e]) v) ∧
       h' !! sv = Some (CItem KVariable e)) ∧
  (∀ h this v sp e,
     view_cc h this = Some v →
     h !! sp = Some (CItem KParameter e) →
     ∃ h',
       SedComputeChange__addParameter this (Some sp) h
         = Done LIBSEDML_OPERATION_SUCCESS h' ∧
       view_cc h' this = Some (view_with_parameters (v_parameters v ++ [e]) v) ∧
       h' !! sp = Some (CItem KParameter e)) ∧
  (∀ h this cs sc e,
     view_pd h this = Some cs →
     h !! sc = Some (CItem KCurve e) →
     ∃ h',
       SedPlot2D__addCurve this (Some sc) h
         = Done LIBSEDML_OPERATION_SUCCESS h' ∧
       view_pd h' this = Some (cs ++ [e]) ∧
       h' !! sc = Some (CItem KCurve e)).
Proof.
  split_and!.
  - intros h this v sv e Hv Hsv.
    apply view_cc_inv in Hv as (c & Hthis & Hv).
    eexists. split_and!.
    + by apply addVariable_run.
    + by apply appended_view_cc_variables.
    + rewrite !lookup_insert_ne; [done|by eapply fresh_lookup_ne|congruence].
  - intros h this v sp e Hv Hsp.
    apply view_cc_inv in Hv as (c & Hthis & Hv).
    eexists. split_and!.
    + by apply addParameter_run.
    + by apply appended_view_cc_parameters.
    + rewrite !lookup_insert_ne; [done|by eapply fresh_lookup_ne|congruence].
  - intros h this cs sc e Hv Hsc.
    apply view_pd_inv in Hv as (p & Hthis & Hcs).
    eexists. split_and!.
    + by apply addCurve_run.
    + by apply appended_view_pd.
    + rewrite !lookup_insert_ne; [done|by eapply fresh_lookup_ne|congruence].
Qed.

(** X5: on a well-formed object, each [create] function returns a pointer
    that was not in use, and what the object shows afterwards is what it
    showed before with one default-constructed element at the end of that
    collection; writing the object then gives that collection's wrapper. *)
Theorem create_extends_view :
  (∀ h this v,
     view_cc h this = Some v →
     ∃ q h',
       SedComputeChange__createVariable this h = Done (Some q) h' ∧
       h !! q = None ∧
       view_cc h' this
         = Some (view_with_variables (v_variables v ++ [SedItem_default]) v)) ∧
  (∀ h this v,
     view_cc h this = Some v →
     ∃ q h',
       SedComputeChange__createParameter this h = Done (Some q) h' ∧
       h !! q = None ∧
       view_cc h' this
         = Some (view_with_parameters (v_parameters v ++ [SedItem_default]) v)) ∧
  (∀ h this cs,
     view_pd h this = Some cs →
     ∃ q h',
       SedPlot2D__createCurve this h = Done (Some q) h' ∧
       h !! q = None ∧
       view_pd h' this = Some (cs ++ [SedItem_default]) ∧
       ∀ (p' : SedPlot2D) stream,
         h' !! this = Some (CPlot2D p') →
         SedPlot2D__writeElements this stream h'
           = Done (stream ++ [EvSuperElements (pd_super p');
                              EvStartElement (listOf_name KCurve)]
                     ++ map (EvItem KCurve) (cs ++ [SedItem_default])
                     ++ [EvEndElement (listOf_name KCurve)]) h').
Proof.
  split_and!.
  - intros h this v Hv.
    apply view_cc_inv in Hv as (c & Hthis & Hv).
    eexists _, _. split_and!.
    + by apply createVariable_run.
    + apply fresh_None.
    + by apply appended_view_cc_variables.
  - intros h this v Hv.
    apply view_cc_inv in Hv as (c & Hthis & Hv).
    eexists _, _. split_and!.
    + by apply createParameter_run.
    + apply fresh_None.
    + by apply appended_view_cc_parameters.
  - intros h this cs Hv.
    apply view_pd_inv in Hv as (p & Hthis & Hcs).
    eexists _, _. split_and!.
    + by apply createCurve_run.
    + apply fresh_None.
    + by apply appended_view_pd.
    + intros p' stream Hp'.
      pose proof (appended_view_pd h this p cs SedItem_default
                    {| mItems := mItems (mCurve p) ++ [fresh (dom h)];
                       mParentSedObject := mParentSedObject (mCurve p) |}
                    Hthis Hcs eq_refl) as Hview.
      apply view_pd_inv in Hview as (p2 & Hp2 & Hcs2).
      change (pd_with_mCurve _ p) with
        (pd_with_mCurve
           {| mItems := mItems (mCurve p) ++ [fresh (dom h)];
              mParentSedObject := mParentSedObject (mCurve p) |} p) in Hp'.
      rewrite Hp2 in Hp'. injection Hp' as <-.
      rewrite (SedPlot2D__writeElements_run _ _ _ _ stream Hp2 Hcs2).
      f_equal. unfold pd_elements, wrapper_events.
      destruct (cs ++ [SedItem_default]) eqn:E.
      * by destruct cs.
      * reflexivity.
Qed.

(** *** Removal by position *)

Lemma list_delete_out_of_range {A} (l : list A) n : l !! n = None → delete n l = l.
Proof.
  revert n. induction l as [|x l IH]; intros [|n] Hn; cbn in *; try done.
  f_equal. by apply IH.
Qed.

Lemma remove_spec (l : SedListOf) n :
  fst (remove l n) = mItems l !! n ∧
  mItems (snd (remove l n)) = delete n (mItems l) ∧
  mParentSedObject (snd (remove l n)) = mParentSedObject l.
Proof.
  unfold remove. destruct (mItems l !! n) as [a|] eqn:E; cbn.
  - by rewrite delete_take_drop.
  - by rewrite list_delete_out_of_range.
Qed.

Lemma remove_out_of_range (l : SedListOf) n :
  size l ≤ n → remove l n = (None, l).
Proof.
  intros Hn. unfold remove, size in *.
  by rewrite (lookup_ge_None_2 (mItems l) n Hn).
Qed.

Lemma SedComputeChange__removeVariable_run h this (c : SedComputeChange) n :
  h !! this = Some (CComputeChange c) →
  SedComputeChange__removeVariable this n h =
  Done (mItems (mVariable c) !! n)
    (<[this := CComputeChange
         (cc_with_mVariable (snd (remove (mVariable c) n)) c)]> h).
Proof.
  intros Hthis. unfold SedComputeChange__removeVariable. mrun.
  destruct (remove_spec (mVariable c) n) as (Hr & _).
  destruct (remove (mVariable c) n) as [r l]. mrun. cbn in Hr. by rewrite Hr.
Qed.

Lemma SedComputeChange__removeParameter_run h this (c : SedComputeChange) n :
  h !! this = Some (CComputeChange c) →
  SedComputeChange__removeParameter this n h =
  Done (mItems (mParameter c) !! n)
    (<[this := CComputeChange
         (cc_with_mParameter (snd (remove (mParameter c) n)) c)]> h).
Proof.
  intros Hthis. unfold SedComputeChange__removeParameter. mrun.
  destruct (remove_spec (mParameter c) n) as (Hr & _).
  destruct (remove (mParameter c) n) as [r l]. mrun. cbn in Hr. by rewrite Hr.
Qed.

Lemma SedPlot2D__removeCurve_run h this (p : SedPlot2D) n :
  h !! this = Some (CPlot2D p) →
  SedPlot2D__removeCurve this n h =
  Done (mItems (mCurve p) !! n)
    (<[this := CPlot2D (pd_with_mCurve (snd (remove (mCurve p) n)) p)]> h).
Proof.
  intros Hthis. unfold SedPlot2D__removeCurve. mrun.
  destruct (remove_spec (mCurve p) n) as (Hr & _).
  destruct (remove (mCurve p) n) as [r l]. mrun. cbn in Hr. by rewrite Hr.
Qed.

Lemma cc_with_mVariable_id (c : SedComputeChange) :
  cc_with_mVariable (mVariable c) c = c.
Proof. by destruct c. Qed.

Lemma cc_with_mParameter_id (c : SedComputeChange) :
  cc_with_mParameter (mParameter c) c = c.
Proof. by destruct c. Qed.

Lemma pd_with_mCurve_id (p : SedPlot2D) : pd_with_mCurve (mCurve p) p = p.
Proof. by destruct p. Qed.

Lemma cc_owned_not_this h this (c : SedComputeChange) v a :
  h !! this = Some (CComputeChange c) → cc_view h c = Some v →
  a ∈ cc_owned c → a ≠ this.
Proof.
  intros Hthis Hv Ha ->.
  destruct (cc_view_leaf _ _ _ _ Hv Ha) as (x & Ex & Hleaf).
  rewrite Hthis in Ex. injection Ex as <-. exact Hleaf.
Qed.

(** X6: removal by position on a well-formed object.  The pointer returned
    is the one stored at that position, null when the position is past the
    end, in which case the store is left exactly as it was.  Otherwise the
    object shows the same elements without the one at that position, in the
    same order, and one element fewer is counted; the element taken out is
    not destroyed.  Nothing but the object itself changes in the store. *)
Theorem remove_by_index_detaches :
  (∀ h this (c : SedComputeChange) v n,
     h !! this = Some (CComputeChange c) →
     cc_view h c = Some v →
     ∃ h',
       SedComputeChange__removeVariable this n h
         = Done (mItems (mVariable c) !! n) h' ∧
       view_cc h' this
         = Some (view_with_variables (delete n (v_variables v)) v) ∧
       (∀ a, a ≠ this → h' !! a = h !! a) ∧
       (∀ q, mItems (mVariable c) !! n = Some q →
          ∃ e, v_variables v !! n = Some e ∧ h' !! q = Some (CItem KVariable e)) ∧
       (size (mVariable c) ≤ n → mItems (mVariable c) !! n = None ∧ h' = h) ∧
       (n < size (mVariable c) →
          SedComputeChange__getNumVariables this h'
            = Done (pred (size (mVariable c))) h')) ∧
  (∀ h this (c : SedComputeChange) v n,
     h !! this = Some (CComputeChange c) →
     cc_view h c = Some v →
     ∃ h',
       SedComputeChange__removeParameter this n h
         = Done (mItems (mParameter c) !! n) h' ∧
       view_cc h' this
         = Some (view_with_parameters (delete n (v_parameters v)) v) ∧
       (∀ a, a ≠ this → h' !! a = h !! a) ∧
       (∀ q, mItems (mParameter c) !! n = Some q →
          ∃ e, v_parameters v !! n = Some e ∧ h' !! q = Some (CItem KParameter e)) ∧
       (size (mParameter c) ≤ n → mItems (mParameter c) !! n = None ∧ h' = h) ∧
       (n < size (mParameter c) →
          SedComputeChange__getNumParameters this h'
            = Done (pred (size (mParameter c))) h')) ∧
  (∀ h this (p : SedPlot2D) cs n,
     h !! this = Some (CPlot2D p) →
     items_at h KCurve (mItems (mCurve p)) = Some cs →
     ∃ h',
       SedPlot2D__removeCurve this n h = Done (mItems (mCurve p) !! n) h' ∧
       view_pd h' this = Some (delete n cs) ∧
       (∀ a, a ≠ this → h' !! a = h !! a) ∧
       (∀ q, mItems (mCurve p) !! n = Some q →
          ∃ e, cs !! n = Some e ∧ h' !! q = Some (CItem KCurve e)) ∧
       (size (mCurve p) ≤ n → mItems (mCurve p) !! n = None ∧ h' = h) ∧
       (n < size (mCurve p) →
          SedPlot2D__getNumCurves this h' = Done (pred (size (mCurve p))) h')).
Proof.
  split_and!.
  - intros h this c v n Hthis Hv.
    destruct (remove_spec (mVariable c) n) as (_ & Hitems & _).
    pose proof (cc_view_inv _ _ _ Hv) as (Hvs & _ & _).
    assert (Hfr : ∀ a, a ∈ cc_owned c →
              (<[this := CComputeChange
                   (cc_with_mVariable (snd (remove (mVariable c) n)) c)]> h) !! a
              = h !! a).
    { intros a Ha. rewrite lookup_insert_ne; [done|].
      intros <-. by eapply cc_owned_not_this. }
    eexists. split_and!.
    + by apply SedComputeChange__removeVariable_run.
    + eapply view_cc_intro; [apply lookup_insert_eq|].
      eapply cc_view_with_variables; [exact Hv| |exact Hfr].
      rewrite Hitems. apply items_at_delete.
      eapply items_at_agree; [|exact Hvs]. intros a Ha.
      apply Hfr, cc_owned_elem. tauto.
    + intros a Ha. by rewrite lookup_insert_ne.
    + intros q Hq. destruct (items_at_lookup _ _ _ _ _ _ Hvs Hq) as (e & He & Eq).
      exists e. split; [done|]. rewrite lookup_insert_ne; [done|congruence].
    + intros Hn. split; [by apply lookup_ge_None_2|].
      rewrite remove_out_of_range by done. cbn.
      rewrite cc_with_mVariable_id. by apply insert_id.
    + intros Hn. unfold SedComputeChange__getNumVariables. mrun.
      f_equal. unfold size in *. cbn. rewrite Hitems, length_delete.
      * lia.
      * by apply lookup_lt_is_Some_2.
  - intros h this c v n Hthis Hv.
    destruct (remove_spec (mParameter c) n) as (_ & Hitems & _).
    pose proof (cc_view_inv _ _ _ Hv) as (_ & Hps & _).
    assert (Hfr : ∀ a, a ∈ cc_owned c →
              (<[this := CComputeChange
                   (cc_with_mParameter (snd (remove (mParameter c) n)) c)]> h) !! a
              = h !! a).
    { intros a Ha. rewrite lookup_insert_ne; [done|].
      intros <-. by eapply cc_owned_not_this. }
    eexists. split_and!.
    + by apply SedComputeChange__removeParameter_run.
    + eapply view_cc_intro; [apply lookup_insert_eq|].
      eapply cc_view_with_parameters; [exact Hv| |exact Hfr].
      rewrite Hitems. apply items_at_delete.
      eapply items_at_agree; [|exact Hps]. intros a Ha.
      apply Hfr, cc_owned_elem. tauto.
    + intros a Ha. by rewrite lookup_insert_ne.
    + intros q Hq. destruct (items_at_lookup _ _ _ _ _ _ Hps Hq) as (e & He & Eq).
      exists e. split; [done|]. rewrite lookup_insert_ne; [done|congruence].
    + intros Hn. split; [by apply lookup_ge_None_2|].
      rewrite remove_out_of_range by done. cbn.
      rewrite cc_with_mParameter_id. by apply insert_id.
    + intros Hn. unfold SedComputeChange__getNumParameters. mrun.
      f_equal. unfold size in *. cbn. rewrite Hitems, length_delete.
      * lia.
      * by apply lookup_lt_is_Some_2.
  - intros h this p cs n Hthis Hcs.
    destruct (remove_spec (mCurve p) n) as (_ & Hitems & _).
    assert (Hfr : ∀ a, a ∈ mItems (mCurve p) →
              (<[this := CPlot2D (pd_with_mCurve (snd (remove (mCurve p) n)) p)]> h)
                !! a = h !! a).
    { intros a Ha. rewrite lookup_insert_ne; [done|].
      intros <-. destruct (items_at_live _ _ _ _ _ Hcs Ha) as (e & He). congruence. }
    eexists. split_and!.
    + by apply SedPlot2D__removeCurve_run.
    + eapply view_pd_intro; [apply lookup_insert_eq|].
      cbn. rewrite Hitems. apply items_at_delete.
      eapply items_at_agree; [|exact Hcs]. exact Hfr.
    + intros a Ha. by rewrite lookup_insert_ne.
    + intros q Hq. destruct (items_at_lookup _ _ _ _ _ _ Hcs Hq) as (e & He & Eq).
      exists e. split; [done|]. rewrite lookup_insert_ne; [done|congruence].
    + intros Hn. split; [by apply lookup_ge_None_2|].
      rewrite remove_out_of_range by done. cbn.
      rewrite pd_with_mCurve_id. by apply insert_id.
    + intros Hn. unfold SedPlot2D__getNumCurves. mrun.
      f_equal. unfold size in *. cbn. rewrite Hitems, length_delete.
      * lia.
      * by apply lookup_lt_is_Some_2.
Qed.

Lemma remove_last (l : SedListOf) q :
  remove {| mItems := mItems l ++ [q]; mParentSedObject := mParentSedObject l |}
         (size l)
  = (Some q, l).
Proof.
  unfold remove, size. cbn.
  rewrite lookup_app_r, Nat.sub_diag by lia. cbn.
  rewrite take_app_length, drop_ge by (rewrite length_app; cbn; lia).
  rewrite app_nil_r. by destruct l.
Qed.

(** X7: [create] followed by the removal of the last position undoes the
    [create]: the pointer handed back is the one [create] returned, the
    object is again exactly what it was, and the only difference in the
    store is the new element, still live, which now belongs to the
    caller. *)
Theorem create_then_remove_last_round_trip :
  (∀ h this (c : SedComputeChange),
     h !! this = Some (CComputeChange c) →
     ∃ q,
       h !! q = None ∧
       (SedComputeChange__createVariable this ≫= λ _,
          SedComputeChange__removeVariable this (size (mVariable c))) h
       = Done (Some q) (<[q := CItem KVariable SedItem_default]> h)) ∧
  (∀ h this (c : SedComputeChange),
     h !! this = Some (CComputeChange c) →
     ∃ q,
       h !! q = None ∧
       (SedComputeChange__createParameter this ≫= λ _,
          SedComputeChange__removeParameter this (size (mParameter c))) h
       = Done (Some q) (<[q := CItem KParameter SedItem_default]> h)) ∧
  (∀ h this (p : SedPlot2D),
     h !! this = Some (CPlot2D p) →
     ∃ q,
       h !! q = None ∧
       (SedPlot2D__createCurve this ≫= λ _,
          SedPlot2D__removeCurve this (size (mCurve p))) h
       = Done (Some q) (<[q := CItem KCurve SedItem_default]> h)).
Proof.
  split_and!.
  - intros h this c Hthis. exists (fresh (dom h)). split; [apply fresh_None|].
    pose proof (fresh_lookup_ne _ _ _ Hthis) as Hq.
    rewrite bind_run, (createVariable_run h this c Hthis).
    rewrite (SedComputeChange__removeVariable_run _ _ _ _ (lookup_insert_eq _ _ _)).
    cbn [cc_with_mVariable mVariable mItems]. rewrite remove_last. cbn [snd].
    f_equal.
    + cbn. unfold size. by rewrite lookup_app_r, Nat.sub_diag by lia.
    + rewrite insert_insert_eq.
      change (cc_with_mVariable (mVariable c) (cc_with_mVariable _ c))
        with (cc_with_mVariable (mVariable c) c).
      rewrite cc_with_mVariable_id. apply insert_id.
      by rewrite lookup_insert_ne.
  - intros h this c Hthis. exists (fresh (dom h)). split; [apply fresh_None|].
    pose proof (fresh_lookup_ne _ _ _ Hthis) as Hq.
    rewrite bind_run, (createParameter_run h this c Hthis).
    rewrite (SedComputeChange__removeParameter_run _ _ _ _ (lookup_insert_eq _ _ _)).
    cbn [cc_with_mParameter mParameter mItems]. rewrite remove_last. cbn [snd].
    f_equal.
    + cbn. unfold size. by rewrite lookup_app_r, Nat.sub_diag by lia.
    + rewrite insert_insert_eq.
      change (cc_with_mParameter (mParameter c) (cc_with_mParameter _ c))
        with (cc_with_mParameter (mParameter c) c).
      rewrite cc_with_mParameter_id. apply insert_id.
      by rewrite lookup_insert_ne.
  - intros h this p Hthis. exists (fresh (dom h)). split; [apply fresh_None|].
    pose proof (fresh_lookup_ne _ _ _ Hthis) as Hq.
    rewrite bind_run, (createCurve_run h this p Hthis).
    rewrite (SedPlot2D__removeCurve_run _ _ _ _ (lookup_insert_eq _ _ _)).
    cbn [pd_with_mCurve mCurve mItems]. rewrite remove_last. cbn [snd].
    f_equal.
    + cbn. unfold size. by rewrite lookup_app_r, Nat.sub_diag by lia.
    + rewrite insert_insert_eq.
      change (pd_with_mCurve (mCurve p) (pd_with_mCurve _ p))
        with (pd_with_mCurve (mCurve p) p).
      rewrite pd_with_mCurve_id. apply insert_id.
      by rewrite lookup_insert_ne.
Qed.

(** ** Beyond the specification: reading child elements *)

Lemma SedComputeChange__createObject_run h this (c : SedComputeChange) stream :
  h !! this = Some (CComputeChange c) →
  let r := super_createObject (cc_super c) stream in
  let name := getName (peek r.2) in
  SedComputeChange__createObject this stream h =
  Done (if decide (name = "listOfParameters")
        then Some (ObjMember (RefParameter this))
        else if decide (name = "listOfVariables")
             then Some (ObjMember (RefVariable this))
             else ObjSuper <$> r.1.1,
        r.2)
       (<[this := CComputeChange
            (cc_with_super (super_connectToChild r.1.2) c)]> h).
Proof.
  intros Hthis r name. subst r name.
  unfold SedComputeChange__createObject. mrun.
  destruct (super_createObject (cc_super c) stream) as [[object b] s']. cbn.
  mrun. rewrite insert_insert_eq. reflexivity.
Qed.

Lemma SedPlot2D__createObject_run h this (p : SedPlot2D) stream :
  h !! this = Some (CPlot2D p) →
  let r := super_createObject (pd_super p) stream in
  let name := getName (peek r.2) in
  SedPlot2D__createObject this stream h =
  Done (if decide (name = "listOfCurves")
        then Some (ObjMember (RefCurve this))
        else ObjSuper <$> r.1.1,
        r.2)
       (<[this := CPlot2D (pd_with_super (super_connectToChild r.1.2) p)]> h).
Proof.
  intros Hthis r name. subst r name.
  unfold SedPlot2D__createObject. mrun.
  destruct (super_createObject (pd_super p) stream) as [[object b] s']. cbn.
  mrun. rewrite insert_insert_eq. reflexivity.
Qed.

(** X8: [createObject] lets the superclass look at the stream first and then
    decides by the tag that is next: for the tag of one of its own
    collections it hands out that collection, whatever the superclass
    returned; for any other tag it hands out what the superclass returned.
    The tags are those of the wrappers [writeElements] writes.  A plot does
    not know the tags of a computed change.  In the store only the
    superclass part of the object changes: what the object shows and the
    parent links of its collections are as before. *)
Theorem createObject_dispatch :
  (∀ h this (c : SedComputeChange) stream,
     h !! this = Some (CComputeChange c) →
     let r := super_createObject (R := R) (cc_super c) stream in
     let name := getName (peek r.2) in
     ∃ object h' (c' : SedComputeChange),
       SedComputeChange__createObject this stream h = Done (object, r.2) h' ∧
       (name = listOf_name KVariable →
          object = Some (ObjMember (RefVariable this))) ∧
       (name = listOf_name KParameter →
          object = Some (ObjMember (RefParameter this))) ∧
       (name ≠ listOf_name KVariable → name ≠ listOf_name KParameter →
          object = ObjSuper <$> r.1.1) ∧
       h' !! this = Some (CComputeChange c') ∧
       cc_super c' = super_connectToChild r.1.2 ∧
       mVariable c' = mVariable c ∧ mParameter c' = mParameter c ∧
       mMath c' = mMath c ∧
       (∀ a, a ≠ this → h' !! a = h !! a) ∧
       (∀ v, view_cc h this = Some v → view_cc h' this = Some v)) ∧
  (∀ h this (p : SedPlot2D) stream,
     h !! this = Some (CPlot2D p) →
     let r := super_createObject (R := R) (pd_super p) stream in
     let name := getName (peek r.2) in
     ∃ object h' (p' : SedPlot2D),
       SedPlot2D__createObject this stream h = Done (object, r.2) h' ∧
       (name = listOf_name KCurve → object = Some (ObjMember (RefCurve this))) ∧
       (name ≠ listOf_name KCurve → object = ObjSuper <$> r.1.1) ∧
       h' !! this = Some (CPlot2D p') ∧
       pd_super p' = super_connectToChild r.1.2 ∧
       mCurve p' = mCurve p ∧
       (∀ a, a ≠ this → h' !! a = h !! a) ∧
       (∀ cs, view_pd h this = Some cs → view_pd h' this = Some cs)).
Proof.
  split.
  - intros h this c stream Hthis r name.
    pose proof (SedComputeChange__createObject_run h this c stream Hthis) as Hrun.
    cbv zeta in Hrun. fold r name in Hrun.
    eexists _, _, _. split; [exact Hrun|]. cbn [listOf_name].
    split_and!.
    + intros E. rewrite E.
      destruct (decide ("listOfVariables" = "listOfParameters")); [discriminate|].
      by destruct (decide ("listOfVariables" = "listOfVariables")).
    + intros E. rewrite E.
      by destruct (decide ("listOfParameters" = "listOfParameters")).
    + intros E1 E2.
      destruct (decide (name = "listOfParameters")); [contradiction|].
      by destruct (decide (name = "listOfVariables")).
    + apply lookup_insert_eq.
    + reflexivity.
    + reflexivity.
    + reflexivity.
    + reflexivity.
    + intros a Ha. by rewrite lookup_insert_ne.
    + intros v Hv. apply view_cc_inv in Hv as (c0 & Hc0 & Hv).
      rewrite Hthis in Hc0. injection Hc0 as <-.
      eapply view_cc_intro; [apply lookup_insert_eq|].
      apply (cc_view_agree h); [exact Hv|].
      intros a Ha. rewrite lookup_insert_ne; [done|].
      intros <-. by eapply cc_owned_not_this.
  - intros h this p stream Hthis r name.
    pose proof (SedPlot2D__createObject_run h this p stream Hthis) as Hrun.
    cbv zeta in Hrun. fold r name in Hrun.
    eexists _, _, _. split; [exact Hrun|]. cbn [listOf_name].
    split_and!.
    + intros E. rewrite E.
      by destruct (decide ("listOfCurves" = "listOfCurves")).
    + intros E. by destruct (decide (name = "listOfCurves")).
    + apply lookup_insert_eq.
    + reflexivity.
    + reflexivity.
    + intros a Ha. by rewrite lookup_insert_ne.
    + intros cs Hv. apply view_pd_inv in Hv as (p0 & Hp0 & Hcs).
      rewrite Hthis in Hp0. injection Hp0 as <-.
      eapply view_pd_intro; [apply lookup_insert_eq|].
      cbn. eapply items_at_agree; [|exact Hcs].
      intros a Ha. rewrite lookup_insert_ne; [done|].
      intros <-. destruct (items_at_live _ _ _ _ _ Hcs Ha) as (e & He). congruence.
Qed.


(** ** Beyond the specification: methods that only look *)

Lemma readonly_ret {A} (x : A) : readonly (ret x : M heap A).
Proof. intros h y h' Hrun. by injection Hrun as _ <-. Qed.

Lemma readonly_fault {A} : readonly (fault : M heap A).
Proof. intros h y h' Hrun. discriminate. Qed.

Lemma readonly_bind {A B} (m : M heap A) (f : A → M heap B) :
  readonly m → (∀ x, readonly (f x)) → readonly (m ≫= f).
Proof.
  intros Hm Hf h y h' Hrun.
  apply bind_Done_inv in Hrun as (x & h1 & Hx & Hrun).
  apply Hm in Hx as ->. by apply Hf in Hrun.
Qed.

Lemma readonly_load_cc this : readonly (load_cc this : M heap _).
Proof. intros h c h' Hrun. by apply load_cc_inv in Hrun as (-> & _). Qed.

Lemma readonly_load_pd this : readonly (load_pd this : M heap _).
Proof. intros h c h' Hrun. by apply load_pd_inv in Hrun as (-> & _). Qed.

Lemma readonly_load_item k a : readonly (load_item k a : M heap _).
Proof.
  intros h x h' Hrun. unfold load_item in Hrun.
  destruct (h !! a) as [[k' e'| | |]|]; try discriminate.
  destruct (decide (k' = k)); [|discriminate]. by injection Hrun as _ <-.
Qed.

Lemma readonly_load_math a : readonly (load_math a : M heap _).
Proof.
  intros h x h' Hrun. unfold load_math in Hrun.
  destruct (h !! a) as [[| m | |]|]; try discriminate. by injection Hrun as _ <-.
Qed.

Create HintDb readonly discriminated.

#[local] Hint Resolve readonly_ret readonly_fault readonly_load_cc
  readonly_load_pd readonly_load_item readonly_load_math : readonly.

Ltac readonly_step :=
  match goal with
  | |- readonly (_ ≫= _) => apply readonly_bind; [|intros ?]
  | |- readonly (if ?b then _ else _) => destruct b
  | |- readonly (match ?x with _ => _ end) => destruct x
  | |- readonly _ => solve [auto with readonly]
  end.

Ltac solve_readonly := repeat readonly_step.

Lemma readonly_write_items {B} k items (stream : XMLOutputStream B) :
  readonly (write_items k items stream : M heap _).
Proof.
  revert stream. induction items as [|a items IH]; intros stream; cbn.
  - auto with readonly.
  - solve_readonly; apply IH.
Qed.

Lemma readonly_find_id k sid items i :
  readonly (find_id k sid items i : M heap _).
Proof.
  revert i. induction items as [|a items IH]; intros i; cbn.
  - auto with readonly.
  - solve_readonly; apply IH.
Qed.

Lemma readonly_get_id k (l : SedListOf) sid :
  readonly (get_id k l sid : M heap _).
Proof. unfold get_id. solve_readonly. apply readonly_find_id. Qed.

(** X10: the methods declared [const] leave the store exactly as they found
    it whenever they return: the accessors of the expression and of the
    three collections, by position and by identifier, the counts, the two
    [hasRequired...] predicates and [writeElements]. *)
Theorem const_methods_leave_store_unchanged this :
  readonly (SedComputeChange__getMath this : M heap _) ∧
  readonly (SedComputeChange__isSetMath this : M heap _) ∧
  readonly (SedComputeChange__getListOfVariables this : M heap _) ∧
  (∀ n, readonly (SedComputeChange__getVariable this n : M heap _)) ∧
  (∀ sid, readonly (SedComputeChange__getVariableById this sid : M heap _)) ∧
  readonly (SedComputeChange__getNumVariables this : M heap _) ∧
  readonly (SedComputeChange__getListOfParameters this : M heap _) ∧
  (∀ n, readonly (SedComputeChange__getParameter this n : M heap _)) ∧
  (∀ sid, readonly (SedComputeChange__getParameterById this sid : M heap _)) ∧
  readonly (SedComputeChange__getNumParameters this : M heap _) ∧
  readonly (SedComputeChange__hasRequiredAttributes this : M heap _) ∧
  readonly (SedComputeChange__hasRequiredElements this : M heap _) ∧
  (∀ stream, readonly (SedComputeChange__writeElements this stream : M heap _)) ∧
  readonly (SedPlot2D__getListOfCurves this : M heap _) ∧
  (∀ n, readonly (SedPlot2D__getCurve this n : M heap _)) ∧
  (∀ sid, readonly (SedPlot2D__getCurveById this sid : M heap _)) ∧
  readonly (SedPlot2D__getNumCurves this : M heap _) ∧
  readonly (SedPlot2D__hasRequiredAttributes this : M heap _) ∧
  readonly (SedPlot2D__hasRequiredElements this : M heap _) ∧
  (∀ stream, readonly (SedPlot2D__writeElements this stream : M heap _)).
Proof.
  split_and!; intros;
    unfold SedComputeChange__writeElements, SedPlot2D__writeElements,
      SedListOf_write, writeMathML;
    autounfold with accessors;
    solve_readonly;
    first [apply readonly_write_items | apply readonly_get_id].
Qed.

(** ** Beyond the specification: the parent links under every mutator *)

Lemma pl_ret {A} (x : A) : preserves_links (ret x : M heap A).
Proof. intros h y h' Hinv Hrun. by injection Hrun as _ <-. Qed.

Lemma pl_readonly {A} (m : M heap A) : readonly m → preserves_links m.
Proof. intros Hm h y h' Hinv Hrun. by apply Hm in Hrun as ->. Qed.

Lemma pl_bind {A B} (m : M heap A) (f : A → M heap B) :
  preserves_links m → (∀ x, preserves_links (f x)) → preserves_links (m ≫= f).
Proof.
  intros Hm Hf h y h' Hinv Hrun.
  apply bind_Done_inv in Hrun as (x & h1 & Hx & Hrun).
  eapply Hf; [|exact Hrun]. eapply Hm; [exact Hinv|exact Hx].
Qed.

(** As [pl_bind], for a first step whose result is known to satisfy [Q]. *)
Lemma pl_bind_post {A B} (Q : A → Prop) (m : M heap A) (f : A → M heap B) :
  (∀ h x h', m h = Done x h' → Q x) →
  preserves_links m → (∀ x, Q x → preserves_links (f x)) →
  preserves_links (m ≫= f).
Proof.
  intros HQ Hm Hf h y h' Hinv Hrun.
  apply bind_Done_inv in Hrun as (x & h1 & Hx & Hrun).
  eapply Hf; [by eapply HQ| |exact Hrun]. eapply Hm; [exact Hinv|exact Hx].
Qed.

(** What is loaded from a store that satisfies the invariant is linked. *)
Lemma pl_load_cc {B} this (f : SedComputeChange → M heap B) :
  (∀ c, linked_cc this c → preserves_links (f c)) →
  preserves_links (load_cc this ≫= f).
Proof.
  intros Hf h y h' Hinv Hrun.
  apply bind_Done_inv in Hrun as (c & h1 & Hc & Hrun).
  apply load_cc_inv in Hc as (-> & Hc).
  eapply Hf; [|exact Hinv|exact Hrun]. exact (Hinv this _ Hc).
Qed.

Lemma pl_load_pd {B} this (f : SedPlot2D → M heap B) :
  (∀ c : SedPlot2D, linked_pd this c → preserves_links (f c)) →
  preserves_links (load_pd this ≫= f).
Proof.
  intros Hf h y h' Hinv Hrun.
  apply bind_Done_inv in Hrun as (c & h1 & Hc & Hrun).
  apply load_pd_inv in Hc as (-> & Hc).
  eapply Hf; [|exact Hinv|exact Hrun]. exact (Hinv this _ Hc).
Qed.

Lemma pl_store_cc this (c : SedComputeChange) :
  linked_cc this c → preserves_links (store_cc this c : M heap _).
Proof.
  intros Hl h y h' Hinv Hrun. rewrite store_cc_run in Hrun.
  simplify_eq. by apply parent_links_insert_new.
Qed.

Lemma pl_store_pd this (c : SedPlot2D) :
  linked_pd this c → preserves_links (store_pd this c : M heap _).
Proof.
  intros Hl h y h' Hinv Hrun. rewrite store_pd_run in Hrun.
  simplify_eq. by apply parent_links_insert_new.
Qed.

Lemma pl_alloc_leaf (c : cell) : is_leaf c → preserves_links (alloc c).
Proof.
  intros Hleaf h y h' Hinv Hrun. rewrite alloc_run in Hrun.
  injection Hrun as _ <-. apply parent_links_insert_new; [|done].
  by destruct c.
Qed.

Lemma pl_delete_ptr (p : option addr) : preserves_links (delete_ptr p : M heap _).
Proof.
  intros h y h' Hinv Hrun. unfold delete_ptr in Hrun.
  destruct p as [a|]; [|by simplify_eq].
  destruct (h !! a); [|discriminate]. simplify_eq.
  by apply map_Forall_delete.
Qed.

Lemma pl_delete_items items : preserves_links (delete_items items : M heap _).
Proof.
  induction items as [|a items IH]; cbn.
  - apply pl_ret.
  - apply pl_bind; [apply pl_delete_ptr|intros _; apply IH].
Qed.

Lemma pl_append k (l : SedListOf) item : preserves_links (append k l item : M heap _).
Proof.
  unfold append, clone_item. destruct item as [a|]; [|apply pl_ret].
  apply pl_bind; [|intros ?; apply pl_ret].
  apply pl_bind; [apply pl_readonly, readonly_load_item|].
  intros e. by apply pl_alloc_leaf.
Qed.

Lemma append_parent k (l : SedListOf) item h r (l' : SedListOf) h' :
  append k l item h = Done (r, l') h' →
  mParentSedObject l' = mParentSedObject l.
Proof.
  unfold append. destruct item as [a|].
  - intros Hrun. apply bind_Done_inv in Hrun as (p & h1 & _ & Hrun).
    cbn in Hrun. by injection Hrun as _ <- _.
  - intros Hrun. by injection Hrun as _ <- _.
Qed.

Lemma remove_id_parent k (l : SedListOf) sid h r (l' : SedListOf) h' :
  remove_id k l sid h = Done (r, l') h' →
  mParentSedObject l' = mParentSedObject l.
Proof.
  unfold remove_id. intros Hrun.
  apply bind_Done_inv in Hrun as (x & h1 & _ & Hrun).
  destruct x as [[n a]|]; cbv [ret] in Hrun.
  - injection Hrun as Hr _.
    destruct (remove_spec l n) as (_ & _ & Hp). rewrite Hr in Hp. exact Hp.
  - by injection Hrun as _ <- _.
Qed.

Lemma pl_remove_id k (l : SedListOf) sid :
  preserves_links (remove_id k l sid : M heap _).
Proof.
  apply pl_readonly. unfold remove_id. solve_readonly. apply readonly_find_id.
Qed.

Ltac solve_linked :=
  unfold linked_cc, linked_pd in *; cbn in *; intuition congruence.

Ltac pl_step :=
  match goal with
  | |- preserves_links (ret _) => apply pl_ret
  | |- preserves_links (mret _) => apply pl_ret
  | |- preserves_links (load_cc _ ≫= _) => apply pl_load_cc; intros ? ?
  | |- preserves_links (load_pd _ ≫= _) => apply pl_load_pd; intros ? ?
  | |- preserves_links (append _ _ _ ≫= _) =>
      eapply (pl_bind_post (λ rl, mParentSedObject rl.2 = _));
      [intros ? [? ?] ? ?; by eapply append_parent|apply pl_append|intros [? ?] ?]
  | |- preserves_links (remove_id _ _ _ ≫= _) =>
      eapply (pl_bind_post (λ rl, mParentSedObject rl.2 = _));
      [intros ? [? ?] ? ?; by eapply remove_id_parent|apply pl_remove_id|intros [? ?] ?]
  | |- preserves_links (_ ≫= _) => apply pl_bind; [|intros ?]
  | |- preserves_links (store_cc _ _) => apply pl_store_cc; solve_linked
  | |- preserves_links (store_pd _ _) => apply pl_store_pd; solve_linked
  | |- preserves_links (alloc (CItem _ _)) => apply pl_alloc_leaf; exact I
  | |- preserves_links (alloc (CMath _)) => apply pl_alloc_leaf; exact I
  | |- preserves_links (delete_ptr _) => apply pl_delete_ptr
  | |- preserves_links (delete_items _) => apply pl_delete_items
  | |- preserves_links (load_math _) => apply pl_readonly, readonly_load_math
  | |- preserves_links (if ?b then _ else _) => destruct b
  | |- preserves_links (match ?x with _ => _ end) => destruct x eqn:?
  end.

Ltac solve_pl := repeat pl_step.

(** X11: every method of the two classes that changes an object keeps the
    parent-link invariant of the store: if every collection of every live
    object points back to its owner before the call, the same holds after
    it.  This covers the setters of the expression, each [add], [create]
    and [remove], reading ([readOtherXML], [createObject]), relinking and
    destruction. *)
Theorem mutators_preserve_parent_links this :
  (∀ math, preserves_links (SedComputeChange__setMath this math : M heap _)) ∧
  preserves_links (SedComputeChange__unsetMath this : M heap _) ∧
  (∀ sv, preserves_links (SedComputeChange__addVariable this sv : M heap _)) ∧
  preserves_links (SedComputeChange__createVariable this : M heap _) ∧
  (∀ n, preserves_links (SedComputeChange__removeVariable this n : M heap _)) ∧
  (∀ sid, preserves_links (SedComputeChange__removeVariableById this sid : M heap _)) ∧
  (∀ sp, preserves_links (SedComputeChange__addParameter this sp : M heap _)) ∧
  preserves_links (SedComputeChange__createParameter this : M heap _) ∧
  (∀ n, preserves_links (SedComputeChange__removeParameter this n : M heap _)) ∧
  (∀ sid, preserves_links (SedComputeChange__removeParameterById this sid : M heap _)) ∧
  (∀ stream, preserves_links (SedComputeChange__readOtherXML this stream : M heap _)) ∧
  (∀ stream,
     preserves_links (SedComputeChange__createObject (R := R) this stream : M heap _)) ∧
  preserves_links (SedComputeChange__connectToChild this : M heap _) ∧
  preserves_links (SedComputeChange__delete this : M heap _) ∧
  (∀ sc, preserves_links (SedPlot2D__addCurve this sc : M heap _)) ∧
  preserves_links (SedPlot2D__createCurve this : M heap _) ∧
  (∀ n, preserves_links (SedPlot2D__removeCurve this n : M heap _)) ∧
  (∀ sid, preserves_links (SedPlot2D__removeCurveById this sid : M heap _)) ∧
  (∀ stream,
     preserves_links (SedPlot2D__createObject (R := R) this stream : M heap _)) ∧
  preserves_links (SedPlot2D__connectToChild this : M heap _) ∧
  preserves_links (SedPlot2D__delete this : M heap _).
Proof.
  split_and!; intros.
  - unfold SedComputeChange__setMath, deepCopy. solve_pl.
  - unfold SedComputeChange__unsetMath. solve_pl.
  - unfold SedComputeChange__addVariable. solve_pl.
  - unfold SedComputeChange__createVariable. solve_pl.
  - unfold SedComputeChange__removeVariable. apply pl_load_cc. intros c Hc.
    destruct (remove_spec (mVariable c) n) as (_ & _ & Hp).
    destruct (remove (mVariable c) n). solve_pl.
  - unfold SedComputeChange__removeVariableById. solve_pl.
  - unfold SedComputeChange__addParameter. solve_pl.
  - unfold SedComputeChange__createParameter. solve_pl.
  - unfold SedComputeChange__removeParameter. apply pl_load_cc. intros c Hc.
    destruct (remove_spec (mParameter c) n) as (_ & _ & Hp).
    destruct (remove (mParameter c) n). solve_pl.
  - unfold SedComputeChange__removeParameterById. solve_pl.
  - unfold SedComputeChange__readOtherXML. solve_pl.
  - unfold SedComputeChange__createObject. solve_pl.
  - unfold SedComputeChange__connectToChild. solve_pl.
  - unfold SedComputeChange__delete. solve_pl.
  - unfold SedPlot2D__addCurve. solve_pl.
  - unfold SedPlot2D__createCurve. solve_pl.
  - unfold SedPlot2D__removeCurve. apply pl_load_pd. intros p Hp0.
    destruct (remove_spec (mCurve p) n) as (_ & _ & Hp).
    destruct (remove (mCurve p) n). solve_pl.
  - unfold SedPlot2D__removeCurveById. solve_pl.
  - unfold SedPlot2D__createObject. solve_pl.
  - unfold SedPlot2D__connectToChild. solve_pl.
  - unfold SedPlot2D__delete. solve_pl.
Qed.

(** ** Beyond the specification: the life cycle of an object *)

Lemma without_lookup (l : list addr) h a :
  without l h !! a = if decide (a ∈ l) then None else h !! a.
Proof.
  unfold without. rewrite map_lookup_filter.
  destruct (h !! a) as [c|]; cbn.
  - destruct (decide (a ∈ l)).
    + by rewrite option_guard_False by (cbn; tauto).
    + by rewrite option_guard_True.
  - by destruct (decide (a ∈ l)).
Qed.

Lemma without_intro (l : list addr) h h' :
  (∀ a, a ∈ l → h' !! a = None) →
  (∀ a, a ∉ l → h' !! a = h !! a) →
  h' = without l h.
Proof.
  intros Hgone Hframe. apply map_eq. intros a. rewrite without_lookup.
  destruct (decide (a ∈ l)); auto.
Qed.

Lemma SedComputeChange__delete_run h this (c : SedComputeChange) v :
  h !! this = Some (CComputeChange c) →
  cc_view h c = Some v →
  NoDup (cc_owned c) →
  SedComputeChange__delete this h =
  Done tt (without (this :: mItems (mVariable c) ++ mItems (mParameter c)) h).
Proof.
  intros Hthis Hv Hnd.
  pose proof (cc_view_inv _ _ _ Hv) as (Hvs & Hps & _).
  unfold cc_owned in Hnd. apply NoDup_app in Hnd as (Hndv & Hdisj & Hnd).
  apply NoDup_app in Hnd as (Hndp & _ & _).
  destruct (delete_items_spec (mItems (mParameter c)) h Hndp)
    as (h1 & Hrun1 & Hgone1 & Hframe1).
  { eapply items_at_Forall_live; eauto. }
  destruct (delete_items_spec (mItems (mVariable c)) h1 Hndv)
    as (h2 & Hrun2 & Hgone2 & Hframe2).
  { apply Forall_forall. intros a Ha.
    rewrite Hframe1.
    { destruct (items_at_live _ _ _ _ _ Hvs Ha) as (e & He). eauto. }
    intros Hin. apply (Hdisj a Ha), elem_of_app. by left. }
  assert (Hthis_v : this ∉ mItems (mVariable c))
    by (eapply items_at_not_elem; [exact Hvs|exact Hthis|discriminate]).
  assert (Hthis_p : this ∉ mItems (mParameter c))
    by (eapply items_at_not_elem; [exact Hps|exact Hthis|discriminate]).
  unfold SedComputeChange__delete. mrun. rewrite Hrun1. mrun. rewrite Hrun2.
  cbn. rewrite Hframe2, Hframe1, Hthis by done. f_equal.
  apply without_intro.
  - intros a [->|[Ha|Ha]%elem_of_app]%elem_of_cons.
    + apply lookup_delete_eq.
    + rewrite lookup_delete_ne by congruence. by apply Hgone2.
    + rewrite lookup_delete_ne by congruence.
      destruct (decide (a ∈ mItems (mVariable c))); [by apply Hgone2|].
      rewrite Hframe2 by done. by apply Hgone1.
  - intros a Ha. apply not_elem_of_cons in Ha as (Hne & Ha).
    apply not_elem_of_app in Ha as (Hav & Hap).
    rewrite lookup_delete_ne by done. by rewrite Hframe2, Hframe1.
Qed.

Lemma SedPlot2D__delete_run h this (p : SedPlot2D) cs :
  h !! this = Some (CPlot2D p) →
  items_at h KCurve (mItems (mCurve p)) = Some cs →
  NoDup (mItems (mCurve p)) →
  SedPlot2D__delete this h = Done tt (without (this :: mItems (mCurve p)) h).
Proof.
  intros Hthis Hcs Hnd.
  destruct (delete_items_spec (mItems (mCurve p)) h Hnd)
    as (h1 & Hrun1 & Hgone1 & Hframe1).
  { eapply items_at_Forall_live; eauto. }
  assert (Hthis_c : this ∉ mItems (mCurve p))
    by (eapply items_at_not_elem; [exact Hcs|exact Hthis|discriminate]).
  unfold SedPlot2D__delete. mrun. rewrite Hrun1.
  cbn. rewrite Hframe1, Hthis by done. f_equal.
  apply without_intro.
  - intros a [->|Ha]%elem_of_cons.
    + apply lookup_delete_eq.
    + rewrite lookup_delete_ne by congruence. by apply Hgone1.
  - intros a Ha. apply not_elem_of_cons in Ha as (Hne & Ha).
    rewrite lookup_delete_ne by done. by rewrite Hframe1.
Qed.

(** X12: freeing a well-formed object that shares no child removes from the
    store the object and the children of its collections, and nothing else.
    In particular the expression of a [SedComputeChange] is not released: it
    is still live afterwards although nothing refers to it any more. *)
Theorem free_releases_children_not_expression :
  (∀ h this (c : SedComputeChange) v,
     h !! this = Some (CComputeChange c) →
     cc_view h c = Some v →
     NoDup (cc_owned c) →
     ∃ h',
       SedComputeChange_free (Some this) h = Done tt h' ∧
       h' = without (this :: mItems (mVariable c) ++ mItems (mParameter c)) h ∧
       h' !! this = None ∧
       (∀ a, a ∈ mItems (mVariable c) ++ mItems (mParameter c) → h' !! a = None) ∧
       (∀ p, mMath c = Some p →
          ∃ t, v_math v = Some t ∧ h' !! p = Some (CMath t))) ∧
  (∀ h this (p : SedPlot2D) cs,
     h !! this = Some (CPlot2D p) →
     items_at h KCurve (mItems (mCurve p)) = Some cs →
     NoDup (mItems (mCurve p)) →
     ∃ h',
       SedPlot2D_free (Some this) h = Done tt h' ∧
       h' = without (this :: mItems (mCurve p)) h ∧
       h' !! this = None ∧
       (∀ a, a ∈ mItems (mCurve p) → h' !! a = None)).
Proof.
  split.
  - intros h this c v Hthis Hv Hnd. eexists. split_and!.
    + by eapply SedComputeChange__delete_run.
    + reflexivity.
    + rewrite without_lookup. rewrite decide_True; [done|]. by left.
    + intros a Ha. rewrite without_lookup. rewrite decide_True; [done|]. by right.
    + intros p Ep. pose proof (cc_view_inv _ _ _ Hv) as (_ & _ & Hm).
      rewrite Ep in Hm. cbn in Hm.
      destruct (h !! p) as [[| t | |]|] eqn:E; try discriminate.
      injection Hm as Hm. exists t. split; [done|].
      rewrite without_lookup, decide_False; [done|].
      intros [->|Ha]%elem_of_cons; [congruence|].
      destruct (cc_view_item_cell _ _ _ _ Hv Ha) as (k & e & Ea). congruence.
  - intros h this p cs Hthis Hcs Hnd. eexists. split_and!.
    + by eapply SedPlot2D__delete_run.
    + reflexivity.
    + rewrite without_lookup. rewrite decide_True; [done|]. by left.
    + intros a Ha. rewrite without_lookup. rewrite decide_True; [done|]. by right.
Qed.

(** What assignment leaves in place: everything that was live and is
    neither the target nor one of the children it held. *)
Lemma SedComputeChange__assign_frame h this r (c0 c : SedComputeChange) v0 v :
  h !! this = Some (CComputeChange c0) →
  h !! r = Some (CComputeChange c) →
  r ≠ this →
  cc_view h c0 = Some v0 →
  cc_view h c = Some v →
  NoDup (cc_owned c0) →
  Forall (λ a, a ∉ cc_owned c0) (cc_owned c) →
  ∃ h' (c' : SedComputeChange),
    SedComputeChange__assign this (Some r) h = Done this h' ∧
    h' !! this = Some (CComputeChange c') ∧
    evolves (this :: mItems (mVariable c0) ++ mItems (mParameter c0)) h h' ∧
    Forall (λ a, h !! a = None ∨
                 a ∈ mItems (mVariable c0) ++ mItems (mParameter c0))
           (cc_owned c').
Proof.
  intros Hthis Hr Hne Hv0 Hv Hnd Hdisj.
  pose proof (cc_view_inv _ _ _ Hv0) as (Hvs0 & Hps0 & _).
  set (c1 := cc_with_super (cc_super c) c0).
  set (h1 := <[this := CComputeChange c1]> h).
  set (D := mItems (mVariable c0) ++ mItems (mParameter c0)).
  assert (HD : ∀ a, a ∈ D → a ∈ cc_owned c0).
  { intros a Ha. apply cc_owned_elem. apply elem_of_app in Ha. tauto. }
  assert (Hev1 : evolves [this] h h1) by apply evolves_insert.
  assert (Hthis_c : this ∉ cc_owned c)
    by (eapply cc_view_not_owned; [exact Hv|exact Hthis|by intros []]).
  assert (Hthis_c0 : this ∉ cc_owned c0)
    by (eapply cc_view_not_owned; [exact Hv0|exact Hthis|by intros []]).
  assert (Hv1 : cc_view h1 c = Some v).
  { eapply cc_view_evolves; [exact Hev1| |exact Hv].
    apply Forall_forall. intros a Ha ->%list_elem_of_singleton. contradiction. }
  assert (Hv01 : cc_view h1 c0 = Some v0).
  { eapply cc_view_evolves; [exact Hev1| |exact Hv0].
    apply Forall_forall. intros a Ha ->%list_elem_of_singleton. contradiction. }
  pose proof (cc_view_inv _ _ _ Hv01) as (Hvs01 & Hps01 & _).
  unfold cc_owned in Hnd. apply NoDup_app in Hnd as (Hndv & _ & Hnd).
  apply NoDup_app in Hnd as (Hndp & _ & _).
  destruct (SedComputeChange__copy_members_spec h1 this r c1 c v
              (v_variables v0) (v_parameters v0))
    as (h2 & c' & Hrun & Hthis2 & Hsuper & Hpv & Hpp & Hv2 & Hev2 & Hfresh);
    try done.
  { apply lookup_insert_eq. }
  { unfold h1. by rewrite lookup_insert_ne. }
  { eapply Forall_impl; [exact Hdisj|]. cbn. intros a Ha Hin.
    apply Ha. by apply HD. }
  cbn [c1 cc_with_super mVariable mParameter] in Hev2, Hfresh. fold D in Hev2, Hfresh.
  set (c2 := {| cc_super := super_connectToChild (cc_super c');
                mVariable := connectToParent (mVariable c') this;
                mParameter := connectToParent (mParameter c') this;
                mMath := mMath c' |}).
  exists (<[this := CComputeChange c2]> h2), c2. split_and!.
  - unfold SedComputeChange__assign.
    destruct (decide (r ≠ this)) as [_|]; [|contradiction].
    unfold SedChange__assign. mrun. fold c1 h1. rewrite Hrun. mrun.
    rewrite (SedComputeChange__connectToChild_run _ _ _ Hthis2). reflexivity.
  - apply lookup_insert_eq.
  - intros a x Ha Hn. apply not_elem_of_cons in Hn as (Hat & HaD).
    rewrite lookup_insert_ne by done. apply Hev2.
    + unfold h1. by rewrite lookup_insert_ne.
    + by apply not_elem_of_cons.
  - change (cc_owned c2) with (cc_owned c').
    eapply Forall_impl; [exact Hfresh|]. cbn. intros a [E|E]; [left|by right].
    unfold h1 in E. destruct (decide (a = this)) as [->|Hat].
    + by rewrite lookup_insert_eq in E.
    + by rewrite lookup_insert_ne in E.
Qed.

(** X13: [operator=] overwrites the expression pointer without releasing
    the tree it pointed to.  After an assignment from another well-formed
    object, the tree the target held before is still live and unchanged, but
    neither the target nor the source refers to it any more; the source
    itself is untouched. *)
Theorem assignment_leaks_previous_expression h this r (c0 c : SedComputeChange)
    v0 v p :
  h !! this = Some (CComputeChange c0) →
  h !! r = Some (CComputeChange c) →
  r ≠ this →
  cc_view h c0 = Some v0 →
  cc_view h c = Some v →
  NoDup (cc_owned c0) →
  Forall (λ a, a ∉ cc_owned c0) (cc_owned c) →
  mMath c0 = Some p →
  ∃ h' (c' : SedComputeChange) t,
    SedComputeChange__assign this (Some r) h = Done this h' ∧
    h' !! this = Some (CComputeChange c') ∧
    v_math v0 = Some t ∧
    h' !! p = Some (CMath t) ∧
    (p ∉ cc_owned c') ∧
    h' !! r = Some (CComputeChange c) ∧
    (p ∉ cc_owned c).
Proof.
  intros Hthis Hr Hne Hv0 Hv Hnd Hdisj Ep.
  destruct (SedComputeChange__assign_frame h this r c0 c v0 v)
    as (h' & c' & Hrun & Hthis' & Hev & Hfresh); try done.
  pose proof (cc_view_inv _ _ _ Hv0) as (_ & _ & Hm).
  rewrite Ep in Hm. cbn in Hm.
  destruct (h !! p) as [[| t | |]|] eqn:E; try discriminate.
  injection Hm as Hm.
  assert (HpD : p ∉ this :: mItems (mVariable c0) ++ mItems (mParameter c0)).
  { intros [->|Ha]%elem_of_cons; [congruence|].
    destruct (cc_view_item_cell _ _ _ _ Hv0 Ha) as (k & e & Ea). congruence. }
  exists h', c', t. split_and!; try done.
  - by apply Hev.
  - intros Hin. rewrite Forall_forall in Hfresh.
    destruct (Hfresh _ Hin) as [E'|E']; [congruence|].
    apply HpD. by right.
  - apply Hev; [done|]. intros [->|Ha]%elem_of_cons; [done|].
    destruct (cc_view_item_cell _ _ _ _ Hv0 Ha) as (k & e & Ea). congruence.
  - intros Hin. rewrite Forall_forall in Hdisj.
    apply (Hdisj _ Hin), cc_owned_elem. tauto.
Qed.

(** *** Copy, then free *)

Lemma SedListOf_assign_new k (rhs : SedListOf) h ps h' :
  clone_items k (mItems rhs) h = Done ps h' →
  SedListOf_assign k SedListOf_new rhs h =
  Done {| mItems := ps; mParentSedObject := mParentSedObject rhs |} h'.
Proof.
  intros Hrun. unfold SedListOf_assign. cbn [SedListOf_new mItems delete_items].
  mrun. rewrite Hrun. reflexivity.
Qed.

(** The copy constructor allocates the copy and what the copy owns, each
    once, and changes nothing else. *)
Lemma SedPlot2D__copy_footprint h o (p : SedPlot2D) cs :
  h !! o = Some (CPlot2D p) →
  items_at h KCurve (mItems (mCurve p)) = Some cs →
  ∃ this h' (p' : SedPlot2D),
    SedPlot2D__copy (Some o) h = Done this h' ∧
    h' !! this = Some (CPlot2D p') ∧
    NoDup (this :: mItems (mCurve p')) ∧
    agree_outside (this :: mItems (mCurve p')) h h'.
Proof.
  intros Ho Hcs.
  set (this := fresh (dom h)).
  assert (Hthis : h !! this = None) by apply fresh_None.
  assert (Hne : o ≠ this) by congruence.
  set (c0 := {| pd_super := pd_super p; mCurve := SedListOf_new |}).
  set (h1 := <[this := CPlot2D c0]> h).
  assert (Hsub1 : h ⊆ h1) by by apply insert_subseteq.
  assert (Ho1 : h1 !! o = Some (CPlot2D p)) by (eapply lookup_weaken; eauto).
  assert (Hthis1 : h1 !! this = Some (CPlot2D c0)) by apply lookup_insert_eq.
  destruct (clone_items_spec KCurve (mItems (mCurve p)) cs h1)
    as (ps & h2 & Hrun2 & Hsub2 & Hat2 & Hfr2 & Hnd2 & Hframe2).
  { eapply items_at_weaken; eauto. }
  rewrite Forall_forall in Hfr2.
  set (c1 := pd_with_mCurve
               {| mItems := ps; mParentSedObject := mParentSedObject (mCurve p) |} c0).
  set (h3 := <[this := CPlot2D c1]> h2).
  set (c2 := {| pd_super := super_connectToChild (pd_super c1);
                mCurve := connectToParent (mCurve c1) this |}).
  assert (Hthis_ps : this ∉ ps).
  { intros Hin. apply Hfr2 in Hin. congruence. }
  exists this, (<[this := CPlot2D c2]> h3), c2. split_and!.
  - unfold SedPlot2D__copy, SedOutput__copy. mrun. fold this c0 h1.
    unfold SedPlot2D__copy_members.
    rewrite bind_run, (load_pd_run _ _ _ Hthis1).
    rewrite bind_run, (load_pd_run _ _ _ Ho1).
    change (mCurve c0) with SedListOf_new.
    rewrite bind_run, (SedListOf_assign_new _ _ _ _ _ Hrun2). mrun. fold c0 c1 h3.
    rewrite (SedPlot2D__connectToChild_run h3 this c1) by apply lookup_insert_eq.
    reflexivity.
  - apply lookup_insert_eq.
  - cbn. by apply NoDup_cons.
  - intros a Ha. cbn in Ha. apply not_elem_of_cons in Ha as (Hat & Ha).
    unfold h3. rewrite !lookup_insert_ne by done.
    rewrite Hframe2 by done. unfold h1. by rewrite lookup_insert_ne.
Qed.

Lemma SedComputeChange__copy_footprint h o (c : SedComputeChange) v :
  h !! o = Some (CComputeChange c) →
  cc_view h c = Some v →
  ∃ this h' (c' : SedComputeChange),
    SedComputeChange__copy (Some o) h = Done this h' ∧
    h' !! this = Some (CComputeChange c') ∧
    NoDup (this :: cc_owned c') ∧
    agree_outside (this :: cc_owned c') h h'.
Proof.
  intros Ho Hv.
  pose proof (cc_view_inv _ _ _ Hv) as (Hvs & Hps & Hm).
  set (this := fresh (dom h)).
  assert (Hthis : h !! this = None) by apply fresh_None.
  assert (Hne : o ≠ this) by congruence.
  set (c0 := {| cc_super := cc_super c; mVariable := SedListOf_new;
                mParameter := SedListOf_new; mMath := None |}).
  set (h1 := <[this := CComputeChange c0]> h).
  assert (Hsub1 : h ⊆ h1) by by apply insert_subseteq.
  assert (Ho1 : h1 !! o = Some (CComputeChange c)) by (eapply lookup_weaken; eauto).
  assert (Hthis1 : h1 !! this = Some (CComputeChange c0)) by apply lookup_insert_eq.
  (* mVariable = orig.mVariable *)
  destruct (clone_items_spec KVariable (mItems (mVariable c)) (v_variables v) h1)
    as (ps & h2 & Hrun2 & Hsub2 & Hat2 & Hfr2 & Hnd2 & Hframe2).
  { eapply items_at_weaken; eauto. }
  rewrite Forall_forall in Hfr2.
  assert (Hthis_ps : this ∉ ps).
  { intros Hin. apply Hfr2 in Hin. congruence. }
  set (c1 := cc_with_mVariable
               {| mItems := ps; mParentSedObject := mParentSedObject (mVariable c) |}
               c0).
  set (h3 := <[this := CComputeChange c1]> h2).
  assert (Hthis3 : h3 !! this = Some (CComputeChange c1)) by apply lookup_insert_eq.
  assert (H13 : ∀ a x, h1 !! a = Some x → a ≠ this → h3 !! a = Some x).
  { intros a x Ha Hat. unfold h3. rewrite lookup_insert_ne by done.
    eapply lookup_weaken; eauto. }
  assert (Ho3 : h3 !! o = Some (CComputeChange c)) by by apply H13.
  (* mParameter = orig.mParameter *)
  destruct (clone_items_spec KParameter (mItems (mParameter c)) (v_parameters v) h3)
    as (qs & h4 & Hrun4 & Hsub4 & Hat4 & Hfr4 & Hnd4 & Hframe4).
  { eapply items_at_agree; [|eapply items_at_weaken; [exact Hsub1|exact Hps]].
    intros a Ha. destruct (items_at_live _ _ _ _ _ Hps Ha) as (e & He).
    assert (a ≠ this) by congruence.
    rewrite (H13 a (CItem KParameter e)); [|eapply lookup_weaken; eauto|done].
    symmetry. eapply lookup_weaken; eauto. }
  rewrite Forall_forall in Hfr4.
  assert (Hthis_qs : this ∉ qs).
  { intros Hin. apply Hfr4 in Hin. congruence. }
  assert (Hps_qs : ∀ a, a ∈ ps → a ∉ qs).
  { intros a Ha Hin. apply Hfr4 in Hin.
    destruct (items_at_live _ _ _ _ _ Hat2 Ha) as (e & He).
    unfold h3 in Hin. rewrite lookup_insert_ne in Hin by congruence. congruence. }
  set (c2 := cc_with_mParameter
               {| mItems := qs; mParentSedObject := mParentSedObject (mParameter c) |}
               c1).
  set (h5 := <[this := CComputeChange c2]> h4).
  assert (Hthis5 : h5 !! this = Some (CComputeChange c2)) by apply lookup_insert_eq.
  assert (H35 : ∀ a x, h3 !! a = Some x → a ≠ this → h5 !! a = Some x).
  { intros a x Ha Hat. unfold h5. rewrite lookup_insert_ne by done.
    eapply lookup_weaken; eauto. }
  assert (Ho5 : h5 !! o = Some (CComputeChange c)) by by apply H35.
  assert (Hps5 : ∀ a, a ∈ ps → is_Some (h5 !! a)).
  { intros a Ha. destruct (items_at_live _ _ _ _ _ Hat2 Ha) as (e & He).
    assert (a ≠ this) by congruence.
    exists (CItem KVariable e). apply H35; [|done].
    unfold h3. by rewrite lookup_insert_ne. }
  assert (Hqs5 : ∀ a, a ∈ qs → is_Some (h5 !! a)).
  { intros a Ha. destruct (items_at_live _ _ _ _ _ Hat4 Ha) as (e & He).
    assert (a ≠ this) by congruence.
    exists (CItem KParameter e). unfold h5. by rewrite lookup_insert_ne. }
  assert (Hframe5 : ∀ a, a ≠ this → a ∉ ps → a ∉ qs → h5 !! a = h !! a).
  { intros a H1 H2 H3. unfold h5. rewrite lookup_insert_ne by done.
    rewrite Hframe4 by done. unfold h3. rewrite lookup_insert_ne by done.
    rewrite Hframe2 by done. unfold h1. by rewrite lookup_insert_ne. }
  unfold SedComputeChange__copy, SedChange__copy. mrun. fold this c0 h1.
  unfold SedComputeChange__copy_members.
  rewrite bind_run, (load_cc_run _ _ _ Hthis1).
  rewrite bind_run, (load_cc_run _ _ _ Ho1).
  change (mVariable c0) with SedListOf_new.
  rewrite bind_run, (SedListOf_assign_new _ _ _ _ _ Hrun2).
  rewrite bind_run, store_cc_run. fold c0 c1 h3.
  rewrite bind_run, (load_cc_run _ _ _ Hthis3).
  rewrite bind_run, (load_cc_run _ _ _ Ho3).
  change (mParameter c1) with SedListOf_new.
  rewrite bind_run, (SedListOf_assign_new _ _ _ _ _ Hrun4).
  rewrite bind_run, store_cc_run. fold c0 c1 c2 h5.
  rewrite bind_run, (load_cc_run _ _ _ Ho5).
  destruct (mMath c) as [p|] eqn:Ep.
  - cbn in Hm. destruct (h !! p) as [[| t | |]|] eqn:E; try discriminate.
    assert (Hp5 : h5 !! p = Some (CMath t)).
    { apply H35; [|congruence]. apply H13; [|congruence].
      eapply lookup_weaken; eauto. }
    unfold deepCopy. mrun.
    set (q := fresh (dom h5)). set (h6 := <[q := CMath t]> h5).
    assert (Hq5 : h5 !! q = None) by apply fresh_None.
    assert (Hq_this : q ≠ this) by congruence.
    assert (Hthis6 : h6 !! this = Some (CComputeChange c2)).
    { unfold h6. by rewrite lookup_insert_ne. }
    rewrite (load_cc_run _ _ _ Hthis6). mrun.
    set (c3 := cc_with_mMath (Some q) c2).
    rewrite (SedComputeChange__connectToChild_run _ this c3)
      by apply lookup_insert_eq.
    rewrite insert_insert_eq.
    eexists _, _, _. split_and!; [reflexivity|apply lookup_insert_eq| |].
    + unfold cc_owned. cbn.
      apply NoDup_cons. split.
      * rewrite !elem_of_app, list_elem_of_singleton. intros [?|[?|?]]; congruence.
      * apply NoDup_app. split_and!; [done| |].
        -- intros a Ha [Hin|Hin%list_elem_of_singleton]%elem_of_app.
           ++ by apply (Hps_qs a).
           ++ subst a. destruct (Hps5 _ Ha) as (x & Hx). congruence.
        -- apply NoDup_app. split_and!; [done| |apply NoDup_singleton].
           intros a Ha ->%list_elem_of_singleton.
           destruct (Hqs5 _ Ha) as (x & Hx). congruence.
    + intros a Ha. unfold cc_owned in Ha. cbn in Ha.
      apply not_elem_of_cons in Ha as (H1 & Ha).
      apply not_elem_of_app in Ha as (H2 & Ha).
      apply not_elem_of_app in Ha as (H3 & Ha).
      rewrite list_elem_of_singleton in Ha.
      rewrite lookup_insert_ne by done. unfold h6.
      rewrite lookup_insert_ne by done. by apply Hframe5.
  - mrun.
    set (c3 := cc_with_mMath None c2).
    rewrite (SedComputeChange__connectToChild_run _ this c3)
      by apply lookup_insert_eq.
    rewrite insert_insert_eq.
    eexists _, _, _. split_and!; [reflexivity|apply lookup_insert_eq| |].
    + unfold cc_owned. cbn. rewrite app_nil_r.
      apply NoDup_cons. split.
      * rewrite !elem_of_app. tauto.
      * apply NoDup_app. split_and!; done.
    + intros a Ha. unfold cc_owned in Ha. cbn in Ha. rewrite app_nil_r in Ha.
      apply not_elem_of_cons in Ha as (H1 & Ha).
      apply not_elem_of_app in Ha as (H2 & H3).
      rewrite lookup_insert_ne by done. by apply Hframe5.
Qed.

(** X14: construction and copying are undone by [free], except for the
    expression.  Creating an object and freeing it leaves the store exactly
    as it was, and so does cloning a well-formed [SedPlot2D] and freeing the
    clone.  Cloning a well-formed [SedComputeChange] and freeing the clone
    leaves the store as it was when the object has no expression; when it
    has one, exactly one object more is left behind: the clone's copy of the
    tree, which the destructor does not release. *)
Theorem create_free_and_clone_free_round_trip :
  (∀ level version h,
     (SedComputeChange_create level version ≫= SedComputeChange_free) h
     = Done tt h) ∧
  (∀ level version h,
     (SedPlot2D_create level version ≫= SedPlot2D_free) h = Done tt h) ∧
  (∀ h this cs,
     view_pd h this = Some cs →
     (SedPlot2D_clone (Some this) ≫= SedPlot2D_free) h = Done tt h) ∧
  (∀ h this v,
     view_cc h this = Some v →
     ∃ h2,
       (SedComputeChange_clone (Some this) ≫= SedComputeChange_free) h
       = Done tt h2 ∧
       (v_math v = None → h2 = h) ∧
       (∀ t, v_math v = Some t →
          ∃ q, h !! q = None ∧ h2 = <[q := CMath t]> h)).
Proof.
  split_and!.
  - intros level version h.
    unfold SedComputeChange_create. rewrite !bind_run.
    rewrite SedComputeChange__new_run. cbv zeta. mrun.
    cbn [SedComputeChange_free].
    erewrite SedComputeChange__delete_run;
      [|apply lookup_insert_eq|reflexivity|constructor].
    f_equal. symmetry. apply without_intro.
    + intros a Ha. cbn in Ha. apply list_elem_of_singleton in Ha as ->.
      apply fresh_None.
    + intros a Ha. cbn in Ha. rewrite list_elem_of_singleton in Ha.
      by rewrite lookup_insert_ne.
  - intros level version h.
    unfold SedPlot2D_create. rewrite !bind_run.
    rewrite SedPlot2D__new_run. cbv zeta. mrun.
    cbn [SedPlot2D_free].
    erewrite SedPlot2D__delete_run;
      [|apply lookup_insert_eq|reflexivity|constructor].
    f_equal. symmetry. apply without_intro.
    + intros a Ha. cbn in Ha. apply list_elem_of_singleton in Ha as ->.
      apply fresh_None.
    + intros a Ha. cbn in Ha. rewrite list_elem_of_singleton in Ha.
      by rewrite lookup_insert_ne.
  - intros h this cs Hv. apply view_pd_inv in Hv as (p & Hthis & Hcs).
    destruct (SedPlot2D__copy_footprint h this p cs Hthis Hcs)
      as (q & h' & p' & Hrun & Hq' & Hnd & Hag).
    destruct (SedPlot2D__copy_spec h this p cs Hthis Hcs)
      as (q2 & h2 & p2 & Hrun2 & Hq & Hq2 & _ & _ & Hcs' & _ & Hfresh).
    rewrite Hrun in Hrun2. injection Hrun2 as <- <-.
    rewrite Hq' in Hq2. injection Hq2 as <-.
    rewrite Forall_forall in Hfresh. apply NoDup_cons in Hnd as (_ & Hnd).
    unfold SedPlot2D_clone, SedPlot2D__clone. rewrite !bind_run, Hrun. mrun.
    cbn [SedPlot2D_free].
    rewrite (SedPlot2D__delete_run h' q p' cs Hq' Hcs' Hnd).
    f_equal. symmetry. apply without_intro.
    + intros a [->|Ha]%elem_of_cons; [done|by apply Hfresh].
    + intros a Ha. symmetry. by apply Hag.
  - intros h this v Hv. apply view_cc_inv in Hv as (c & Hthis & Hv).
    destruct (SedComputeChange__copy_footprint h this c v Hthis Hv)
      as (q & h' & c' & Hrun & Hq' & Hnd & Hag).
    destruct (SedComputeChange__copy_spec h this c v Hthis Hv)
      as (q2 & h2 & c2 & Hrun2 & Hq & Hq2 & _ & _ & Hv' & _ & Hfresh).
    rewrite Hrun in Hrun2. injection Hrun2 as <- <-.
    rewrite Hq' in Hq2. injection Hq2 as <-.
    rewrite Forall_forall in Hfresh.
    pose proof Hnd as Hnd0. apply NoDup_cons in Hnd as (Hq_owned & Hnd).
    pose proof (cc_view_inv _ _ _ Hv') as (_ & _ & Hm').
    eexists. split_and!.
    + unfold SedComputeChange_clone, SedComputeChange__clone.
      rewrite !bind_run, Hrun. mrun. cbn [SedComputeChange_free].
      by rewrite (SedComputeChange__delete_run h' q c' v Hq' Hv' Hnd).
    + intros Hnone. rewrite Hnone in Hm'. apply math_at_None_inv in Hm'.
      symmetry. apply without_intro.
      * intros a [->|Ha]%elem_of_cons; [done|].
        apply Hfresh, cc_owned_elem. apply elem_of_app in Ha. tauto.
      * intros a Ha. symmetry. apply Hag.
        intros [->|Hin]%elem_of_cons; [apply Ha; by left|].
        apply Ha. right. apply cc_owned_elem in Hin. rewrite Hm' in Hin.
        apply elem_of_app. destruct Hin as [?|[?|?]]; [tauto|tauto|discriminate].
    + intros t Et. rewrite Et in Hm'.
      apply math_at_Some_inv in Hm' as (m & Em & Hm').
      assert (Hm_owned : m ∈ cc_owned c') by (apply cc_owned_elem; tauto).
      assert (Hm_not : m ∉ q :: mItems (mVariable c') ++ mItems (mParameter c')).
      { intros [->|Ha]%elem_of_cons; [contradiction|].
        destruct (cc_view_item_cell _ _ _ _ Hv' Ha) as (k & e & Ea). congruence. }
      exists m. split; [by apply Hfresh|].
      apply map_eq. intros a. rewrite without_lookup.
      destruct (decide (a = m)) as [->|Ham].
      * rewrite decide_False by done. by rewrite lookup_insert_eq.
      * rewrite lookup_insert_ne by done.
        destruct (decide (a ∈ q :: mItems (mVariable c') ++ mItems (mParameter c')))
          as [Hin|Hin].
        -- symmetry. apply elem_of_cons in Hin as [->|Hin]; [done|].
           apply Hfresh, cc_owned_elem. apply elem_of_app in Hin. tauto.
        -- apply Hag.
           intros [->|Hin']%elem_of_cons; [apply Hin; by left|].
           apply Hin. right. apply cc_owned_elem in Hin'. rewrite Em in Hin'.
           apply elem_of_app. destruct Hin' as [?|[?|?]]; [tauto|tauto|congruence].
Qed.

(** *** Access by identifier *)

Lemma position_of_id_cons sid e es :
  position_of_id sid (e :: es) =
  if decide (mId e = sid) then Some 0 else S <$> position_of_id sid es.
Proof.
  unfold position_of_id. cbn [list_find].
  destruct (decide (mId e = sid)) as [E|E]; [done|].
  by destruct (list_find (λ e0, mId e0 = sid) es) as [[n x]|].
Qed.

Lemma position_of_id_Some sid es n :
  position_of_id sid es = Some n ↔
  ∃ e, es !! n = Some e ∧ mId e = sid ∧
       ∀ j e', es !! j = Some e' → j < n → mId e' ≠ sid.
Proof.
  unfold position_of_id. split.
  - intros Hf. destruct (list_find _ es) as [[i x]|] eqn:E; [|done].
    cbn in Hf. injection Hf as ->. apply list_find_Some in E. eauto.
  - intros (e & He).
    apply (list_find_Some (λ e0, mId e0 = sid)) in He. by rewrite He.
Qed.

Lemma position_of_id_None sid es :
  position_of_id sid es = None ↔ ∀ e, e ∈ es → mId e ≠ sid.
Proof.
  unfold position_of_id. rewrite fmap_None, list_find_None, Forall_forall. done.
Qed.

Lemma find_id_run h k sid l es i :
  items_at h k l = Some es →
  find_id k sid l i h =
  Done (n ← position_of_id sid es; a ← l !! n; Some (i + n, a)) h.
Proof.
  revert es i. induction l as [|a l IH]; intros es i Hes.
  - rewrite items_at_nil in Hes. injection Hes as <-. reflexivity.
  - apply items_at_cons in Hes as (e & es' & Ha & Hes' & ->).
    cbn [find_id]. mrun. rewrite position_of_id_cons.
    destruct (decide (mId e = sid)) as [E|E].
    + cbn. by rewrite Nat.add_0_r.
    + rewrite (IH es' (S i) Hes').
      destruct (position_of_id sid es') as [n|]; [|done].
      cbn. destruct (l !! n); [|done]. cbn. do 3 f_equal. lia.
Qed.

Lemma get_id_run h k (l : SedListOf) es sid :
  items_at h k (mItems l) = Some es →
  get_id k l sid h = Done (position_of_id sid es ≫= λ n, mItems l !! n) h.
Proof.
  intros Hes. unfold get_id. rewrite bind_run, (find_id_run h k sid _ es 0 Hes).
  destruct (position_of_id sid es) as [n|]; [|done].
  cbn. by destruct (mItems l !! n).
Qed.

Lemma remove_id_run h k (l : SedListOf) es sid :
  items_at h k (mItems l) = Some es →
  remove_id k l sid h =
  Done (match position_of_id sid es with
        | Some n => remove l n
        | None => (None, l)
        end) h.
Proof.
  intros Hes. unfold remove_id. rewrite bind_run, (find_id_run h k sid _ es 0 Hes).
  destruct (position_of_id sid es) as [n|] eqn:En; [|done].
  apply position_of_id_Some in En as (e & He & _).
  apply items_at_Forall2 in Hes.
  destruct (Forall2_lookup_r _ _ _ _ _ Hes He) as (a & Ha & _).
  cbn. rewrite Ha. reflexivity.
Qed.

(** X17: access by identifier is access by the position of the first
    element that carries the identifier.  On a well-formed object the [get]
    by identifier returns the pointer stored at that position, and the
    [remove] by identifier does what the [remove] by position does there;
    when no element carries the identifier both return null and the store
    is left exactly as it was. *)
Theorem by_identifier_is_by_first_position :
  (∀ h this (c : SedComputeChange) v sid,
     h !! this = Some (CComputeChange c) →
     cc_view h c = Some v →
     let found := position_of_id sid (v_variables v) in
     SedComputeChange__getVariableById this sid h
       = Done (found ≫= λ n, mItems (mVariable c) !! n) h ∧
     SedComputeChange__removeVariableById this sid h
       = match found with
         | Some n => SedComputeChange__removeVariable this n h
         | None => Done None h
         end) ∧
  (∀ h this (c : SedComputeChange) v sid,
     h !! this = Some (CComputeChange c) →
     cc_view h c = Some v →
     let found := position_of_id sid (v_parameters v) in
     SedComputeChange__getParameterById this sid h
       = Done (found ≫= λ n, mItems (mParameter c) !! n) h ∧
     SedComputeChange__removeParameterById this sid h
       = match found with
         | Some n => SedComputeChange__removeParameter this n h
         | None => Done None h
         end) ∧
  (∀ h this (p : SedPlot2D) cs sid,
     h !! this = Some (CPlot2D p) →
     items_at h KCurve (mItems (mCurve p)) = Some cs →
     let found := position_of_id sid cs in
     SedPlot2D__getCurveById this sid h
       = Done (found ≫= λ n, mItems (mCurve p) !! n) h ∧
     SedPlot2D__removeCurveById this sid h
       = match found with
         | Some n => SedPlot2D__removeCurve this n h
         | None => Done None h
         end) ∧
  (∀ sid es,
     (∀ n, position_of_id sid es = Some n ↔
        ∃ e, es !! n = Some e ∧ mId e = sid ∧
             ∀ j e', es !! j = Some e' → j < n → mId e' ≠ sid) ∧
     (position_of_id sid es = None ↔ ∀ e, e ∈ es → mId e ≠ sid)).
Proof.
  split_and!.
  - intros h this c v sid Hthis Hv found.
    pose proof (cc_view_inv _ _ _ Hv) as (Hvs & _ & _). split.
    + unfold SedComputeChange__getVariableById. mrun.
      by rewrite (get_id_run _ _ _ _ _ Hvs).
    + unfold SedComputeChange__removeVariableById. mrun.
      rewrite (remove_id_run _ _ _ _ _ Hvs). fold found.
      destruct found as [n|].
      * rewrite (SedComputeChange__removeVariable_run _ _ _ n Hthis).
        destruct (remove_spec (mVariable c) n) as (Hr & _).
        destruct (remove (mVariable c) n) as [r l]. mrun. cbn in Hr. by rewrite Hr.
      * mrun. rewrite cc_with_mVariable_id. f_equal. by apply insert_id.
  - intros h this c v sid Hthis Hv found.
    pose proof (cc_view_inv _ _ _ Hv) as (_ & Hps & _). split.
    + unfold SedComputeChange__getParameterById. mrun.
      by rewrite (get_id_run _ _ _ _ _ Hps).
    + unfold SedComputeChange__removeParameterById. mrun.
      rewrite (remove_id_run _ _ _ _ _ Hps). fold found.
      destruct found as [n|].
      * rewrite (SedComputeChange__removeParameter_run _ _ _ n Hthis).
        destruct (remove_spec (mParameter c) n) as (Hr & _).
        destruct (remove (mParameter c) n) as [r l]. mrun. cbn in Hr. by rewrite Hr.
      * mrun. rewrite cc_with_mParameter_id. f_equal. by apply insert_id.
  - intros h this p cs sid Hthis Hcs found. split.
    + unfold SedPlot2D__getCurveById. mrun.
      by rewrite (get_id_run _ _ _ _ _ Hcs).
    + unfold SedPlot2D__removeCurveById. mrun.
      rewrite (remove_id_run _ _ _ _ _ Hcs). fold found.
      destruct found as [n|].
      * rewrite (SedPlot2D__removeCurve_run _ _ _ n Hthis).
        destruct (remove_spec (mCurve p) n) as (Hr & _).
        destruct (remove (mCurve p) n) as [r l]. mrun. cbn in Hr. by rewrite Hr.
      * mrun. rewrite pd_with_mCurve_id. f_equal. by apply insert_id.
  - intros sid es. split.
    + intros n. apply position_of_id_Some.
    + apply position_of_id_None.
Qed.

(** *** Adding, then looking up by identifier *)

Lemma position_of_id_snoc sid es e :
  position_of_id sid (es ++ [e]) =
  match position_of_id sid es with
  | Some n => Some n
  | None => if decide (mId e = sid) then Some (length es) else None
  end.
Proof.
  induction es as [|e0 es IH]; cbn [app length].
  - rewrite position_of_id_cons. unfold position_of_id. cbn.
    by destruct (decide (mId e = sid)).
  - rewrite !position_of_id_cons. destruct (decide (mId e0 = sid)); [done|].
    rewrite IH. destruct (position_of_id sid es); [done|].
    by destruct (decide (mId e = sid)).
Qed.

Lemma get_id_after_append h k (l l' : SedListOf) es e q :
  items_at h k (mItems l') = Some (es ++ [e]) →
  mItems l' = mItems l ++ [q] →
  length (mItems l) = length es →
  get_id k l' (mId e) h =
  Done (Some (default q (position_of_id (mId e) es ≫= λ n, mItems l !! n))) h.
Proof.
  intros Hes Hl Hlen. rewrite (get_id_run _ _ _ _ _ Hes), position_of_id_snoc.
  f_equal. destruct (position_of_id (mId e) es) as [n|] eqn:En.
  - apply position_of_id_Some in En as (e0 & He0 & _).
    apply lookup_lt_Some in He0. cbn. rewrite Hl, lookup_app_l by lia.
    destruct (mItems l !! n) eqn:E; [done|].
    apply lookup_ge_None in E. lia.
  - rewrite decide_True by done. cbn.
    by rewrite Hl, <- Hlen, lookup_app_r, Nat.sub_diag by lia.
Qed.

(** X18: adding, then looking up by the identifier of what was added.  On a
    well-formed object, after [add] with a live element the lookup by that
    element's identifier finds the new copy if no element carried the
    identifier before; if one did, [add] still succeeds and the lookup keeps
    returning the first element that carried it, not the new one. *)
Theorem add_then_get_by_identifier :
  (∀ h this (c : SedComputeChange) v sv e,
     h !! this = Some (CComputeChange c) →
     cc_view h c = Some v →
     h !! sv = Some (CItem KVariable e) →
     ∃ q h',
       SedComputeChange__addVariable this (Some sv) h
         = Done LIBSEDML_OPERATION_SUCCESS h' ∧
       h !! q = None ∧
       h' !! q = Some (CItem KVariable e) ∧
       (position_of_id (mId e) (v_variables v) = None →
          SedComputeChange__getVariableById this (mId e) h' = Done (Some q) h') ∧
       (∀ n, position_of_id (mId e) (v_variables v) = Some n →
          SedComputeChange__getVariableById this (mId e) h'
            = Done (mItems (mVariable c) !! n) h' ∧
          mItems (mVariable c) !! n ≠ Some q)) ∧
  (∀ h this (c : SedComputeChange) v sp e,
     h !! this = Some (CComputeChange c) →
     cc_view h c = Some v →
     h !! sp = Some (CItem KParameter e) →
     ∃ q h',
       SedComputeChange__addParameter this (Some sp) h
         = Done LIBSEDML_OPERATION_SUCCESS h' ∧
       h !! q = None ∧
       h' !! q = Some (CItem KParameter e) ∧
       (position_of_id (mId e) (v_parameters v) = None →
          SedComputeChange__getParameterById this (mId e) h' = Done (Some q) h') ∧
       (∀ n, position_of_id (mId e) (v_parameters v) = Some n →
          SedComputeChange__getParameterById this (mId e) h'
            = Done (mItems (mParameter c) !! n) h' ∧
          mItems (mParameter c) !! n ≠ Some q)) ∧
  (∀ h this (p : SedPlot2D) cs sc e,
     h !! this = Some (CPlot2D p) →
     items_at h KCurve (mItems (mCurve p)) = Some cs →
     h !! sc = Some (CItem KCurve e) →
     ∃ q h',
       SedPlot2D__addCurve this (Some sc) h
         = Done LIBSEDML_OPERATION_SUCCESS h' ∧
       h !! q = None ∧
       h' !! q = Some (CItem KCurve e) ∧
       (position_of_id (mId e) cs = None →
          SedPlot2D__getCurveById this (mId e) h' = Done (Some q) h') ∧
       (∀ n, position_of_id (mId e) cs = Some n →
          SedPlot2D__getCurveById this (mId e) h'
            = Done (mItems (mCurve p) !! n) h' ∧
          mItems (mCurve p) !! n ≠ Some q)).
Proof.
  split_and!.
  - intros h this c v sv e Hthis Hv Hsv.
    pose proof (cc_view_inv _ _ _ Hv) as (Hvs & _ & _).
    pose proof (fresh_lookup_ne _ _ _ Hthis) as Hq.
    set (q := fresh (dom h)) in *.
    set (l' := {| mItems := mItems (mVariable c) ++ [q];
                  mParentSedObject := mParentSedObject (mVariable c) |}).
    set (h' := <[this := CComputeChange (cc_with_mVariable l' c)]>
                 (<[q := CItem KVariable e]> h)).
    pose proof (appended_view_cc_variables h this c v e l' Hthis Hv eq_refl) as Hview.
    fold q h' in Hview.
    apply view_cc_inv in Hview as (c' & Hc' & Hv').
    assert (c' = cc_with_mVariable l' c) as ->.
    { unfold h' in Hc'. rewrite lookup_insert_eq in Hc'. by injection Hc'. }
    pose proof (cc_view_inv _ _ _ Hv') as (Hvs' & _ & _). cbn in Hvs'.
    assert (Hget : SedComputeChange__getVariableById this (mId e) h'
                   = Done (Some (default q (position_of_id (mId e) (v_variables v)
                                             ≫= λ n, mItems (mVariable c) !! n))) h').
    { unfold SedComputeChange__getVariableById. rewrite bind_run.
      rewrite (load_cc_run _ _ _ Hc').
      apply (get_id_after_append h' KVariable (mVariable c) l'); [done|done|].
      symmetry. by eapply items_at_length. }
    exists q, h'. split_and!.
    + by apply addVariable_run.
    + apply fresh_None.
    + unfold h'. rewrite lookup_insert_ne by done. apply lookup_insert_eq.
    + intros Hnone. by rewrite Hget, Hnone.
    + intros n Hn. rewrite Hget, Hn. cbn.
      apply position_of_id_Some in Hn as (e0 & He0 & _).
      apply items_at_Forall2 in Hvs.
      destruct (Forall2_lookup_r _ _ _ _ _ Hvs He0) as (a & Ha & Hcell).
      rewrite Ha. split; [done|]. intros [= ->].
      pose proof (fresh_None h). fold q in H1. congruence.
  - intros h this c v sp e Hthis Hv Hsp.
    pose proof (cc_view_inv _ _ _ Hv) as (_ & Hps & _).
    pose proof (fresh_lookup_ne _ _ _ Hthis) as Hq.
    set (q := fresh (dom h)) in *.
    set (l' := {| mItems := mItems (mParameter c) ++ [q];
                  mParentSedObject := mParentSedObject (mParameter c) |}).
    set (h' := <[this := CComputeChange (cc_with_mParameter l' c)]>
                 (<[q := CItem KParameter e]> h)).
    pose proof (appended_view_cc_parameters h this c v e l' Hthis Hv eq_refl) as Hview.
    fold q h' in Hview.
    apply view_cc_inv in Hview as (c' & Hc' & Hv').
    assert (c' = cc_with_mParameter l' c) as ->.
    { unfold h' in Hc'. rewrite lookup_insert_eq in Hc'. by injection Hc'. }
    pose proof (cc_view_inv _ _ _ Hv') as (_ & Hps' & _). cbn in Hps'.
    assert (Hget : SedComputeChange__getParameterById this (mId e) h'
                   = Done (Some (default q (position_of_id (mId e) (v_parameters v)
                                             ≫= λ n, mItems (mParameter c) !! n))) h').
    { unfold SedComputeChange__getParameterById. rewrite bind_run.
      rewrite (load_cc_run _ _ _ Hc').
      apply (get_id_after_append h' KParameter (mParameter c) l'); [done|done|].
      symmetry. by eapply items_at_length. }
    exists q, h'. split_and!.
    + by apply addParameter_run.
    + apply fresh_None.
    + unfold h'. rewrite lookup_insert_ne by done. apply lookup_insert_eq.
    + intros Hnone. by rewrite Hget, Hnone.
    + intros n Hn. rewrite Hget, Hn. cbn.
      apply position_of_id_Some in Hn as (e0 & He0 & _).
      apply items_at_Forall2 in Hps.
      destruct (Forall2_lookup_r _ _ _ _ _ Hps He0) as (a & Ha & Hcell).
      rewrite Ha. split; [done|]. intros [= ->].
      pose proof (fresh_None h). fold q in H1. congruence.
  - intros h this p cs sc e Hthis Hcs Hsc.
    pose proof (fresh_lookup_ne _ _ _ Hthis) as Hq.
    set (q := fresh (dom h)) in *.
    set (l' := {| mItems := mItems (mCurve p) ++ [q];
                  mParentSedObject := mParentSedObject (mCurve p) |}).
    set (h' := <[this := CPlot2D (pd_with_mCurve l' p)]>
                 (<[q := CItem KCurve e]> h)).
    pose proof (appended_view_pd h this p cs e l' Hthis Hcs eq_refl) as Hview.
    fold q h' in Hview.
    apply view_pd_inv in Hview as (p' & Hp' & Hcs').
    assert (p' = pd_with_mCurve l' p) as ->.
    { unfold h' in Hp'. rewrite lookup_insert_eq in Hp'. by injection Hp'. }
    cbn in Hcs'.
    assert (Hget : SedPlot2D__getCurveById this (mId e) h'
                   = Done (Some (default q (position_of_id (mId e) cs
                                             ≫= λ n, mItems (mCurve p) !! n))) h').
    { unfold SedPlot2D__getCurveById. rewrite bind_run.
      rewrite (load_pd_run _ _ _ Hp').
      apply (get_id_after_append h' KCurve (mCurve p) l'); [done|done|].
      symmetry. by eapply items_at_length. }
    exists q, h'. split_and!.
    + by apply addCurve_run.
    + apply fresh_None.
    + unfold h'. rewrite lookup_insert_ne by done. apply lookup_insert_eq.
    + intros Hnone. by rewrite Hget, Hnone.
    + intros n Hn. rewrite Hget, Hn. cbn.
      apply position_of_id_Some in Hn as (e0 & He0 & _).
      apply items_at_Forall2 in Hcs.
      destruct (Forall2_lookup_r _ _ _ _ _ Hcs He0) as (a & Ha & Hcell).
      rewrite Ha. split; [done|]. intros [= ->].
      pose proof (fresh_None h). fold q in H1. congruence.
Qed.

(** *** Cloning, then writing *)

(** X19: a clone is written like its original.  After [clone] on a
    well-formed object, [writeElements] of the clone and of the original
    produce the same wrappers, children and expression in the same order;
    the two outputs differ at most in what the superclass writes first. *)
Theorem clone_writes_same_elements :
  (∀ h this (c : SedComputeChange) v stream,
     h !! this = Some (CComputeChange c) →
     cc_view h c = Some v →
     ∃ p h' (c' : SedComputeChange) body,
       SedComputeChange__clone this h = Done p h' ∧
       h' !! p = Some (CComputeChange c') ∧
       SedComputeChange__writeElements this stream h'
         = Done (stream ++ EvSuperElements (cc_super c) :: body) h' ∧
       SedComputeChange__writeElements p stream h'
         = Done (stream ++ EvSuperElements (cc_super c') :: body) h' ∧
       cc_super c' = super_connectToChild (cc_super c)) ∧
  (∀ h this (p : SedPlot2D) cs stream,
     h !! this = Some (CPlot2D p) →
     items_at h KCurve (mItems (mCurve p)) = Some cs →
     ∃ q h' (p' : SedPlot2D) body,
       SedPlot2D__clone this h = Done q h' ∧
       h' !! q = Some (CPlot2D p') ∧
       SedPlot2D__writeElements this stream h'
         = Done (stream ++ EvSuperElements (pd_super p) :: body) h' ∧
       SedPlot2D__writeElements q stream h'
         = Done (stream ++ EvSuperElements (pd_super p') :: body) h' ∧
       pd_super p' = super_connectToChild (pd_super p)).
Proof.
  split.
  - intros h this c v stream Hthis Hv.
    destruct (SedComputeChange__copy_spec h this c v Hthis Hv)
      as (p & h' & c' & Hrun & Hp & Hp' & Hsuper & _ & Hv' & Hsub & _).
    assert (Hthis' : h' !! this = Some (CComputeChange c))
      by (eapply lookup_weaken; eauto).
    assert (Hvthis : cc_view h' c = Some v).
    { eapply cc_view_agree; [exact Hv|]. intros a Ha.
      destruct (cc_view_leaf _ _ _ _ Hv Ha) as (x & Hx & _).
      rewrite Hx. eapply lookup_weaken; eauto. }
    exists p, h', c', (wrapper_events KVariable (v_variables v)
                         ++ wrapper_events KParameter (v_parameters v)
                         ++ math_events (v_math v)).
    split_and!; [exact Hrun|exact Hp'| | |exact Hsuper].
    + by rewrite (SedComputeChange__writeElements_run _ _ _ _ stream Hthis' Hvthis).
    + by rewrite (SedComputeChange__writeElements_run _ _ _ _ stream Hp' Hv').
  - intros h this p cs stream Hthis Hcs.
    destruct (SedPlot2D__copy_spec h this p cs Hthis Hcs)
      as (q & h' & p' & Hrun & Hq & Hq' & Hsuper & _ & Hcs' & Hsub & _).
    assert (Hthis' : h' !! this = Some (CPlot2D p))
      by (eapply lookup_weaken; eauto).
    assert (Hcsthis : items_at h' KCurve (mItems (mCurve p)) = Some cs)
      by (eapply items_at_weaken; eauto).
    exists q, h', p', (wrapper_events KCurve cs).
    split_and!; [exact Hrun|exact Hq'| | |exact Hsuper].
    + by rewrite (SedPlot2D__writeElements_run _ _ _ _ stream Hthis' Hcsthis).
    + by rewrite (SedPlot2D__writeElements_run _ _ _ _ stream Hq' Hcs').
Qed.

End Properties.

(** ** The diagnostic codes *)

(** C9: every enumerator of [SedErrorCode_t] has a value between 10000 and
    99999; [UnknownError] = 10000 is the least and [SedCodesUpperBound] =
    99999 the greatest, and no other enumerator has either value.  The
    enumerators are declared in strictly increasing order of their values;
    [LibSedAdditionalCodesLowerBound] has the value 90000, so the enumerators
    declared before it are exactly those below 90000 and the ones declared
    from it on are at or above 90000. *)
Theorem SedErrorCode_bands :
  (∀ c, (10000 ≤ SedError.SedErrorCode_value c ≤ 99999)%Z) ∧
  SedError.SedErrorCode_value SedError.UnknownError = 10000%Z ∧
  SedError.SedErrorCode_value SedError.SedCodesUpperBound = 99999%Z ∧
  (∀ c, SedError.SedErrorCode_value c = 10000%Z → c = SedError.UnknownError) ∧
  (∀ c, SedError.SedErrorCode_value c = 99999%Z → c = SedError.SedCodesUpperBound) ∧
  SedError.SedErrorCode_value SedError.LibSedAdditionalCodesLowerBound = 90000%Z ∧
  SedError.strictly_increasing
    (map SedError.SedErrorCode_value SedError.SedErrorCode_all) = true ∧
  (∀ c, SedError.SedErrorCode_all !! SedError.declared_at c = Some c) ∧
  (∀ c,
     (SedError.declared_at c
        <? SedError.declared_at SedError.LibSedAdditionalCodesLowerBound)%nat
     = (SedError.SedErrorCode_value c <? 90000)%Z).
Proof.
  split_and!.
  - intros c. destruct c; vm_compute; split; discriminate.
  - reflexivity.
  - reflexivity.
  - intros c. destruct c; vm_compute; (reflexivity || discriminate).
  - intros c. destruct c; vm_compute; (reflexivity || discriminate).
  - reflexivity.
  - vm_compute. reflexivity.
  - intros c. destruct c; vm_compute; reflexivity.
  - intros c. destruct c; vm_compute; reflexivity.
Qed.

Lemma SedErrorCode_bands_witness :
  (10000 ≤ SedError.SedErrorCode_value SedError.EmptyListElement ≤ 99999)%Z.
Proof. apply (proj1 SedErrorCode_bands SedError.EmptyListElement). Defined.

(** ** The model at work on a concrete store *)

#[local] Existing Instances demo_sbml demo_common demo_super.

Lemma clone_is_independent_deep_copy_witness :
  view_cc demo_heap 1%positive = Some demo_view ∧
  ∃ p h',
    SedComputeChange__clone 1%positive demo_heap = Done p h' ∧
    demo_heap !! p = None ∧
    view_cc h' p = Some demo_view ∧
    view_cc h' 1%positive = Some demo_view.
Proof.
  assert (Hv : view_cc demo_heap 1%positive = Some demo_view)
    by (vm_compute; reflexivity).
  split; [exact Hv|].
  destruct (proj1 (clone_is_independent_deep_copy
                     (SuperClass0 := demo_super) (SuperClass1 := demo_super))
              demo_heap 1%positive demo_view Hv)
    as (p & h' & Hrun & Hp & Hv' & Hown & Hind).
  exists p, h'. split_and!; try done.
  apply Hind. intros a Ha. reflexivity.
Defined.

Lemma add_null_rejected_else_appends_copy_witness :
  demo_heap !! 1%positive = Some (CComputeChange demo_cc) ∧
  demo_heap !! 8%positive = Some (CItem KVariable {| mId := "x"; mName := EmptyString |}) ∧
  ∃ h',
    SedComputeChange__addVariable 1%positive (Some 8%positive) demo_heap
      = Done 0%Z h' ∧
    SedComputeChange__getNumVariables 1%positive h' = Done 3 h'.
Proof.
  assert (Hc : demo_heap !! 1%positive = Some (CComputeChange demo_cc))
    by (vm_compute; reflexivity).
  assert (Hsv : demo_heap !! 8%positive
                = Some (CItem KVariable {| mId := "x"; mName := EmptyString |}))
    by (vm_compute; reflexivity).
  split_and!; [exact Hc|exact Hsv|].
  destruct (proj1 (proj2 (add_null_rejected_else_appends_copy
                            (H0 := demo_common)))
              demo_heap 1%positive demo_cc 8%positive _ Hc Hsv)
    as (q & h' & c' & Hrun & _ & _ & Hnum & _).
  exists h'. split; [exact Hrun|exact Hnum].
Defined.

Lemma setMath_ill_formed_rejected_witness :
  SedComputeChange__setMath 1%positive (Some 9%positive) demo_heap
    = Done (-5)%Z demo_heap.
Proof.
  apply (setMath_ill_formed_rejected (H0 := demo_common)
           demo_heap 1%positive demo_cc 9%positive (APlus (AConst 1) AIncomplete)).
  - vm_compute; reflexivity.
  - vm_compute. discriminate.
  - vm_compute; reflexivity.
  - vm_compute; reflexivity.
Defined.

Lemma writeElements_order_and_omission_witness :
  SedComputeChange__writeElements 1%positive [] demo_heap
    = Done ([EvSuperElements demo_b]
              ++ wrapper_events KVariable (v_variables demo_view)
              ++ wrapper_events KParameter (v_parameters demo_view)
              ++ math_events (v_math demo_view)) demo_heap.
Proof.
  apply (proj1 (writeElements_order_and_omission (H := demo_sbml))
           demo_heap 1%positive demo_cc demo_view []).
  - vm_compute; reflexivity.
  - vm_compute; reflexivity.
Defined.





Lemma readOtherXML_or_combined_witness :
  ∃ h',
    SedComputeChange__readOtherXML 1%positive ["math"; "annotation"] demo_heap
      = Done (true, []) h' ∧
    view_cc h' 1%positive
      = Some (@Build_CCView demo_sbml (v_variables demo_view)
                (v_parameters demo_view) (Some (AConst 1))).
Proof.
  destruct (readOtherXML_or_combined (H0 := demo_common) (SuperClass0 := demo_super)
              demo_heap 1%positive demo_cc ["math"; "annotation"]
              (Some (APlus (AConst 1) (AConst 2))))
    as (h' & c' & Hrun & Hthis & Hsuper & Hmath & _).
  - vm_compute; reflexivity.
  - vm_compute; reflexivity.
  - exists h'. split; [exact Hrun|].
    vm_compute in Hrun. injection Hrun as <-. vm_compute. reflexivity.
Defined.

Lemma parent_links_after_construction_copy_assignment_witness :
  parent_links demo_heap2 ∧
  ∃ h',
    SedComputeChange__assign 11%positive (Some 1%positive) demo_heap2
      = Done 11%positive h' ∧
    parent_links h'.
Proof.
  assert (Hinv : parent_links demo_heap2).
  { apply (bool_decide_unpack _). vm_compute. exact I. }
  split; [exact Hinv|].
  destruct (SedComputeChange__assign 11%positive (Some 1%positive) demo_heap2)
    as [p h'| |] eqn:Hrun; [|vm_compute in Hrun; discriminate..].
  destruct (proj1 (proj2 (proj2 (proj2
              (parent_links_after_construction_copy_assignment
                 (SuperClass0 := demo_super) (SuperClass1 := demo_super)))))
              11%positive (Some 1%positive) demo_heap2 p h' Hrun)
    as (-> & _ & Hpres).
  exists h'. split; [reflexivity|]. by apply Hpres.
Defined.

Lemma create_returns_stored_element_witness :
  demo_heap !! 6%positive = Some (CPlot2D demo_pd) ∧
  ∃ q h',
    SedPlot2D__createCurve 6%positive demo_heap = Done (Some q) h' ∧
    SedPlot2D__getNumCurves 6%positive h' = Done 2 h' ∧
    SedPlot2D__getCurve 6%positive 1 h' = Done (Some q) h'.
Proof.
  assert (Hp : demo_heap !! 6%positive = Some (CPlot2D demo_pd))
    by (vm_compute; reflexivity).
  split; [exact Hp|].
  destruct (proj1 (proj2 (proj2 create_returns_stored_element))
              demo_heap 6%positive demo_pd Hp)
    as (q & h' & p' & Hrun & Hthis & Happ & _ & Hnum).
  exists q, h'. split_and!; [exact Hrun|exact Hnum|].
  destruct Happ as (_ & _ & _ & _ & Hget & _).
  unfold SedPlot2D__getCurve. rewrite bind_run.
  unfold load_pd. rewrite Hthis. cbv [ret]. f_equal. exact Hget.
Defined.

(** ** Beyond the specification: the diagnostic tables *)

Lemma strictly_increasing_head (x : Z) (l : list Z) j y :
  SedError.strictly_increasing (x :: l) = true →
  l !! j = Some y → (x < y)%Z.
Proof.
  revert x j. induction l as [|y0 l IH]; intros x j Hsi Hj; [done|].
  cbn [SedError.strictly_increasing] in Hsi.
  apply andb_true_iff in Hsi as (Hx%Z.ltb_lt & Hsi).
  destruct j as [|j]; cbn in Hj.
  - injection Hj as <-. done.
  - pose proof (IH y0 j Hsi Hj). lia.
Qed.

Lemma strictly_increasing_lookup (l : list Z) i j x y :
  SedError.strictly_increasing l = true →
  i < j → l !! i = Some x → l !! j = Some y → (x < y)%Z.
Proof.
  revert i j. induction l as [|x0 l IH]; intros i j Hsi Hij Hi Hj; [done|].
  destruct j as [|j]; [lia|]. cbn in Hj.
  destruct i as [|i]; cbn in Hi.
  - injection Hi as <-. by eapply strictly_increasing_head.
  - eapply (IH i j); [|lia|done..].
    destruct l as [|y0 l]; [done|].
    cbn [SedError.strictly_increasing] in Hsi.
    by apply andb_true_iff in Hsi as (_ & Hsi).
Qed.

Lemma SedErrorCode_declared_at_lookup c :
  SedError.SedErrorCode_all !! SedError.declared_at c = Some c.
Proof. destruct c; vm_compute; reflexivity. Qed.

Lemma SedErrorCode_value_lookup c :
  map SedError.SedErrorCode_value SedError.SedErrorCode_all
    !! SedError.declared_at c
  = Some (SedError.SedErrorCode_value c).
Proof.
  change (map SedError.SedErrorCode_value SedError.SedErrorCode_all)
    with (SedError.SedErrorCode_value <$> SedError.SedErrorCode_all).
  by rewrite list_lookup_fmap, SedErrorCode_declared_at_lookup.
Qed.

Lemma SedErrorCode_values_increasing :
  SedError.strictly_increasing
    (map SedError.SedErrorCode_value SedError.SedErrorCode_all) = true.
Proof. vm_compute. reflexivity. Qed.

(** X15: a diagnostic code identifies its enumerator: two different
    enumerators of [SedErrorCode_t] never have the same value, and comparing
    two codes as numbers is the same as comparing the places of their
    enumerators in the declaration. *)
Theorem SedErrorCode_value_identifies_enumerator :
  (∀ c1 c2, c1 ≠ c2 →
     SedError.SedErrorCode_value c1 ≠ SedError.SedErrorCode_value c2) ∧
  (∀ c1 c2,
     SedError.declared_at c1 < SedError.declared_at c2 ↔
     (SedError.SedErrorCode_value c1 < SedError.SedErrorCode_value c2)%Z).
Proof.
  assert (Hmono : ∀ c1 c2,
            SedError.declared_at c1 < SedError.declared_at c2 →
            (SedError.SedErrorCode_value c1 < SedError.SedErrorCode_value c2)%Z).
  { intros c1 c2 Hlt.
    eapply strictly_increasing_lookup;
      [exact SedErrorCode_values_increasing|exact Hlt|
       apply SedErrorCode_value_lookup..]. }
  assert (Hinj : ∀ c1 c2,
            SedError.declared_at c1 = SedError.declared_at c2 → c1 = c2).
  { intros c1 c2 E. pose proof (SedErrorCode_declared_at_lookup c1) as H1.
    rewrite E, SedErrorCode_declared_at_lookup in H1. by injection H1. }
  split.
  - intros c1 c2 Hne E.
    destruct (Nat.lt_trichotomy (SedError.declared_at c1) (SedError.declared_at c2))
      as [Hlt|[Heq|Hgt]].
    + apply Hmono in Hlt. lia.
    + by apply Hne, Hinj.
    + apply Hmono in Hgt. lia.
  - intros c1 c2. split; [apply Hmono|]. intros Hv.
    destruct (Nat.lt_trichotomy (SedError.declared_at c1) (SedError.declared_at c2))
      as [Hlt|[Heq|Hgt]]; [done| |].
    + apply Hinj in Heq as ->. lia.
    + apply Hmono in Hgt. lia.
Qed.

Lemma SedErrorCode_value_identifies_enumerator_witness :
  SedError.declared_at SedError.UnknownError < SedError.declared_at SedError.NotUTF8 ∧
  (SedError.SedErrorCode_value SedError.UnknownError
   < SedError.SedErrorCode_value SedError.NotUTF8)%Z.
Proof.
  assert (Hlt : SedError.declared_at SedError.UnknownError
                < SedError.declared_at SedError.NotUTF8)
    by (vm_compute; lia).
  split; [exact Hlt|].
  apply (proj1 (proj2 SedErrorCode_value_identifies_enumerator
                  SedError.UnknownError SedError.NotUTF8) Hlt).
Defined.

(** X16: the categories are numbered 0 to 6 in the order of their
    declaration, each with a value of its own.  The three severities that
    the header adds to libSBML's lie directly above [LIBSBML_SEV_FATAL], one
    after the other; so, as long as libSBML's error and warning severities
    are different and below its fatal one, no two severities have the same
    value. *)
Theorem SedError_categories_and_severities_distinct `{XMLErrorSeverity} :
  (∀ c, (0 ≤ SedErrorCategory_value c ≤ 6)%Z) ∧
  (∀ c1 c2, c1 ≠ c2 → SedErrorCategory_value c1 ≠ SedErrorCategory_value c2) ∧
  SedErrorSeverity_value LIBSEDML_SEV_SCHEMA_ERROR = (LIBSBML_SEV_FATAL + 1)%Z ∧
  SedErrorSeverity_value LIBSEDML_SEV_GENERAL_WARNING = (LIBSBML_SEV_FATAL + 2)%Z ∧
  SedErrorSeverity_value LIBSEDML_SEV_NOT_APPLICABLE = (LIBSBML_SEV_FATAL + 3)%Z ∧
  ((LIBSBML_SEV_ERROR < LIBSBML_SEV_FATAL)%Z →
   (LIBSBML_SEV_WARNING < LIBSBML_SEV_FATAL)%Z →
   LIBSBML_SEV_ERROR ≠ LIBSBML_SEV_WARNING →
   ∀ s1 s2, s1 ≠ s2 → SedErrorSeverity_value s1 ≠ SedErrorSeverity_value s2).
Proof.
  split_and!.
  - intros []; cbn; lia.
  - intros [] [] Hne; cbn; first [done | lia].
  - cbn. lia.
  - cbn. lia.
  - cbn. lia.
  - intros H1 H2 H3 [] [] Hne; cbn; first [done | lia].
Qed.

Lemma SedError_categories_and_severities_distinct_witness :
  SedErrorSeverity_value (H := demo_severity) LIBSEDML_SEV_SCHEMA_ERROR
  ≠ SedErrorSeverity_value (H := demo_severity) LIBSEDML_SEV_FATAL.
Proof.
  apply (proj2 (proj2 (proj2 (proj2 (proj2
           (SedError_categories_and_severities_distinct (H := demo_severity)))))));
    [cbn; lia|cbn; lia|cbn; lia|discriminate].
Defined.

(** ** The further properties at work on the concrete store *)

Lemma setMath_return_code_witness :
  ∃ h',
    SedComputeChange__setMath 1%positive (Some 5%positive) demo_heap
      = Done 0%Z h' ∧
    h' = demo_heap.
Proof.
  destruct (setMath_return_code (H0 := demo_common) demo_heap 1%positive demo_cc
              (Some 5%positive)
              (Some (APlus (AConst 1) (AConst 2)))
              (Some (APlus (AConst 1) (AConst 2))))
    as (h' & Hrun & Hsame); [vm_compute; reflexivity..|].
  exists h'. split; [exact Hrun|]. apply Hsame. right. reflexivity.
Defined.

Lemma setMath_stores_independent_copy_witness :
  ∃ q h',
    SedComputeChange__setMath 11%positive (Some 5%positive) demo_heap2
      = Done 0%Z h' ∧
    SedComputeChange__getMath 11%positive h' = Done (Some q) h' ∧
    q ≠ 5%positive ∧
    view_cc h' 11%positive
      = Some (@Build_CCView demo_sbml [] [] (Some (APlus (AConst 1) (AConst 2)))).
Proof.
  destruct (setMath_stores_independent_copy (H0 := demo_common)
              demo_heap2 11%positive
              {| cc_super := demo_b;
                 mVariable := {| mItems := []; mParentSedObject := Some 11%positive |};
                 mParameter := {| mItems := []; mParentSedObject := Some 11%positive |};
                 mMath := None |}
              (@Build_CCView demo_sbml [] [] None)
              5%positive (APlus (AConst 1) (AConst 2)))
    as (q & h' & Hrun & Hget & _ & Hq & _ & _ & Hview & _);
    [vm_compute; reflexivity|vm_compute; reflexivity|vm_compute; reflexivity|
     discriminate|vm_compute; reflexivity|].
  exists q, h'. split_and!; [exact Hrun|exact Hget|exact Hq|exact Hview].
Defined.

Lemma unsetMath_clears_expression_witness :
  ∃ h',
    SedComputeChange__unsetMath 1%positive demo_heap = Done 0%Z h' ∧
    SedComputeChange__isSetMath 1%positive h' = Done false h' ∧
    h' !! 5%positive = None.
Proof.
  destruct (unsetMath_clears_expression (H0 := demo_common)
              demo_heap 1%positive demo_cc demo_view)
    as (_ & h' & Hrun & Hset & _ & _ & Hgone & _);
    [vm_compute; reflexivity..|].
  exists h'. split_and!; [exact Hrun|exact Hset|].
  apply Hgone. reflexivity.
Defined.

Lemma add_extends_view_witness :
  ∃ h',
    SedComputeChange__addVariable 1%positive (Some 8%positive) demo_heap
      = Done 0%Z h' ∧
    view_cc h' 1%positive
      = Some (view_with_variables
                (v_variables demo_view ++ [{| mId := "x"; mName := EmptyString |}])
                demo_view).
Proof.
  destruct (proj1 (add_extends_view (H0 := demo_common))
              demo_heap 1%positive demo_view 8%positive
              {| mId := "x"; mName := EmptyString |})
    as (h' & Hrun & Hview & _); [vm_compute; reflexivity..|].
  exists h'. split; [exact Hrun|exact Hview].
Defined.

Lemma create_extends_view_witness :
  ∃ q h',
    SedPlot2D__createCurve 6%positive demo_heap = Done (Some q) h' ∧
    view_pd h' 6%positive
      = Some [{| mId := "c1"; mName := EmptyString |}; SedItem_default].
Proof.
  destruct (proj2 (proj2 (create_extends_view (H := demo_sbml)))
              demo_heap 6%positive [{| mId := "c1"; mName := EmptyString |}])
    as (q & h' & Hrun & _ & Hview & _); [vm_compute; reflexivity|].
  exists q, h'. split; [exact Hrun|exact Hview].
Defined.

Lemma remove_by_index_detaches_witness :
  ∃ h',
    SedComputeChange__removeVariable 1%positive 0 demo_heap
      = Done (Some 2%positive) h' ∧
    view_cc h' 1%positive
      = Some (view_with_variables [{| mId := "b"; mName := EmptyString |}] demo_view) ∧
    h' !! 2%positive = Some (CItem KVariable {| mId := "a"; mName := EmptyString |}).
Proof.
  destruct (proj1 (remove_by_index_detaches (H := demo_sbml))
              demo_heap 1%positive demo_cc demo_view 0)
    as (h' & Hrun & Hview & Hframe & _); [vm_compute; reflexivity..|].
  exists h'. split_and!; [exact Hrun|exact Hview|].
  rewrite Hframe by discriminate. vm_compute. reflexivity.
Defined.

Lemma create_then_remove_last_round_trip_witness :
  ∃ q,
    demo_heap !! q = None ∧
    (SedComputeChange__createVariable 1%positive ≫= λ _,
       SedComputeChange__removeVariable 1%positive 2) demo_heap
    = Done (Some q) (<[q := CItem KVariable SedItem_default]> demo_heap).
Proof.
  destruct (proj1 (create_then_remove_last_round_trip (H := demo_sbml))
              demo_heap 1%positive demo_cc)
    as (q & Hq & Hrun); [vm_compute; reflexivity|].
  exists q. split; [exact Hq|exact Hrun].
Defined.

Lemma createObject_dispatch_witness :
  ∃ h',
    SedComputeChange__createObject (SuperParser0 := demo_parser)
      1%positive ["listOfVariables"] demo_heap
    = Done (Some (ObjMember (RefVariable 1%positive)), ["listOfVariables"]) h' ∧
    view_cc h' 1%positive = Some demo_view.
Proof.
  destruct (proj1 (createObject_dispatch (H0 := demo_common)
                     (SuperParser0 := demo_parser) (SuperParser1 := demo_parser))
              demo_heap 1%positive demo_cc ["listOfVariables"])
    as (object & h' & c' & Hrun & Hvar & _ & _ & _ & _ & _ & _ & _ & _ & Hview);
    [vm_compute; reflexivity|].
  exists h'. split.
  - rewrite Hrun, Hvar by reflexivity. reflexivity.
  - apply Hview. vm_compute. reflexivity.
Defined.

Lemma const_methods_leave_store_unchanged_witness :
  ∃ stream,
    SedComputeChange__writeElements 1%positive [] demo_heap
      = Done stream demo_heap.
Proof.
  destruct (SedComputeChange__writeElements 1%positive [] demo_heap)
    as [stream h'| |] eqn:Hrun; [|vm_compute in Hrun; discriminate..].
  exists stream. f_equal.
  destruct (const_methods_leave_store_unchanged (H0 := demo_common)
              (SuperClass0 := demo_super) (SuperClass1 := demo_super) 1%positive)
    as (_ & _ & _ & _ & _ & _ & _ & _ & _ & _ & _ & _ & Hwrite & _).
  exact (Hwrite [] demo_heap stream h' Hrun).
Defined.

Lemma mutators_preserve_parent_links_witness :
  parent_links demo_heap ∧
  ∃ q h',
    SedComputeChange__createVariable 1%positive demo_heap = Done q h' ∧
    parent_links h'.
Proof.
  assert (Hinv : parent_links demo_heap).
  { apply (bool_decide_unpack _). vm_compute. exact I. }
  split; [exact Hinv|].
  destruct (SedComputeChange__createVariable 1%positive demo_heap)
    as [q h'| |] eqn:Hrun; [|vm_compute in Hrun; discriminate..].
  exists q, h'. split; [reflexivity|].
  destruct (mutators_preserve_parent_links (H0 := demo_common)
              (SuperClass0 := demo_super) (SuperClass1 := demo_super)
              (SuperParser0 := demo_parser) (SuperParser1 := demo_parser)
              1%positive)
    as (_ & _ & _ & Hcreate & _).
  exact (Hcreate demo_heap q h' Hinv Hrun).
Defined.

Lemma free_releases_children_not_expression_witness :
  ∃ h',
    SedComputeChange_free (Some 1%positive) demo_heap = Done tt h' ∧
    h' !! 1%positive = None ∧
    h' !! 2%positive = None ∧
    h' !! 5%positive = Some (CMath (APlus (AConst 1) (AConst 2))).
Proof.
  destruct (proj1 (free_releases_children_not_expression (H := demo_sbml))
              demo_heap 1%positive demo_cc demo_view)
    as (h' & Hrun & _ & Hthis & Hgone & Hleak).
  - vm_compute; reflexivity.
  - vm_compute; reflexivity.
  - apply (bool_decide_unpack _). vm_compute. exact I.
  - exists h'. split_and!; [exact Hrun|exact Hthis| |].
    + apply Hgone. apply (bool_decide_unpack _). vm_compute. exact I.
    + destruct (Hleak 5%positive eq_refl) as (t & Ht & Hp).
      cbn in Ht. injection Ht as <-. exact Hp.
Defined.

Lemma assignment_leaks_previous_expression_witness :
  ∃ h',
    SedComputeChange__assign 1%positive (Some 11%positive) demo_heap2
      = Done 1%positive h' ∧
    SedComputeChange__getMath 1%positive h' = Done None h' ∧
    h' !! 5%positive = Some (CMath (APlus (AConst 1) (AConst 2))).
Proof.
  destruct (assignment_leaks_previous_expression (H0 := demo_common)
              demo_heap2 1%positive 11%positive demo_cc
              {| cc_super := demo_b;
                 mVariable := {| mItems := []; mParentSedObject := Some 11%positive |};
                 mParameter := {| mItems := []; mParentSedObject := Some 11%positive |};
                 mMath := None |}
              demo_view (@Build_CCView demo_sbml [] [] None) 5%positive)
    as (h' & c' & t & Hrun & Hthis & Ht & Hp & _).
  - vm_compute; reflexivity.
  - vm_compute; reflexivity.
  - discriminate.
  - vm_compute; reflexivity.
  - vm_compute; reflexivity.
  - apply (bool_decide_unpack _). vm_compute. exact I.
  - apply (bool_decide_unpack _). vm_compute. exact I.
  - reflexivity.
  - exists h'. cbn in Ht. injection Ht as <-. split_and!; [exact Hrun| |exact Hp].
    vm_compute in Hrun. injection Hrun as <-. vm_compute. reflexivity.
Defined.

Lemma create_free_and_clone_free_round_trip_witness :
  ∃ q,
    demo_heap !! q = None ∧
    (SedComputeChange_clone (Some 1%positive) ≫= SedComputeChange_free) demo_heap
    = Done tt (<[q := CMath (APlus (AConst 1) (AConst 2))]> demo_heap).
Proof.
  destruct (proj2 (proj2 (proj2 (create_free_and_clone_free_round_trip
                                   (H0 := demo_common))))
              demo_heap 1%positive demo_view)
    as (h2 & Hrun & _ & Hleak); [vm_compute; reflexivity|].
  destruct (Hleak _ eq_refl) as (q & Hq & ->).
  exists q. split; [exact Hq|exact Hrun].
Defined.

Lemma by_identifier_is_by_first_position_witness :
  SedComputeChange__getVariableById 1%positive "b" demo_heap
    = Done (Some 3%positive) demo_heap ∧
  SedComputeChange__removeVariableById 1%positive "b" demo_heap
    = SedComputeChange__removeVariable 1%positive 1 demo_heap ∧
  SedComputeChange__getVariableById 1%positive "z" demo_heap
    = Done None demo_heap.
Proof.
  assert (Hc : demo_heap !! 1%positive = Some (CComputeChange demo_cc))
    by (vm_compute; reflexivity).
  assert (Hv : cc_view demo_heap demo_cc = Some demo_view)
    by (vm_compute; reflexivity).
  destruct (proj1 (by_identifier_is_by_first_position (H := demo_sbml))
              demo_heap 1%positive demo_cc demo_view "b" Hc Hv)
    as (Hget & Hremove).
  destruct (proj1 (by_identifier_is_by_first_position (H := demo_sbml))
              demo_heap 1%positive demo_cc demo_view "z" Hc Hv)
    as (Hget' & _).
  split_and!; [exact Hget|exact Hremove|exact Hget'].
Defined.

Lemma add_then_get_by_identifier_witness :
  ∃ q h',
    SedComputeChange__addVariable 1%positive (Some 8%positive) demo_heap
      = Done 0%Z h' ∧
    demo_heap !! q = None ∧
    SedComputeChange__getVariableById 1%positive "x" h' = Done (Some q) h'.
Proof.
  destruct (proj1 (add_then_get_by_identifier (H0 := demo_common))
              demo_heap 1%positive demo_cc demo_view 8%positive
              {| mId := "x"; mName := EmptyString |})
    as (q & h' & Hrun & Hq & _ & Hget & _); [vm_compute; reflexivity..|].
  exists q, h'. split_and!; [exact Hrun|exact Hq|].
  apply Hget. vm_compute. reflexivity.
Defined.

Lemma clone_writes_same_elements_witness :
  ∃ p h' body,
    SedComputeChange__clone 1%positive demo_heap = Done p h' ∧
    SedComputeChange__writeElements 1%positive [] h'
      = Done (EvSuperElements demo_b :: body) h' ∧
    SedComputeChange__writeElements p [] h'
      = Done (EvSuperElements demo_b :: body) h'.
Proof.
  destruct (proj1 (clone_writes_same_elements (H0 := demo_common)
                     (SuperClass0 := demo_super) (SuperClass1 := demo_super))
              demo_heap 1%positive demo_cc demo_view [])
    as (p & h' & c' & body & Hrun & _ & Hw1 & Hw2 & Hsuper);
    [vm_compute; reflexivity..|].
  exists p, h', body. split_and!; [exact Hrun|exact Hw1|].
  rewrite Hw2, Hsuper. reflexivity.
Defined.
